(** * Island-model recipe search: score extraction, clusters, islands, driver

    A shallow embedding of the evolutionary core of the repository
    (programs_database.py, island.py, cluster.py, helper.py, funsearch.py)
    and the properties its specification states about it.

    Modelling conventions.
    - A Python [float] has two models.  Where a property depends on how
      binary64 rounds (the weighted score, the float a score literal
      denotes, the clustering threshold) it is a [Binary64.t]: a rational
      that binary64 represents, or [+inf], [-inf], [nan], every operation
      rounding the exact result to nearest, ties to even.  Where it does
      not (the softmax rankings, which need [exp]) it is a [pyfloat]: an
      exact real number or one of the special values, with exact
      arithmetic on finite values.  The special values follow IEEE 754 as
      numpy and the [math] module expose them.
    - The builtin [sum] adds from left to right, starting from 0.
    - A Python [str] is a [string] of 8-bit characters; only ASCII characters
      are classified as white space, digits or word characters.
    - The class attribute [Island._programs] (a pandas DataFrame) is a list of
      rows in insertion order; [pd.concat] with [ignore_index] appends.
    - An [await] of the network is a call to an oracle passed as an argument. *)

From Stdlib Require Import ZArith List String Ascii Bool Arith Lia.
From Stdlib Require Import QArith Qround Qabs Qpower Lqa.
From Stdlib Require Floats.
From Stdlib Require Import Reals Lra R_Ifp Permutation Sorted.
Import ListNotations.
Close Scope Q_scope.

Set Implicit Arguments.

(* ================================================================== *)
(** * Part I: definitions                                              *)
(* ================================================================== *)

(** ** Python floats *)

Module PyFloat.

Inductive pyfloat : Type :=
| Fin (r : R)
| PInf
| NInf
| NaN.

Definition Rltb (a b : R) : bool := if Rlt_dec a b then true else false.
Definition Rleb (a b : R) : bool := if Rle_dec a b then true else false.
Definition Reqb (a b : R) : bool := if Req_dec_T a b then true else false.

(** [math.isnan] *)
Definition isnan (x : pyfloat) : bool :=
  match x with NaN => true | _ => false end.

(** [math.isfinite] *)
Definition isfinite (x : pyfloat) : bool :=
  match x with Fin _ => true | _ => false end.

(** [x < y]; every comparison with [nan] is [False]. *)
Definition ltb (x y : pyfloat) : bool :=
  match x, y with
  | NaN, _ | _, NaN => false
  | Fin a, Fin b => Rltb a b
  | Fin _, PInf => true
  | Fin _, NInf => false
  | PInf, _ => false
  | NInf, NInf => false
  | NInf, _ => true
  end.

(** [x <= y] *)
Definition leb (x y : pyfloat) : bool :=
  match x, y with
  | NaN, _ | _, NaN => false
  | Fin a, Fin b => Rleb a b
  | Fin _, PInf => true
  | Fin _, NInf => false
  | PInf, PInf => true
  | PInf, _ => false
  | NInf, _ => true
  end.

(** [x > y] *)
Definition gtb (x y : pyfloat) : bool := ltb y x.

Definition neg (x : pyfloat) : pyfloat :=
  match x with
  | Fin a => Fin (- a)
  | PInf => NInf
  | NInf => PInf
  | NaN => NaN
  end.

(** [x + y]; [inf + (-inf)] is [nan]. *)
Definition add (x y : pyfloat) : pyfloat :=
  match x, y with
  | NaN, _ | _, NaN => NaN
  | Fin a, Fin b => Fin (a + b)
  | PInf, NInf | NInf, PInf => NaN
  | PInf, _ | _, PInf => PInf
  | NInf, _ | _, NInf => NInf
  end.

(** [x - y] *)
Definition sub (x y : pyfloat) : pyfloat := add x (neg y).

(** The sign of a real as an infinity, [nan] for zero: [inf * a]. *)
Definition inf_times (a : R) : pyfloat :=
  if Rltb 0 a then PInf else if Rltb a 0 then NInf else NaN.

(** [x * y]; [inf * 0] is [nan]. *)
Definition mul (x y : pyfloat) : pyfloat :=
  match x, y with
  | NaN, _ | _, NaN => NaN
  | Fin a, Fin b => Fin (a * b)
  | Fin a, PInf | PInf, Fin a => inf_times a
  | Fin a, NInf | NInf, Fin a => neg (inf_times a)
  | PInf, PInf | NInf, NInf => PInf
  | PInf, NInf | NInf, PInf => NaN
  end.

(** numpy's [x / y] on float64: division by zero gives an infinity (or
    [nan] for [0/0]) with a warning, not an exception. *)
Definition div (x y : pyfloat) : pyfloat :=
  match x, y with
  | NaN, _ | _, NaN => NaN
  | Fin a, Fin b => if Reqb b 0 then inf_times a else Fin (a / b)
  | Fin _, (PInf | NInf) => Fin 0
  | PInf, Fin b => if Rltb b 0 then NInf else PInf
  | NInf, Fin b => if Rltb b 0 then PInf else NInf
  | (PInf | NInf), (PInf | NInf) => NaN
  end.

(** [abs(x)] *)
Definition abs (x : pyfloat) : pyfloat :=
  match x with
  | Fin a => Fin (Rabs a)
  | PInf | NInf => PInf
  | NaN => NaN
  end.

(** [np.exp] *)
Definition exp (x : pyfloat) : pyfloat :=
  match x with
  | Fin a => Fin (Rtrigo_def.exp a)
  | PInf => PInf
  | NInf => Fin 0
  | NaN => NaN
  end.

(** Python's [float(n)] for an [int] *)
Definition of_Z (n : Z) : pyfloat := Fin (IZR n).

(** Rounding of a real to the nearest integer, ties to the even one. *)
Definition round_half_even (r : R) : Z :=
  let n := Int_part r in
  let f := (r - IZR n)%R in
  if Rltb f (1 / 2) then n
  else if Rltb (1 / 2) f then (n + 1)%Z
  else if Z.even n then n else (n + 1)%Z.

(** [round(x, 2)]: infinities and [nan] round to themselves. *)
Definition round2 (x : pyfloat) : pyfloat :=
  match x with
  | Fin a => Fin (IZR (round_half_even (a * 100)) / 100)
  | _ => x
  end.

(** The builtin [sum] of a sequence of floats: a left fold from [0]. *)
Definition sum (xs : list pyfloat) : pyfloat :=
  fold_left add xs (Fin 0).

End PyFloat.

(** ** Binary64 floats

    The finite values are the rationals [m * 2^e] with [|m| < 2^53] and
    [-1074 <= e]; an operation computes the exact rational result and
    rounds it to the nearest of them, a tie going to the even [m], and to
    an infinity from [2^1024] on.  Signed zeros are not told apart. *)

Module Binary64.

Local Open Scope Q_scope.

Inductive t : Type :=
| Fin (q : Q)
| PInf
| NInf
| NaN.

Definition two : Q := 2 # 1.

(** [floor (log2 q)] for a positive [q]. *)
Definition ilog2 (q : Q) : Z :=
  let l := (Z.log2 (Qnum q) - Z.log2 (Zpos (Qden q)))%Z in
  if Qle_bool (two ^ l) q then l else (l - 1)%Z.

(** The exponent of the unit in the last place at [q]: 53 significant
    bits, and the fixed spacing [2^-1074] of the subnormal numbers. *)
Definition ulp_exp (q : Q) : Z := Z.max (ilog2 q - 52) (-1074).

(** The nearest integer, a tie going to the even one. *)
Definition nearest_even (q : Q) : Z :=
  let n := Qfloor q in
  match Qcompare (q - inject_Z n) (1 # 2) with
  | Lt => n
  | Gt => (n + 1)%Z
  | Eq => if Z.even n then n else (n + 1)%Z
  end.

(** A positive rational rounded to the nearest multiple of its unit in
    the last place. *)
Definition rnd_pos (q : Q) : Q :=
  let e := ulp_exp q in
  inject_Z (nearest_even (q / two ^ e)) * two ^ e.

(** Round to nearest, ties to even; a result of magnitude [2^1024] or
    more is an infinity.  The sign of a zero is not kept. *)
Definition rnd (q : Q) : t :=
  match Qcompare q 0 with
  | Eq => Fin 0
  | Gt => let r := rnd_pos q in
          if Qle_bool (two ^ 1024) r then PInf else Fin (Qred r)
  | Lt => let r := rnd_pos (- q) in
          if Qle_bool (two ^ 1024) r then NInf else Fin (Qred (- r))
  end.

Definition neg (x : t) : t :=
  match x with
  | Fin a => Fin (- a)
  | PInf => NInf
  | NInf => PInf
  | NaN => NaN
  end.

Definition add (x y : t) : t :=
  match x, y with
  | NaN, _ | _, NaN => NaN
  | Fin a, Fin b => rnd (a + b)
  | PInf, NInf | NInf, PInf => NaN
  | PInf, _ | _, PInf => PInf
  | NInf, _ | _, NInf => NInf
  end.

Definition sub (x y : t) : t := add x (neg y).

Definition inf_times (a : Q) : t :=
  match Qcompare a 0 with Gt => PInf | Lt => NInf | Eq => NaN end.

Definition mul (x y : t) : t :=
  match x, y with
  | NaN, _ | _, NaN => NaN
  | Fin a, Fin b => rnd (a * b)
  | Fin a, PInf | PInf, Fin a => inf_times a
  | Fin a, NInf | NInf, Fin a => neg (inf_times a)
  | PInf, PInf | NInf, NInf => PInf
  | PInf, NInf | NInf, PInf => NaN
  end.

Definition abs (x : t) : t :=
  match x with
  | Fin a => Fin (Qabs a)
  | PInf | NInf => PInf
  | NaN => NaN
  end.

Definition Qlt_bool (a b : Q) : bool :=
  match Qcompare a b with Lt => true | _ => false end.

Definition ltb (x y : t) : bool :=
  match x, y with
  | NaN, _ | _, NaN => false
  | Fin a, Fin b => Qlt_bool a b
  | Fin _, PInf => true
  | Fin _, NInf => false
  | PInf, _ => false
  | NInf, NInf => false
  | NInf, _ => true
  end.

Definition leb (x y : t) : bool :=
  match x, y with
  | NaN, _ | _, NaN => false
  | Fin a, Fin b => Qle_bool a b
  | Fin _, PInf => true
  | Fin _, NInf => false
  | PInf, PInf => true
  | PInf, _ => false
  | NInf, _ => true
  end.

(** [float(n)] for an [int] *)
Definition of_Z (n : Z) : t := rnd (inject_Z n).

(** The float a decimal literal denotes: [n] with the point [k] digits
    from the right. *)
Definition of_decimal (n : Z) (k : nat) : t :=
  rnd (inject_Z n / inject_Z (10 ^ Z.of_nat k)).

(** [round(x, 2)]: the decimal with two places nearest to the exact value
    of [x] (a tie going to the even last digit), then the float nearest to
    that decimal; infinities and [nan] round to themselves. *)
Definition round2 (x : t) : t :=
  match x with
  | Fin a => of_decimal (nearest_even (a * 100)) 2
  | _ => x
  end.

(** The value of a primitive float. *)
Definition of_prim (x : PrimFloat.float) : t :=
  match FloatOps.Prim2SF x with
  | SpecFloat.S754_zero _ => Fin 0
  | SpecFloat.S754_infinity s => if s then NInf else PInf
  | SpecFloat.S754_nan => NaN
  | SpecFloat.S754_finite s m e =>
      Fin (Qred ((if s then - inject_Z (Zpos m) else inject_Z (Zpos m)) * two ^ e))
  end.

(** A bound on the rounding error of a result below 8. *)
Definition eps : Q := 1 # (2 ^ 51).

End Binary64.

(** ** Python strings *)

Module PyStr.

Definition chars (s : string) : list ascii := list_ascii_of_string s.
Definition str (l : list ascii) : string := string_of_list_ascii l.

(** The double quote character. *)
Definition dquote : ascii := "034"%char.

Definition in_range (lo hi : nat) (c : ascii) : bool :=
  let n := nat_of_ascii c in (lo <=? n) && (n <=? hi).

(** [str.isspace] on ASCII: tab, line feed, vertical tab, form feed,
    carriage return, the four separators 0x1c..0x1f and the space. *)
Definition is_space (c : ascii) : bool := in_range 9 13 c || in_range 28 32 c.

Definition is_digit (c : ascii) : bool := in_range 48 57 c.

(** A word character of the [re] module: a letter, a digit or the underscore. *)
Definition is_word (c : ascii) : bool :=
  is_digit c || in_range 65 90 c || in_range 97 122 c || Ascii.eqb c "_"%char.

(** [str.lower] on one ASCII character *)
Definition lower (c : ascii) : ascii :=
  if in_range 65 90 c then ascii_of_nat (nat_of_ascii c + 32) else c.

Fixpoint drop_while (p : ascii -> bool) (l : list ascii) : list ascii :=
  match l with
  | c :: tl => if p c then drop_while p tl else l
  | [] => []
  end.

Definition strip_by (p : ascii -> bool) (l : list ascii) : list ascii :=
  rev (drop_while p (rev (drop_while p l))).

(** [s.strip()] *)
Definition strip (s : string) : string := str (strip_by is_space (chars s)).

(** [s.strip(c)] for a one-character argument *)
Definition strip_char (c : ascii) (s : string) : string :=
  str (strip_by (Ascii.eqb c) (chars s)).

Fixpoint is_prefix (p l : list ascii) : bool :=
  match p, l with
  | [], _ => true
  | a :: p', b :: l' => Ascii.eqb a b && is_prefix p' l'
  | _ :: _, [] => false
  end.

(** [s.split(sep)] for a non-empty separator: the pieces between the
    occurrences of [sep] found from left to right; never an empty list.
    [cur] is the current piece, reversed. *)
Fixpoint split_aux (sep : list ascii) (skip : nat) (cur : list ascii)
  (l : list ascii) : list (list ascii) :=
  match l with
  | [] => [rev cur]
  | c :: tl =>
      match skip with
      | S n => split_aux sep n cur tl
      | O =>
          if is_prefix sep l
          then rev cur :: split_aux sep (List.length sep - 1) [] tl
          else split_aux sep 0 (c :: cur) tl
      end
  end.

Definition split (sep s : string) : list string :=
  map str (split_aux (chars sep) 0 [] (chars s)).

(** [sep.join(parts)] *)
Fixpoint join (sep : string) (parts : list string) : string :=
  match parts with
  | [] => EmptyString
  | [p] => p
  | p :: tl => (p ++ sep ++ join sep tl)%string
  end.

(** [s.startswith(c)] and [s.endswith(c)] for a one-character argument *)
Definition startswith (c : ascii) (s : string) : bool :=
  match chars s with a :: _ => Ascii.eqb a c | [] => false end.

Definition endswith (c : ascii) (s : string) : bool :=
  match rev (chars s) with a :: _ => Ascii.eqb a c | [] => false end.

(** The slice [s[1:-1]] *)
Definition slice_1_m1 (s : string) : string :=
  str (removelast (tl (chars s))).

(** Truth value of a string: [bool(s)] *)
Definition nonempty (s : string) : bool :=
  match s with EmptyString => false | String _ _ => true end.

(** [float(s)] on an unsigned decimal literal (digits, then optionally a
    point and more digits), the only strings the patterns of the evaluator
    capture; any other string is a [ValueError], here [None].  The value
    is the exact decimal; [Evaluator64.float] rounds it to binary64. *)
Fixpoint digits_value (acc : Z) (l : list ascii) : option Z :=
  match l with
  | [] => Some acc
  | c :: tl =>
      if is_digit c
      then digits_value (10 * acc + Z.of_nat (nat_of_ascii c - 48)) tl
      else None
  end.

Fixpoint split_at_point (cur l : list ascii) : list ascii * option (list ascii) :=
  match l with
  | [] => (rev cur, None)
  | c :: tl =>
      if Ascii.eqb c "."%char then (rev cur, Some tl)
      else split_at_point (c :: cur) tl
  end.

Definition decimal_of (l : list ascii) : option (Z * nat) :=
  match split_at_point [] l with
  | ([], _) => None
  | (ip, None) =>
      match digits_value 0 ip with Some n => Some (n, O) | None => None end
  | (ip, Some fp) =>
      match digits_value 0 (ip ++ fp) with
      | Some n => Some (n, List.length fp)
      | None => None
      end
  end.

Definition float (l : list ascii) : option PyFloat.pyfloat :=
  match decimal_of l with
  | Some (n, k) => Some (PyFloat.Fin (IZR n / IZR (10 ^ Z.of_nat k)))
  | None => None
  end.

End PyStr.

(** ** The fragment of the [re] module the evaluator uses

    A backtracking matcher with the priorities of Python's engine: an
    alternation tries its left branch first, a greedy repetition tries one
    more iteration before stopping, a lazy repetition tries to stop first.
    One capture group is supported, which is all the patterns need. *)

Module Re.

Import PyStr.

Inductive regex : Type :=
| Eps : regex
| Chr : (ascii -> bool) -> regex
| Cat : regex -> regex -> regex
| Alt : regex -> regex -> regex
| Opt : regex -> regex
| Star : regex -> regex
| LazyStar : regex -> regex
| WordB : regex
| Group : regex -> regex.

(** The state of a match attempt: the character just before the current
    position, the text still to read, and the text of group 1 if it has
    been closed. *)
Record mstate : Type := MState {
  prev : option ascii;
  rest : list ascii;
  cap : option (list ascii)
}.

Definition word_opt (c : option ascii) : bool :=
  match c with Some a => is_word a | None => false end.

(** A word boundary: exactly one of the two neighbours is a word character. *)
Definition at_boundary (st : mstate) : bool :=
  xorb (word_opt (prev st)) (word_opt (hd_error (rest st))).

Definition consumed (before after : list ascii) : list ascii :=
  firstn (List.length before - List.length after) before.

Definition progress (before after : mstate) : bool :=
  List.length (rest after) <? List.length (rest before).

(** [run r k st]: match [r] at [st], then continue with [k]; the first
    success in priority order is the result. *)
Fixpoint run (r : regex) (k : mstate -> option mstate) (st : mstate)
  {struct r} : option mstate :=
  match r with
  | Eps => k st
  | Chr p =>
      match rest st with
      | c :: tl => if p c then k (MState (Some c) tl (cap st)) else None
      | [] => None
      end
  | Cat r1 r2 => run r1 (run r2 k) st
  | Alt r1 r2 =>
      match run r1 k st with
      | Some x => Some x
      | None => run r2 k st
      end
  | Opt r1 =>
      match run r1 k st with
      | Some x => Some x
      | None => k st
      end
  | Star r1 =>
      (fix loop (fuel : nat) (st0 : mstate) {struct fuel} : option mstate :=
         match fuel with
         | O => k st0
         | S f =>
             match run r1 (fun st1 => if progress st0 st1 then loop f st1 else None) st0 with
             | Some x => Some x
             | None => k st0
             end
         end) (List.length (rest st)) st
  | LazyStar r1 =>
      (fix loop (fuel : nat) (st0 : mstate) {struct fuel} : option mstate :=
         match k st0 with
         | Some x => Some x
         | None =>
             match fuel with
             | O => None
             | S f => run r1 (fun st1 => if progress st0 st1 then loop f st1 else None) st0
             end
         end) (List.length (rest st)) st
  | WordB => if at_boundary st then k st else None
  | Group r1 =>
      run r1 (fun st1 => k (MState (prev st1) (rest st1)
                                   (Some (consumed (rest st) (rest st1))))) st
  end.

(** A match object: where the match starts, [group(0)] and [group(1)]. *)
Record match_obj : Type := MatchObj {
  m_start : nat;
  group0 : list ascii;
  group1 : option (list ascii)
}.

(** [re.search]: the leftmost position at which the pattern matches. *)
Fixpoint search_from (r : regex) (p : option ascii) (s : list ascii) (i : nat)
  : option match_obj :=
  match run r (fun st => Some st) (MState p s None) with
  | Some st => Some (MatchObj i (consumed s (rest st)) (cap st))
  | None =>
      match s with
      | [] => None
      | c :: tl => search_from r (Some c) tl (S i)
      end
  end.

Definition search (r : regex) (s : string) : option match_obj :=
  search_from r None (chars s) 0.

(** Pattern builders *)
Definition seq (rs : list regex) : regex := fold_right Cat Eps rs.
Definition plus (r : regex) : regex := Cat r (Star r).
Definition char (c : ascii) : regex := Chr (Ascii.eqb c).
Definition char_ci (c : ascii) : regex := Chr (fun x => Ascii.eqb (lower x) (lower c)).
Definition lit (s : string) : regex := seq (map char (chars s)).
Definition lit_ci (s : string) : regex := seq (map char_ci (chars s)).
Definition one_of (s : string) : regex :=
  Chr (fun x => existsb (Ascii.eqb x) (chars s)).
Definition none_of (s : string) : regex :=
  Chr (fun x => negb (existsb (Ascii.eqb x) (chars s))).
Definition space : regex := Chr is_space.
Definition digit : regex := Chr is_digit.
Definition any_char : regex := Chr (fun _ => true).
Definition dot : regex := Chr (fun x => negb (Ascii.eqb x "010"%char)).
Definition quote : regex := char dquote.

End Re.

(** ** Loosely typed Python values and dictionaries *)

Module Py.

(** A value that may be a [str], a [list], or anything else ([None], a
    number, a dict): what [isinstance] distinguishes in island.py.  An
    element of a list is a [str] ([Some s]) or anything else ([None]). *)
Inductive pyval : Type :=
| VStr (s : string)
| VList (l : list (option string))
| VOther.

(** A [dict] with string keys, in insertion order, keys unique. *)
Definition dict (V : Type) : Type := list (string * V).

Fixpoint dict_get {V : Type} (key : string) (d : dict V) : option V :=
  match d with
  | [] => None
  | (k, v) :: tl => if String.eqb k key then Some v else dict_get key tl
  end.

(** [key in d] *)
Definition dict_mem {V : Type} (key : string) (d : dict V) : bool :=
  match dict_get key d with Some _ => true | None => false end.

(** [d[key] = v] *)
Fixpoint dict_set {V : Type} (key : string) (v : V) (d : dict V) : dict V :=
  match d with
  | [] => [(key, v)]
  | (k, x) :: tl =>
      if String.eqb k key then (k, v) :: tl else (k, x) :: dict_set key v tl
  end.

(** [len(d)] *)
Definition dict_len {V : Type} (d : dict V) : nat := List.length d.

End Py.

(** ** recipe_evaluator: RecipeEvaluator (programs_database.py) *)

(** The dict [extract_recipe_details] returns; an absent key is [None]. *)
Module Recipe.
Record t : Type := Make {
  recipe_idea : option Py.pyval;
  essay : option Py.pyval;
  recipe_name : option Py.pyval;
  ingredients : option Py.pyval;
  instructions : option Py.pyval
}.
End Recipe.

(** The dict an evaluation returns.  [scores] is absent, a list of
    optional numbers, or some other value; [weighted_score] is absent,
    [None] or a number.  The empty dict is [empty]. *)
Module Response.
Inductive scores_val : Type :=
| ScoresList (l : list (option PyFloat.pyfloat))
| ScoresOther.
Record t : Type := Make {
  scores : option scores_val;
  weighted_score : option (option PyFloat.pyfloat);
  island_id : option Z
}.
Definition empty : t := Make None None None.
End Response.

Module Evaluator.

Import PyFloat PyStr Re Py.
Local Open Scope string_scope.

(** What [json.loads] may bind to a key: an [int], a [float], a [bool]
    (a subclass of [int] in Python), or anything else. *)
Inductive jval : Type :=
| JInt (z : Z)
| JFloat (x : pyfloat)
| JBool (b : bool)
| JOther.

Definition score_keys : list string :=
  ["taste"; "appearance"; "creativity"; "crowd_appeal";
   "recipe_ties_story"; "story_brings_to_life"; "passion"].

(** [isinstance(v, (int, float)) and 1 <= v <= 5], then [float(v)] *)
Definition as_score (v : jval) : option pyfloat :=
  match v with
  | JInt z => if ((1 <=? z) && (z <=? 5))%Z then Some (of_Z z) else None
  | JFloat x => if leb (Fin 1) x && leb x (Fin 5) then Some x else None
  | JBool b => if b then Some (of_Z 1) else None
  | JOther => None
  end.

(** The pattern for the first brace-delimited block: an opening brace,
    lazily any characters, a closing brace. *)
Definition json_block_re : regex :=
  seq [char "{"; LazyStar any_char; char "}"].

(** The strict key-value pattern of the second tier, case-insensitive:
    optional quote, word boundary, key, word boundary, optional quote,
    spaces, a colon or equals sign, spaces, optional quote, group 1 = a
    digit 1-5 optionally followed by a point and digits, optional quote. *)
Definition strict_re (key : string) : regex :=
  seq [Opt quote; WordB; lit_ci key; WordB; Opt quote;
       Star space; one_of ":="; Star space; Opt quote;
       Group (Cat (one_of "12345") (Opt (Cat (char ".") (plus digit))));
       Opt quote].

(** The loose pattern of the third tier, case-insensitive: key, lazily any
    characters but a newline, word boundary, group 1 = a digit 1-5, word
    boundary. *)
Definition loose_re (key : string) : regex :=
  seq [lit_ci key; LazyStar dot; WordB; Group (one_of "12345"); WordB].

(** One regex tier: for each key in order, search the whole text; a match
    for a key not yet in [scores] stores [float(match.group(1))].  Group 1
    takes part in every match of both patterns. *)
Definition regex_tier (pat : string -> regex) (response_text : string)
  (scores : dict pyfloat) : dict pyfloat :=
  fold_left
    (fun sc key =>
       match search (pat key) response_text with
       | Some m =>
           if dict_mem key sc then sc
           else match group1 m with
                | Some g =>
                    match float g with
                    | Some v => dict_set key v sc
                    | None => sc
                    end
                | None => sc
                end
       | None => sc
       end)
    score_keys scores.

Definition weights : dict pyfloat :=
  [("taste", Fin 0.175); ("appearance", Fin 0.175);
   ("creativity", Fin 0.175); ("crowd_appeal", Fin 0.175);
   ("recipe_ties_story", Fin 0.12); ("story_brings_to_life", Fin 0.12);
   ("passion", Fin 0.06)].

(** [scores_per_test[key]], that is [float(scores.get(key, 0))] *)
Definition scores_per_test (scores : dict pyfloat) (key : string) : pyfloat :=
  match dict_get key scores with Some v => v | None => Fin 0 end.

(** [round(sum(scores_per_test[key] * weights[key] for key in weights), 2)]
    on exact reals; [Evaluator64.weighted] is the binary64 computation. *)
Definition weighted (scores : dict pyfloat) : pyfloat :=
  round2 (PyFloat.sum
    (map (fun kw => mul (scores_per_test scores (fst kw)) (snd kw)) weights)).

Section ExtractScores.

(** [json.loads] of the standard library, restricted to what the caller
    looks at: [None] is a [JSONDecodeError], otherwise the parsed object
    as a dict from its keys to their values.  The exceptions of
    [json.loads] that the caller does not catch are in [Evaluator64]. *)
Variable json_loads : string -> option (dict jval).

(** The first tier: the first brace-delimited block, parsed as JSON. *)
Definition json_tier (response_text : string) : dict pyfloat :=
  match search json_block_re response_text with
  | Some json_match =>
      let json_text := strip (str (group0 json_match)) in
      match json_loads json_text with
      | Some response_json =>
          fold_left
            (fun sc key =>
               match dict_get key response_json with
               | Some v =>
                   match as_score v with
                   | Some x => dict_set key x sc
                   | None => sc
                   end
               | None => sc
               end)
            score_keys []
      | None => []
      end
  | None => []
  end.

Definition all_scores (response_text : string) : dict pyfloat :=
  let scores := json_tier response_text in
  let scores :=
    if Nat.ltb (dict_len scores) 7 then regex_tier strict_re response_text scores
    else scores in
  let scores :=
    if Nat.ltb (dict_len scores) 7 then regex_tier loose_re response_text scores
    else scores in
  scores.

Definition extract_scores_from_response (response_text recipe : string)
  (island_id : Z) : Response.t :=
  let scores := all_scores response_text in
  Response.Make
    (Some (Response.ScoresList (map (fun key => dict_get key scores) score_keys)))
    (Some (Some (weighted scores)))
    (Some island_id).

End ExtractScores.

(** The pattern of one recipe field: the quoted field name, spaces, a colon
    or equals sign, spaces, group 1 = a bracketed run without a closing
    bracket, or a quoted run without a quote.  Case-sensitive. *)
Definition field_re (field : string) : regex :=
  seq [quote; lit field; quote; Star space; one_of ":="; Star space;
       Group (Alt (seq [char "["; Star (none_of "]"); char "]"])
                  (seq [quote; Star (Chr (fun x => negb (Ascii.eqb x dquote))); quote]))].

Definition field_value (field response_text : string) : option string :=
  match search (field_re field) response_text with
  | Some m =>
      match group1 m with
      | Some g => Some (strip (str g))
      | None => None
      end
  | None => None
  end.

Definition bracketed (value : string) : bool :=
  startswith "[" value && endswith "]" value.

Definition clean (x : string) : option string :=
  Some (strip_char dquote (strip x)).

Definition ingredients_of (value : string) : pyval :=
  if bracketed value
  then VList (map clean (split "," (slice_1_m1 value)))
  else VList (map clean (split "," value)).

(** The separator of the second branch is the two characters backslash, n. *)
Definition instructions_of (value : string) : pyval :=
  if bracketed value
  then VList (map clean (split "," (slice_1_m1 value)))
  else VList (map (fun line => Some (strip line))
                  (filter (fun line => nonempty (strip line)) (split "\n" value))).

Definition extract_recipe_details (response_text : string) : Recipe.t :=
  Recipe.Make
    (option_map VStr (field_value "recipe_idea" response_text))
    (option_map VStr (field_value "essay" response_text))
    (option_map VStr (field_value "recipe_name" response_text))
    (option_map ingredients_of (field_value "ingredients" response_text))
    (option_map instructions_of (field_value "instructions" response_text)).

End Evaluator.

(** ** Exceptions *)

Module Exn.

(** [ClientError] stands for any exception of the HTTP client. *)
Inductive exn : Type :=
| ValueError | IndexError | TypeError | ClientError | KeyError | RecursionError.

(** The result of a call that may raise. *)
Inductive result (A : Type) : Type :=
| Ok (a : A)
| Raise (e : exn).

Arguments Ok {A} a.
Arguments Raise {A} e.

Definition bind {A B : Type} (m : result A) (f : A -> result B) : result B :=
  match m with
  | Ok a => f a
  | Raise e => Raise e
  end.

Definition raises {A : Type} (m : result A) : bool :=
  match m with Ok _ => false | Raise _ => true end.

End Exn.

Notation "x <- m ;; f" := (Exn.bind m (fun x => f))
  (at level 61, m at next level, right associativity).

(** ** RecipeEvaluator.extract_scores_from_response on binary64 scores

    [Evaluator.extract_scores_from_response] above computes with exact
    reals and takes [json.loads] to either return or raise
    [JSONDecodeError].  The module below is the same function with the
    scores as binary64 numbers and with the exceptions of [json.loads]
    that [except json.JSONDecodeError] does not catch: a [ValueError] on
    an integer literal of more than 4300 digits and a [RecursionError] on
    very deep nesting.  It returns the dict of the source as a record. *)

Module Evaluator64.

Import PyStr Re Py Exn.
Local Open Scope string_scope.

(** What [json.loads] may bind to a key: an [int], a [float], a [bool]
    (a subclass of [int] in Python), or anything else. *)
Inductive jval : Type :=
| JInt (z : Z)
| JFloat (x : Binary64.t)
| JBool (b : bool)
| JOther.

(** What [json.loads] does on the block: it returns the parsed object as
    a dict from its keys to their values, raises [json.JSONDecodeError],
    which the caller catches, or raises something else, which the caller
    does not catch (a [ValueError] for an integer literal with too many
    digits, a [RecursionError] for a deeply nested value). *)
Inductive loaded : Type :=
| Parsed (response_json : dict jval)
| JSONDecodeError
| Escapes (e : exn).

(** [isinstance(v, (int, float)) and 1 <= v <= 5], then [float(v)] *)
Definition as_score (v : jval) : option Binary64.t :=
  match v with
  | JInt z => if ((1 <=? z) && (z <=? 5))%Z then Some (Binary64.of_Z z) else None
  | JFloat x =>
      if Binary64.leb (Binary64.of_Z 1) x && Binary64.leb x (Binary64.of_Z 5)
      then Some x else None
  | JBool b => if b then Some (Binary64.of_Z 1) else None
  | JOther => None
  end.

(** [float(s)] on an unsigned decimal literal, the only strings the
    patterns capture: the binary64 number nearest to the decimal. *)
Definition float (l : list ascii) : option Binary64.t :=
  match decimal_of l with
  | Some (n, k) => Some (Binary64.of_decimal n k)
  | None => None
  end.

(** One regex tier, as [Evaluator.regex_tier]. *)
Definition regex_tier (pat : string -> regex) (response_text : string)
  (scores : dict Binary64.t) : dict Binary64.t :=
  fold_left
    (fun sc key =>
       match search (pat key) response_text with
       | Some m =>
           if dict_mem key sc then sc
           else match group1 m with
                | Some g =>
                    match float g with
                    | Some v => dict_set key v sc
                    | None => sc
                    end
                | None => sc
                end
       | None => sc
       end)
    Evaluator.score_keys scores.

(** The weights: the floats the literals [0.175], [0.12] and [0.06] denote. *)
Definition weights : dict Binary64.t :=
  [("taste", Binary64.of_decimal 175 3); ("appearance", Binary64.of_decimal 175 3);
   ("creativity", Binary64.of_decimal 175 3);
   ("crowd_appeal", Binary64.of_decimal 175 3);
   ("recipe_ties_story", Binary64.of_decimal 12 2);
   ("story_brings_to_life", Binary64.of_decimal 12 2);
   ("passion", Binary64.of_decimal 6 2)].

(** [scores_per_test[key]], that is [float(scores.get(key, 0))] *)
Definition scores_per_test (scores : dict Binary64.t) (key : string) : Binary64.t :=
  match dict_get key scores with Some v => v | None => Binary64.of_Z 0 end.

(** [sum(scores_per_test[key] * weights[key] for key in weights)]: the
    products are added one after the other, starting from [0], each
    product and each partial sum rounded to a float. *)
Definition weighted_sum (scores : dict Binary64.t) : Binary64.t :=
  fold_left Binary64.add
    (map (fun kw => Binary64.mul (scores_per_test scores (fst kw)) (snd kw)) weights)
    (Binary64.of_Z 0).

Definition weighted (scores : dict Binary64.t) : Binary64.t :=
  Binary64.round2 (weighted_sum scores).

(** The dict the function returns. *)
Record evaluation : Type := Evaluation {
  scores : list (option Binary64.t);
  weighted_score : Binary64.t;
  island_id : Z
}.

Section ExtractScores.

Variable json_loads : string -> loaded.

(** The first tier: the first brace-delimited block, parsed as JSON. *)
Definition json_tier (response_text : string) : result (dict Binary64.t) :=
  match search Evaluator.json_block_re response_text with
  | Some json_match =>
      let json_text := strip (str (group0 json_match)) in
      match json_loads json_text with
      | Parsed response_json =>
          Ok (fold_left
                (fun sc key =>
                   match dict_get key response_json with
                   | Some v =>
                       match as_score v with
                       | Some x => dict_set key x sc
                       | None => sc
                       end
                   | None => sc
                   end)
                Evaluator.score_keys [])
      | JSONDecodeError => Ok []
      | Escapes e => Raise e
      end
  | None => Ok []
  end.

Definition all_scores (response_text : string) : result (dict Binary64.t) :=
  scores <- json_tier response_text ;;
  let scores :=
    if Nat.ltb (dict_len scores) 7
    then regex_tier Evaluator.strict_re response_text scores
    else scores in
  let scores :=
    if Nat.ltb (dict_len scores) 7
    then regex_tier Evaluator.loose_re response_text scores
    else scores in
  Ok scores.

Definition extract_scores_from_response (response_text recipe : string)
  (island_id : Z) : result evaluation :=
  scores <- all_scores response_text ;;
  Ok (Evaluation (map (fun key => dict_get key scores) Evaluator.score_keys)
                 (weighted scores) island_id).

End ExtractScores.

End Evaluator64.

(** ** helper.py: softmax, and the numpy reductions it and its callers use *)

Module Helper.

Import PyFloat Exn.

(** One step of the reduction [np.max]: [nan] once met stays. *)
Definition max2 (m x : pyfloat) : pyfloat :=
  if isnan m then m else if isnan x then x else if ltb m x then x else m.

(** [np.max]: a [ValueError] on an empty array. *)
Definition np_max (xs : list pyfloat) : result pyfloat :=
  match xs with
  | [] => Raise ValueError
  | x :: tl => Ok (fold_left max2 tl x)
  end.

(** [arr.sum()]: zero on an empty array. *)
Definition np_sum (xs : list pyfloat) : pyfloat := fold_left add xs (Fin 0).

(** The scan of [np.argmax] on floats: [mp] is the running maximum found at
    index [max_ind], [i] the index of the head of [l].  An element that is
    not [<= mp] becomes the maximum; a [nan] ends the scan. *)
Fixpoint argmax_from (mp : pyfloat) (max_ind i : nat) (l : list pyfloat) : nat :=
  match l with
  | [] => max_ind
  | x :: tl =>
      if leb x mp then argmax_from mp max_ind (S i) tl
      else if isnan x then i
      else argmax_from x i (S i) tl
  end.

(** [np.argmax]: the first index of a [nan] if there is one, otherwise the
    first index of the maximum; a [ValueError] on an empty array. *)
Definition np_argmax (xs : list pyfloat) : result nat :=
  match xs with
  | [] => Raise ValueError
  | x :: tl => if isnan x then Ok 0 else Ok (argmax_from x 0 1 tl)
  end.

Definition softmax (scores : list pyfloat) : result (list pyfloat) :=
  m <- np_max scores ;;
  let exp_scores := map (fun s => exp (sub s m)) scores in
  let total := np_sum exp_scores in
  Ok (map (fun e => div e total) exp_scores).

End Helper.

(** ** A row of [Island._programs]: the dict [formatted_data] *)

Module Row.
Record t : Type := Make {
  island_id : Z;
  recipe_idea : Py.pyval;
  essay : Py.pyval;
  recipe_name : string;
  ingredients : list string;
  instructions : string;
  taste : PyFloat.pyfloat;
  appearance : PyFloat.pyfloat;
  creativity : PyFloat.pyfloat;
  crowd_appeal : PyFloat.pyfloat;
  recipe_ties_story : PyFloat.pyfloat;
  story_brings_to_life : PyFloat.pyfloat;
  passion : PyFloat.pyfloat;
  weighted_score : PyFloat.pyfloat;
  formatted_recipe : string
}.
End Row.

(** ** cluster.py: Cluster

    The deprecated [register_program], which nothing calls, is left out
    here and modelled in [ClusterClass] below; the [_lengths] list, which
    nothing reads, is left out. *)

(** A member of a cluster: the dict with the keys [program] and [score]. *)
Module Entry.
Record t : Type := Make {
  program : Row.t;
  score : PyFloat.pyfloat
}.
End Entry.

Module Cluster.

Import PyFloat Exn Helper.

Record t : Type := Make {
  _score : pyfloat;
  _programs : list Entry.t
}.

(** [Cluster(score, program)] *)
Definition init (score : pyfloat) (program : Row.t) : t :=
  Make score [Entry.Make program score].

(** The property [score] *)
Definition score (self : t) : pyfloat := _score self.

Definition add_program (self : t) (program : Row.t) (score : pyfloat) : t :=
  Make (_score self) (_programs self ++ [Entry.Make program score]).

(** Indexing the list with an index out of range is an [IndexError]. *)
Definition get_best_program (self : t) : result Entry.t :=
  let scores := map Entry.score (_programs self) in
  softmax_scores <- softmax scores ;;
  best_program_index <- np_argmax softmax_scores ;;
  match nth_error (_programs self) best_program_index with
  | Some p => Ok p
  | None => Raise IndexError
  end.

End Cluster.

(** ** cluster.py: the whole class

    [Cluster] above has the members [Island] creates, which all carry a
    score.  The class also has [register_program], marked deprecated and
    called by nothing in the repository, which appends the program dict
    itself as a member; a program is a row of [Island._programs], and a
    row has no key [score].  The module below is the class with that
    method.  The list [_lengths], which nothing reads, is left out. *)

Module ClusterClass.

Import PyFloat Exn Helper.

(** An element of [self._programs]: the dict with the keys [program] and
    [score], or a program as [register_program] appends it. *)
Inductive member : Type :=
| Scored (e : Entry.t)
| Bare (program : Row.t).

Record t : Type := Make {
  _score : pyfloat;
  _programs : list member
}.

(** [Cluster(score, program)] *)
Definition init (score : pyfloat) (program : Row.t) : t :=
  Make score [Scored (Entry.Make program score)].

(** The property [score] *)
Definition score (self : t) : pyfloat := _score self.

Definition add_program (self : t) (program : Row.t) (score : pyfloat) : t :=
  Make (_score self) (_programs self ++ [Scored (Entry.Make program score)]).

Definition register_program (self : t) (program : Row.t) : t :=
  Make (_score self) (_programs self ++ [Bare program]).

(** [p['score']]: a [KeyError] on a member without that key. *)
Definition score_of (p : member) : result pyfloat :=
  match p with
  | Scored e => Ok (Entry.score e)
  | Bare _ => Raise KeyError
  end.

(** [[p['score'] for p in self._programs]] *)
Fixpoint scores_of (programs : list member) : result (list pyfloat) :=
  match programs with
  | [] => Ok []
  | p :: tl =>
      s <- score_of p ;;
      ss <- scores_of tl ;;
      Ok (s :: ss)
  end.

Definition get_best_program (self : t) : result member :=
  scores <- scores_of (_programs self) ;;
  softmax_scores <- softmax scores ;;
  best_program_index <- np_argmax softmax_scores ;;
  match nth_error (_programs self) best_program_index with
  | Some p => Ok p
  | None => Raise IndexError
  end.

End ClusterClass.

(** ** island.py: Island

    The class attribute [Island._programs] is passed to and returned from
    every method that reads or writes it.  The fields [template],
    [_functions_per_prompt] and [_deepinfra_api_key] only feed the network
    request and are left out. *)

Module Island.

Import PyFloat PyStr Py Exn Helper.
Local Open Scope string_scope.

Record t : Type := Make {
  island_id : Z;
  _best_program : option Row.t;
  _best_score : pyfloat;
  _clusters : list Cluster.t
}.

(** [Island(island_id, ...)]: no best program, best score [-inf]. *)
Definition init (island_id : Z) : t := Make island_id None NInf [].

(** The elements of a list that are [str]. *)
Definition strs (l : list (option string)) : list string :=
  flat_map (fun i => match i with Some s => [s] | None => [] end) l.

Definition normalize_instructions (raw_instructions : option pyval) : string :=
  match raw_instructions with
  | Some (VList l) => join " " (map (strip_char dquote) (strs l))
  | Some (VStr s) => strip s
  | _ => ""
  end.

Definition normalize_ingredients (raw_ingredients : option pyval) : list string :=
  match raw_ingredients with
  | Some (VList l) =>
      map (strip_char dquote) (filter (fun i => nonempty (strip i)) (strs l))
  | Some (VStr s) =>
      map strip (filter (fun i => nonempty (strip i)) (split "," s))
  | _ => []
  end.

(** [isinstance(recipe.get(name), str) and recipe[name].strip()], with the
    stripped name when it holds. *)
Definition stripped_name (recipe : Recipe.t) : option string :=
  match Recipe.recipe_name recipe with
  | Some (VStr s) => if nonempty (strip s) then Some (strip s) else None
  | _ => None
  end.

Definition missing_fields (recipe : Recipe.t) (instructions : string)
  (ingredients : list string) : list string :=
  ((match stripped_name recipe with Some _ => [] | None => ["recipe_name"] end)
   ++ (if nonempty instructions then [] else ["instructions"])
   ++ (match ingredients with [] => ["ingredients"] | _ :: _ => [] end))%list.

(** [s is None or math.isnan(s)] *)
Definition none_or_nan (s : option pyfloat) : bool :=
  match s with None => true | Some x => isnan x end.

(** The seven scores when the guard of step 3 lets them through:
    [response.get('scores', [None] * 7)] is a list of length 7 with no
    [None] and no [nan]. *)
Definition checked_scores (response : Response.t) : option (list pyfloat) :=
  match Response.scores response with
  | None => None
  | Some Response.ScoresOther => None
  | Some (Response.ScoresList scores) =>
      if negb (List.length scores =? 7)%nat then None
      else if existsb none_or_nan scores then None
      else Some (flat_map (fun s => match s with Some x => [x] | None => [] end) scores)
  end.

(** The weighted score when the guard lets it through: the key is present,
    its value is not [None] and is not [nan]. *)
Definition checked_weighted (response : Response.t) : option pyfloat :=
  match Response.weighted_score response with
  | Some (Some w) => if isnan w then None else Some w
  | _ => None
  end.

Definition or_default (d : pyval) (v : option pyval) : pyval :=
  match v with Some x => x | None => d end.

Definition _update_best_program (self : t) (program_data : Row.t) : t :=
  if gtb (Row.weighted_score program_data) (_best_score self)
  then Make (island_id self) (Some program_data)
            (Row.weighted_score program_data) (_clusters self)
  else self.

(** The row [formatted_data] built from the extracted recipe, when every
    check passes; [None] stands for either early [return]. *)
Definition format_recipe (recipe : Recipe.t) (island_id : Z)
  (response : Response.t) : option Row.t :=
  let instructions := normalize_instructions (Recipe.instructions recipe) in
  let ingredients := normalize_ingredients (Recipe.ingredients recipe) in
  match missing_fields recipe instructions ingredients with
  | _ :: _ => None
  | [] =>
      match checked_scores response, checked_weighted response, stripped_name recipe with
      | Some [taste; appearance; creativity; crowd_appeal;
              recipe_ties_story; story_brings_to_life; passion],
        Some weighted_score, Some name =>
          Some (Row.Make
                  (match Response.island_id response with
                   | Some i => i
                   | None => island_id
                   end)
                  (or_default (VStr "") (Recipe.recipe_idea recipe))
                  (or_default (VStr "") (Recipe.essay recipe))
                  name ingredients instructions
                  taste appearance creativity crowd_appeal
                  recipe_ties_story story_brings_to_life passion
                  weighted_score "")
      | _, _, _ => None
      end
  end.

(** The call from the point where the recipe details are known: nothing
    is awaited from here to the end.  Returns the island and
    [Island._programs] after the call. *)
Definition register_extracted (self : t) (recipe : Recipe.t) (island_id : Z)
  (response : Response.t) (programs : list Row.t) : t * list Row.t :=
  match format_recipe recipe island_id response with
  | None => (self, programs)
  | Some row => (_update_best_program self row, (programs ++ [row])%list)
  end.

Section WithEvaluator.

(** [self.evaluator.extract_recipe_details]: a coroutine that awaits
    nothing. *)
Variable extract_recipe_details : string -> Recipe.t.

Definition formatted_data (program : string) (island_id : Z)
  (response : Response.t) : option Row.t :=
  format_recipe (extract_recipe_details program) island_id response.

Definition register_and_evaluate_program (self : t) (program : string)
  (island_id : Z) (response : Response.t) (programs : list Row.t)
  : t * list Row.t :=
  register_extracted self (extract_recipe_details program)
                     island_id response programs.

End WithEvaluator.

(** The rows of [Island._programs] whose [island_id] is this island's. *)
Definition island_programs (self : t) (programs : list Row.t) : list Row.t :=
  filter (fun r => Z.eqb (Row.island_id r) (island_id self)) programs.

(** A row with its [softmax_score] column. *)
Definition ranked_row : Type := (Row.t * pyfloat)%type.

(** [x] sorts after [y] in descending order, [nan] last. *)
Definition sorts_after (x y : pyfloat) : bool :=
  (isnan x && negb (isnan y)) || ltb x y.

Fixpoint insert_desc (x : ranked_row) (l : list ranked_row) : list ranked_row :=
  match l with
  | [] => [x]
  | y :: tl =>
      if sorts_after (snd x) (snd y) then y :: insert_desc x tl else x :: l
  end.

(** [sort_values(by=softmax_score, ascending=False)]: descending, [nan]
    last; rows with equal keys keep their order. *)
Definition sort_values_desc (l : list ranked_row) : list ranked_row :=
  fold_right insert_desc [] l.

(** Returns the ranked frame (empty for an island without rows) and
    [Island._programs] after the call. *)
Definition rank_programs (self : t) (programs : list Row.t)
  : result (list ranked_row) * list Row.t :=
  let rows := island_programs self programs in
  match rows with
  | [] => (Ok [], programs)
  | _ :: _ =>
      let scores := map Row.weighted_score rows in
      (softmax_score <- softmax scores ;;
       Ok (sort_values_desc (combine rows softmax_score)),
       programs)
  end.

(** The inner loop of [cluster_programs]: the first cluster whose
    representative is within the threshold takes the program. *)
Fixpoint add_to_first (clusters : list Cluster.t) (program : Row.t)
  (score : pyfloat) : option (list Cluster.t) :=
  match clusters with
  | [] => None
  | cluster :: tl =>
      if ltb (abs (sub (Cluster.score cluster) score)) (Fin 0.5)
      then Some (Cluster.add_program cluster program score :: tl)
      else option_map (cons cluster) (add_to_first tl program score)
  end.

(** The body of the outer loop, for one row. *)
Definition cluster_row (clusters : list Cluster.t) (row : Row.t) : list Cluster.t :=
  let score := Row.weighted_score row in
  match add_to_first clusters row score with
  | Some clusters' => clusters'
  | None => (clusters ++ [Cluster.init score row])%list
  end.

Definition cluster_programs (self : t) (programs : list Row.t) : t :=
  Make (island_id self) (_best_program self) (_best_score self)
       (fold_left cluster_row (island_programs self programs) (_clusters self)).

Definition max_total_attempts : nat := 100.

Section Initialize.

Variable extract_recipe_details : string -> Recipe.t.

(** The replies of the network: [generate_recipe attempt] is the text the
    generator call of that attempt returns (empty on any failure), and
    [evaluate attempt] the response the evaluator call of that attempt
    returns. *)
Variable generate_recipe : nat -> string.
Variable evaluate : nat -> Response.t.

(** The [while True] loop, entered with [attempt] attempts made so far.
    [cap] stands for [max_total_attempts]; [fuel] bounds the iterations of
    the model, and [None] means the bound was reached.  The result is the
    number of attempts, the island and [Island._programs]. *)
Fixpoint initialize_loop (cap : nat) (allow_infinite_retries : bool)
  (fuel attempt : nat) (self : t) (programs : list Row.t)
  : option (nat * t * list Row.t) :=
  match fuel with
  | O => None
  | S fuel' =>
      let attempt := S attempt in
      let program := generate_recipe attempt in
      if negb (nonempty program) then
        if negb allow_infinite_retries && (cap <=? attempt)%nat
        then Some (attempt, self, programs)
        else initialize_loop cap allow_infinite_retries fuel' attempt self programs
      else
        let response := evaluate attempt in
        let previous_program_count := List.length programs in
        let '(self', programs') :=
          register_and_evaluate_program extract_recipe_details
            self program (island_id self) response programs in
        if (previous_program_count <? List.length programs')%nat
        then Some (attempt, self', programs')
        else if negb allow_infinite_retries && (cap <=? attempt)%nat
        then Some (attempt, self', programs')
        else initialize_loop cap allow_infinite_retries fuel' attempt self' programs'
  end.

Definition initialize_programs (allow_infinite_retries : bool) (fuel : nat)
  (self : t) (programs : list Row.t) : option (nat * t * list Row.t) :=
  initialize_loop max_total_attempts allow_infinite_retries fuel 0 self programs.

End Initialize.

End Island.

(** ** Clustering on binary64 scores

    [Island.cluster_programs] compares floats, and whether two scores
    fall within the threshold depends on how the subtraction rounds.  The
    modules below are [Row], [Entry], [Cluster] and the clustering part of
    [Island] again, with every score a binary64 number. *)

Module Row64.
Record t : Type := Make {
  island_id : Z;
  recipe_idea : Py.pyval;
  essay : Py.pyval;
  recipe_name : string;
  ingredients : list string;
  instructions : string;
  taste : Binary64.t;
  appearance : Binary64.t;
  creativity : Binary64.t;
  crowd_appeal : Binary64.t;
  recipe_ties_story : Binary64.t;
  story_brings_to_life : Binary64.t;
  passion : Binary64.t;
  weighted_score : Binary64.t;
  formatted_recipe : string
}.
End Row64.

Module Entry64.
Record t : Type := Make {
  program : Row64.t;
  score : Binary64.t
}.
End Entry64.

Module Cluster64.

Record t : Type := Make {
  _score : Binary64.t;
  _programs : list Entry64.t
}.

(** [Cluster(score, program)] *)
Definition init (score : Binary64.t) (program : Row64.t) : t :=
  Make score [Entry64.Make program score].

(** The property [score] *)
Definition score (self : t) : Binary64.t := _score self.

Definition add_program (self : t) (program : Row64.t) (score : Binary64.t) : t :=
  Make (_score self) (_programs self ++ [Entry64.Make program score]).

End Cluster64.

Module Island64.

Record t : Type := Make {
  island_id : Z;
  _clusters : list Cluster64.t
}.

(** [Island._programs[Island._programs["island_id"] == self.island_id]] *)
Definition island_programs (self : t) (programs : list Row64.t) : list Row64.t :=
  filter (fun row => Z.eqb (Row64.island_id row) (island_id self)) programs.

(** The inner loop of [cluster_programs]: the first cluster with
    [abs(cluster.score - score) < 0.5] takes the program. *)
Fixpoint add_to_first (clusters : list Cluster64.t) (program : Row64.t)
  (score : Binary64.t) : option (list Cluster64.t) :=
  match clusters with
  | [] => None
  | cluster :: tl =>
      if Binary64.ltb (Binary64.abs (Binary64.sub (Cluster64.score cluster) score))
                      (Binary64.of_decimal 5 1)
      then Some (Cluster64.add_program cluster program score :: tl)
      else option_map (cons cluster) (add_to_first tl program score)
  end.

(** The body of the outer loop, for one row. *)
Definition cluster_row (clusters : list Cluster64.t) (row : Row64.t)
  : list Cluster64.t :=
  let score := Row64.weighted_score row in
  match add_to_first clusters row score with
  | Some clusters' => clusters'
  | None => (clusters ++ [Cluster64.init score row])%list
  end.

Definition cluster_programs (self : t) (programs : list Row64.t) : t :=
  Make (island_id self)
       (fold_left cluster_row (island_programs self programs) (_clusters self)).

End Island64.

(** ** Concurrent registrations

    [asyncio] runs coroutines on one thread and switches between them only
    at an [await].  A call of [register_and_evaluate_program] has a single
    [await], that of [extract_recipe_details]; the code after it runs to
    the end of the call without interruption.  A call is therefore a task
    of two atomic segments, and a schedule picks which task runs its next
    segment. *)

Module Registration.

Import Island.

Inductive task : Type :=
| Created (island : nat) (program : string) (island_id : Z) (response : Response.t)
| Awaited (island : nat) (recipe : Recipe.t) (island_id : Z) (response : Response.t)
| Returned.

(** The shared store, the islands by position, and the scheduled calls. *)
Record system : Type := System {
  programs : list Row.t;
  islands : nat -> Island.t;
  tasks : list task
}.

Fixpoint set_nth {A : Type} (i : nat) (x : A) (l : list A) : list A :=
  match l, i with
  | [], _ => []
  | _ :: tl, O => x :: tl
  | y :: tl, S j => y :: set_nth j x tl
  end.

Definition set_island (i : nat) (x : Island.t) (f : nat -> Island.t)
  : nat -> Island.t :=
  fun j => if Nat.eqb j i then x else f j.

Section Schedule.

Variable extract_recipe_details : string -> Recipe.t.

(** Task [i] runs its next segment; a finished or missing task does nothing. *)
Definition step (sys : system) (i : nat) : system :=
  match nth_error (tasks sys) i with
  | Some (Created island program island_id response) =>
      System (programs sys) (islands sys)
             (set_nth i (Awaited island (extract_recipe_details program)
                                 island_id response) (tasks sys))
  | Some (Awaited island recipe island_id response) =>
      let '(self, programs') :=
        register_extracted (islands sys island) recipe island_id response
                           (programs sys) in
      System programs' (set_island island self (islands sys))
             (set_nth i Returned (tasks sys))
  | Some Returned | None => sys
  end.

Definition run (schedule : list nat) (sys : system) : system :=
  fold_left step schedule sys.

Definition returned (t : task) : bool :=
  match t with Returned => true | _ => false end.

Definition all_returned (sys : system) : bool := forallb returned (tasks sys).

(** The call passes validation, taken on its own. *)
Definition passes (t : task) : bool :=
  match t with
  | Created _ program island_id response =>
      match format_recipe (extract_recipe_details program) island_id response with
      | Some _ => true
      | None => false
      end
  | Awaited _ recipe island_id response =>
      match format_recipe recipe island_id response with
      | Some _ => true
      | None => false
      end
  | Returned => false
  end.

Definition count_passing (ts : list task) : nat :=
  List.length (filter passes ts).

End Schedule.

End Registration.

(** ** programs_database.py: ProgramsDatabase.initialize_islands

    [asyncio.gather] is modelled by running the gathered coroutines to
    completion one after the other, in the order of its arguments: one of
    the interleavings the event loop allows.  Interleaved registrations
    are the subject of [Registration]. *)

Module ProgramsDatabase.

Import Island.

Section InitializeIslands.

Variable extract_recipe_details : string -> Recipe.t.

(** The replies of the network to island [i] on each attempt. *)
Variable generate_recipe : Z -> nat -> string.
Variable evaluate : Z -> nat -> Response.t.

(** The gathered [initialize_programs] calls, with the default
    [allow_infinite_retries=True]; [None] when [fuel] runs out. *)
Fixpoint initialize_each (fuel : nat) (ids : list Z) (programs : list Row.t)
  : option (list Island.t * list Row.t) :=
  match ids with
  | [] => Some ([], programs)
  | i :: tl =>
      match initialize_programs extract_recipe_details (generate_recipe i)
              (evaluate i) true fuel (Island.init i) programs with
      | None => None
      | Some (_, island, programs') =>
          match initialize_each fuel tl programs' with
          | None => None
          | Some (islands, programs'') => Some (island :: islands, programs'')
          end
      end
  end.

(** Returns [self._islands] and [Island._programs]. *)
Definition initialize_islands (num_islands fuel : nat) (programs : list Row.t)
  : option (list Island.t * list Row.t) :=
  match initialize_each fuel (map Z.of_nat (seq 0 num_islands)) programs with
  | None => None
  | Some (islands, programs') =>
      Some (map (fun island => cluster_programs island programs') islands,
            programs')
  end.

End InitializeIslands.

End ProgramsDatabase.

(** ** funsearch.py *)

Module FunSearch.

Import PyFloat Py Exn Island.

(** One dict of [get_formatted_recipes_for_island]. *)
Record formatted : Type := Formatted {
  recipe_idea : pyval;
  essay : pyval;
  recipe_name : string;
  ingredients : list string;
  instructions : string;
  softmax_score : pyfloat
}.

Definition get_formatted_recipes_for_island (island : Island.t)
  (programs : list Row.t) : result (list formatted) :=
  ranked_programs <- fst (rank_programs island programs) ;;
  Ok (map (fun recipe : ranked_row =>
             Formatted (Row.recipe_idea (fst recipe)) (Row.essay (fst recipe))
                       (Row.recipe_name (fst recipe)) (Row.ingredients (fst recipe))
                       (Row.instructions (fst recipe)) (snd recipe))
          ranked_programs).

Fixpoint insert_formatted (x : formatted) (l : list formatted) : list formatted :=
  match l with
  | [] => [x]
  | y :: tl =>
      if sorts_after (softmax_score x) (softmax_score y)
      then y :: insert_formatted x tl else x :: l
  end.

(** [sorted(island_recipes, key=softmax_score, reverse=True)]: stable and
    descending; where Python puts a [nan] key is not modelled, it goes last. *)
Definition sorted_desc (l : list formatted) : list formatted :=
  fold_right insert_formatted [] l.

Section Driver.

Variable extract_recipe_details : string -> Recipe.t.

(** The replies of the network.  For the seed phase, to island [i] on each
    attempt.  For batch [b], island [i] and pipeline [k]: what
    [evolve_function] returns for the given parents (a text, the empty
    dict as [None], or an exception of the HTTP client, which it does not
    catch) and what [evaluate_recipe_with_llm] returns. *)
Variable generate_recipe : Z -> nat -> string.
Variable evaluate_seed : Z -> nat -> Response.t.
Variable evolve_function : nat -> Z -> nat -> list formatted -> result (option string).
Variable evaluate_evolved : nat -> Z -> nat -> Response.t.

(** The gathered [evolve_and_score] pipelines. *)
Fixpoint evolve_and_score_all (batch : nat) (island_id : Z)
  (top_candidates : list formatted) (ks : list nat)
  : result (list (option string * Response.t)) :=
  match ks with
  | [] => Ok []
  | k :: tl =>
      evolved_recipe <- evolve_function batch island_id k top_candidates ;;
      rest <- evolve_and_score_all batch island_id top_candidates tl ;;
      Ok ((evolved_recipe, evaluate_evolved batch island_id k) :: rest)
  end.

(** The gathered registrations.  An evolved recipe that is the empty dict
    makes [re.search] raise a [TypeError] inside [extract_recipe_details]. *)
Fixpoint register_all (island : Island.t)
  (scored_recipes : list (option string * Response.t)) (programs : list Row.t)
  : result (Island.t * list Row.t) :=
  match scored_recipes with
  | [] => Ok (island, programs)
  | (None, _) :: _ => Raise TypeError
  | (Some recipe, score) :: tl =>
      let '(island', programs') :=
        register_and_evaluate_program extract_recipe_details island recipe
          (Island.island_id island) score programs in
      register_all island' tl programs'
  end.

Definition generate_recipes_for_island_batch (batch recipes_per_batch : nat)
  (island : Island.t) (programs : list Row.t) : result (Island.t * list Row.t) :=
  island_recipes <- get_formatted_recipes_for_island island programs ;;
  let top_candidates := firstn 2 (sorted_desc island_recipes) in
  scored_recipes <- evolve_and_score_all batch (Island.island_id island)
                      top_candidates (seq 0 recipes_per_batch) ;;
  register_all island scored_recipes programs.

(** One batch: the gathered island steps. *)
Fixpoint batch_over_islands (batch recipes_per_batch : nat)
  (islands : list Island.t) (programs : list Row.t)
  : result (list Island.t * list Row.t) :=
  match islands with
  | [] => Ok ([], programs)
  | island :: tl =>
      r <- generate_recipes_for_island_batch batch recipes_per_batch island programs ;;
      r' <- batch_over_islands batch recipes_per_batch tl (snd r) ;;
      Ok (fst r :: fst r', snd r')
  end.

Fixpoint run_batches (recipes_per_batch : nat) (batches : list nat)
  (islands : list Island.t) (programs : list Row.t)
  : result (list Island.t * list Row.t) :=
  match batches with
  | [] => Ok (islands, programs)
  | batch :: tl =>
      r <- batch_over_islands batch recipes_per_batch islands programs ;;
      run_batches recipes_per_batch tl (fst r) (snd r)
  end.

(** [_programs] is [Island._programs] when the call starts.  The result is
    [None] when [fuel] runs out in the seed phase, an exception, or the
    DataFrame returned. *)
Definition fun_search_optimization (num_batches recipes_per_batch num_islands : nat)
  (fuel : nat) (_programs : list Row.t) : option (result (list Row.t)) :=
  let _programs : list Row.t := [] in
  match ProgramsDatabase.initialize_islands extract_recipe_details
          generate_recipe evaluate_seed num_islands fuel _programs with
  | None => None
  | Some (islands, _programs) =>
      Some (r <- run_batches recipes_per_batch (seq 0 num_batches) islands _programs ;;
            Ok (snd r))
  end.

End Driver.

End FunSearch.

(** ** island.py: the queries of Island *)

Module IslandQueries.

Import PyFloat Py Exn Helper Island.

(** [Series.mean()] of pandas: [nan] entries are skipped, and the mean of
    nothing is [nan]. *)
Definition series_mean (xs : list pyfloat) : pyfloat :=
  match filter (fun x => negb (isnan x)) xs with
  | [] => NaN
  | kept => div (np_sum kept) (of_Z (Z.of_nat (List.length kept)))
  end.

(** Reads [Island._programs]; an island without rows scores [0]. *)
Definition calculate_island_score (self : Island.t) (programs : list Row.t)
  : pyfloat :=
  match island_programs self programs with
  | [] => of_Z 0
  | rows => series_mean (map Row.weighted_score rows)
  end.

(** The loop of [get_best_program_from_clusters], entered with the best
    program and score found so far. *)
Fixpoint best_over (clusters : list Cluster.t) (best_program : option Entry.t)
  (best_score : pyfloat) : result (option Entry.t) :=
  match clusters with
  | [] => Ok best_program
  | cluster :: tl =>
      cluster_best_program <- Cluster.get_best_program cluster ;;
      let cluster_best_score := Entry.score cluster_best_program in
      if gtb cluster_best_score best_score
      then best_over tl (Some cluster_best_program) cluster_best_score
      else best_over tl best_program best_score
  end.

Definition get_best_program_from_clusters (self : Island.t)
  : result (option Entry.t) :=
  best_over (_clusters self) None NInf.

(** The getter [get_best_program] *)
Definition get_best_program (self : Island.t) : option Row.t :=
  _best_program self.

End IslandQueries.

(** ** programs_database.py: ProgramsDatabase.rank_islands, get_best_programs *)

Module ProgramsDatabaseQueries.

Import PyFloat Py Exn Helper Island IslandQueries.

(** [best_program['score'] if best_program else 0] *)
Definition score_or_zero (best_program : option Entry.t) : pyfloat :=
  match best_program with
  | Some p => Entry.score p
  | None => of_Z 0
  end.

(** The list comprehension over [self._islands]; the first exception ends it. *)
Fixpoint get_best_programs (islands : list Island.t)
  : result (list (option Entry.t)) :=
  match islands with
  | [] => Ok []
  | island :: tl =>
      best <- get_best_program_from_clusters island ;;
      rest <- get_best_programs tl ;;
      Ok (best :: rest)
  end.

Fixpoint insert_island (x : Island.t * pyfloat) (l : list (Island.t * pyfloat))
  : list (Island.t * pyfloat) :=
  match l with
  | [] => [x]
  | y :: tl => if ltb (snd x) (snd y) then y :: insert_island x tl else x :: l
  end.

(** [sorted(..., key=lambda x: x[1], reverse=True)]: stable and descending.
    The order Python gives to [nan] keys is not modelled. *)
Definition sorted_islands (l : list (Island.t * pyfloat))
  : list (Island.t * pyfloat) :=
  fold_right insert_island [] l.

Definition rank_islands (islands : list Island.t)
  : result (list (Island.t * pyfloat)) :=
  bests <- get_best_programs islands ;;
  let island_scores := map score_or_zero bests in
  softmax_island_scores <- softmax island_scores ;;
  Ok (sorted_islands (combine islands softmax_island_scores)).

End ProgramsDatabaseQueries.

(** ** main.py: the selection of the best recipe of a run *)

Module Main.

Import PyFloat Exn Island.

(** [results.sort_values(by='weighted_score', ascending=False)]:
    descending, [nan] last. *)
Fixpoint insert_by_score (x : Row.t) (l : list Row.t) : list Row.t :=
  match l with
  | [] => [x]
  | y :: tl =>
      if sorts_after (Row.weighted_score x) (Row.weighted_score y)
      then y :: insert_by_score x tl else x :: l
  end.

Definition sort_by_weighted_score (results : list Row.t) : list Row.t :=
  fold_right insert_by_score [] results.

(** [results.sort_values(...).iloc[0]]: the first row of the sorted frame;
    [iloc[0]] on a frame without rows raises [IndexError]. *)
Definition best_recipe (results : list Row.t) : result Row.t :=
  match sort_by_weighted_score results with
  | [] => Raise IndexError
  | row :: _ => Ok row
  end.

End Main.

(** ** The properties, stated on the definitions above *)

Module RegisterSpec.

Import PyFloat PyStr Py Island.

(** The three required textual fields, as the island normalizes them. *)
Definition fields_present (recipe : Recipe.t) : Prop :=
  (exists s, Recipe.recipe_name recipe = Some (VStr s) /\ strip s <> EmptyString)
  /\ normalize_instructions (Recipe.instructions recipe) <> EmptyString
  /\ normalize_ingredients (Recipe.ingredients recipe) <> [].

(** The response carries a list of exactly seven scores, all present and
    none of them [nan]. *)
Definition seven_scores (response : Response.t) (l : list pyfloat) : Prop :=
  Response.scores response = Some (Response.ScoresList (map Some l))
  /\ List.length l = 7
  /\ Forall (fun x => isnan x = false) l.

(** The weighted score the guard of the code accepts: a number that is
    not [nan]. *)
Definition weighted_not_nan (response : Response.t) (w : pyfloat) : Prop :=
  Response.weighted_score response = Some (Some w) /\ isnan w = false.

(** The weighted score the specification asks for: a finite number. *)
Definition weighted_finite (response : Response.t) (w : pyfloat) : Prop :=
  Response.weighted_score response = Some (Some w) /\ isfinite w = true.

(** Validity as the code checks it. *)
Definition registrable (recipe : Recipe.t) (response : Response.t) : Prop :=
  fields_present recipe
  /\ (exists l, seven_scores response l)
  /\ (exists w, weighted_not_nan response w).

(** Validity as the specification words it. *)
Definition registrable_finite (recipe : Recipe.t) (response : Response.t) : Prop :=
  fields_present recipe
  /\ (exists l, seven_scores response l)
  /\ (exists w, weighted_finite response w).

End RegisterSpec.

Module ScoreSpec64.

Import Evaluator64.
Local Open Scope Q_scope.

(** The number a JSON value denotes, as [isinstance(v, (int, float))]
    sees it: an [int], a finite [float], or a [bool] counted as 0 or 1. *)
Definition json_number (j : jval) (q : Q) : Prop :=
  match j with
  | JInt z => q = inject_Z z
  | JFloat (Binary64.Fin x) => q = x
  | JBool b => q = if b then 1 else 0
  | _ => False
  end.

(** The weighted sum of seven scores in exact arithmetic, with the
    weights as the source writes them. *)
Definition exact_weighted_sum (v : string -> Q) : Q :=
  (175 # 1000) * v "taste"%string + (175 # 1000) * v "appearance"%string
  + (175 # 1000) * v "creativity"%string + (175 # 1000) * v "crowd_appeal"%string
  + (12 # 100) * v "recipe_ties_story"%string
  + (12 # 100) * v "story_brings_to_life"%string
  + (6 # 100) * v "passion"%string.

(** The same sum as the floats compute it: each product rounded, then
    added to the sum so far, which is rounded again, starting from [0]. *)
Definition float_weighted_sum (v : string -> Q) : Binary64.t :=
  let term key weight := Binary64.mul (Binary64.Fin (v key)) weight in
  Binary64.add (Binary64.add (Binary64.add (Binary64.add (Binary64.add
  (Binary64.add (Binary64.add (Binary64.of_Z 0)
    (term "taste"%string (Binary64.of_decimal 175 3)))
    (term "appearance"%string (Binary64.of_decimal 175 3)))
    (term "creativity"%string (Binary64.of_decimal 175 3)))
    (term "crowd_appeal"%string (Binary64.of_decimal 175 3)))
    (term "recipe_ties_story"%string (Binary64.of_decimal 12 2)))
    (term "story_brings_to_life"%string (Binary64.of_decimal 12 2)))
    (term "passion"%string (Binary64.of_decimal 6 2)).

(** How far the float sum can be from the exact one. *)
Definition tolerance : Q := 1 # (10 ^ 14).

(** A score the evaluator may store: a finite number from 1 to 6. *)
Definition score_range (x : Binary64.t) : Prop :=
  exists q, x = Binary64.Fin q /\ 1 <= q <= 6.

Definition scores_in_range (d : Py.dict Binary64.t) : Prop :=
  forall k v, Py.dict_get k d = Some v -> score_range v.

(** A captured text that [float] reads as such a score. *)
Definition captures_score (g : list ascii) : Prop :=
  exists x, float g = Some x /\ score_range x.

(** The three weights as floats: the binary64 numbers nearest to 0.175,
    0.12 and 0.06. *)
Definition w175 : Q := 3152519739159347 # 18014398509481984.
Definition w12 : Q := 1080863910568919 # 9007199254740992.
Definition w06 : Q := 1080863910568919 # 18014398509481984.

(** The value a key contributes to the weighted sum: its score, or 0
    when it has none. *)
Definition value_of (d : Py.dict Binary64.t) (key : string) : Q :=
  match Py.dict_get key d with Some (Binary64.Fin q) => q | _ => 0 end.

End ScoreSpec64.

Module ClusterSpec.

Import PyFloat Island.

(** The membership test of [cluster_programs]:
    [abs(cluster.score - score) < 0.5]. *)
Definition admits (cluster : Cluster.t) (score : pyfloat) : bool :=
  ltb (abs (sub (Cluster.score cluster) score)) (Fin 0.5).

(** The representative is the score of the first member. *)
Definition seeded (cluster : Cluster.t) : Prop :=
  match Cluster._programs cluster with
  | first :: _ => Entry.score first = Cluster.score cluster
  | [] => False
  end.

End ClusterSpec.

Module ClusterSpec64.

Import Island64.

(** The membership test of [cluster_programs]:
    [abs(cluster.score - score) < 0.5]. *)
Definition admits (cluster : Cluster64.t) (score : Binary64.t) : bool :=
  Binary64.ltb (Binary64.abs (Binary64.sub (Cluster64.score cluster) score))
               (Binary64.of_decimal 5 1).

(** The representative is the score of the first member. *)
Definition seeded (cluster : Cluster64.t) : Prop :=
  match Cluster64._programs cluster with
  | first :: _ => Entry64.score first = Cluster64.score cluster
  | [] => False
  end.

(** What one more row of the island does to its clusters: the first
    cluster that admits the row's score takes it, and when none does a
    new cluster seeded with that score is appended. *)
Definition takes_row (before : list Cluster64.t) (row : Row64.t)
  (after : list Cluster64.t) : Prop :=
  let score := Row64.weighted_score row in
  (exists pre c post,
      before = pre ++ c :: post
      /\ Forall (fun c0 => admits c0 score = false) pre
      /\ admits c score = true
      /\ after = pre ++ Cluster64.add_program c row score :: post)
  \/ (Forall (fun c0 => admits c0 score = false) before
      /\ after = before ++ [Cluster64.init score row]).

End ClusterSpec64.

Module ClusterClassSpec.

Import PyFloat ClusterClass.

(** Clusters as the class builds them: created with one program, then
    extended by either method. *)
Inductive built : ClusterClass.t -> Prop :=
| built_init (score : pyfloat) (program : Row.t) :
    built (ClusterClass.init score program)
| built_add (c : ClusterClass.t) (program : Row.t) (score : pyfloat) :
    built c -> built (ClusterClass.add_program c program score)
| built_register (c : ClusterClass.t) (program : Row.t) :
    built c -> built (ClusterClass.register_program c program).

Definition has_score (p : member) : bool :=
  match p with Scored _ => true | Bare _ => false end.

Definition has_nan_score (p : member) : bool :=
  match p with Scored e => isnan (Entry.score e) | Bare _ => false end.

End ClusterClassSpec.

Module RegistrationSpec.

Import Island Registration.

Section Schedule.

Variable extract_recipe_details : string -> Recipe.t.

Definition to_list {A : Type} (o : option A) : list A :=
  match o with Some x => [x] | None => [] end.

(** The row a call will append, if it has not returned yet. *)
Definition row_of (t : task) : list Row.t :=
  match t with
  | Created _ program island_id response =>
      to_list (format_recipe (extract_recipe_details program) island_id response)
  | Awaited _ recipe island_id response =>
      to_list (format_recipe recipe island_id response)
  | Returned => []
  end.

Definition pending_rows (ts : list task) : list Row.t := flat_map row_of ts.

(** What has been appended since [sys0], together with what is still to
    be appended, is what was to be appended at [sys0]. *)
Definition accounted (sys0 sys : system) : Prop :=
  exists new,
    programs sys = programs sys0 ++ new
    /\ Permutation (new ++ pending_rows (tasks sys)) (pending_rows (tasks sys0)).

End Schedule.

End RegistrationSpec.

Module DriverSpec.

Import Island.

Section Driver.

Variable extract_recipe_details : string -> Recipe.t.

(** A row that some call of [register_and_evaluate_program] builds. *)
Definition produced (row : Row.t) : Prop :=
  exists program island_id response,
    formatted_data extract_recipe_details program island_id response = Some row.

(** [programs'] is [programs] followed by rows that registrations built. *)
Definition extends (programs programs' : list Row.t) : Prop :=
  exists new, programs' = programs ++ new /\ Forall produced new.

End Driver.

End DriverSpec.

(** ** The registrations of one run

    What "the artifacts registered during the call" are, said without the
    driver: the calls of [register_and_evaluate_program] a run of
    [fun_search_optimization] makes, each with the text, the island id
    and the evaluator response it is given, and the rows these calls
    append. *)

Module RunSpec.

Import PyFloat PyStr Py Exn Island FunSearch.

(** One call [register_and_evaluate_program(program, island_id, response)]. *)
Record call : Type := Call {
  program : string;
  island_id : Z;
  response : Response.t
}.

Section Run.

Variable extract_recipe_details : string -> Recipe.t.
Variable generate_recipe : Z -> nat -> string.
Variable evaluate_seed : Z -> nat -> Response.t.
Variable evolve_function : nat -> Z -> nat -> list formatted -> result (option string).
Variable evaluate_evolved : nat -> Z -> nat -> Response.t.

(** The row a call appends to [Island._programs], if it appends one. *)
Definition artifact (c : call) : list Row.t :=
  match formatted_data extract_recipe_details (program c) (island_id c) (response c) with
  | Some row => [row]
  | None => []
  end.

Definition artifacts (calls : list call) : list Row.t := flat_map artifact calls.

(** The registration of a seed attempt of island [i]: none when the
    generator returned nothing. *)
Definition seed_call (i : Z) (attempt : nat) : list call :=
  if nonempty (generate_recipe i attempt)
  then [Call (generate_recipe i attempt) i (evaluate_seed i attempt)]
  else [].

(** The registrations of the attempts 1 to [attempts]. *)
Definition seed_calls (i : Z) (attempts : nat) : list call :=
  flat_map (seed_call i) (seq 1 attempts).

(** Island [i] is seeded at attempt [attempts]: the first attempt whose
    registration appends a row. *)
Definition stops_at (i : Z) (attempts : nat) : Prop :=
  exists earlier,
    attempts = S earlier
    /\ artifacts (seed_calls i earlier) = []
    /\ artifacts (seed_call i attempts) <> [].

(** The registrations of the seed phase, island after island. *)
Fixpoint all_seed_calls (ids : list Z) (attempts : list nat) : list call :=
  match ids, attempts with
  | i :: ids', n :: attempts' => seed_calls i n ++ all_seed_calls ids' attempts'
  | _, _ => []
  end.

(** The parents shown to the generator: the two best ranked rows of
    island [i] in the store. *)
Definition top_candidates (i : Z) (store : list Row.t) : result (list formatted) :=
  island_recipes <- get_formatted_recipes_for_island (Island.init i) store ;;
  Ok (firstn 2 (sorted_desc island_recipes)).

(** The registrations of island [i] in one batch, given the store when
    the island's step starts: one for each of the [recipes_per_batch]
    evolved recipes, in order. *)
Definition island_batch_calls (batch recipes_per_batch : nat) (i : Z)
  (store : list Row.t) (calls : list call) : Prop :=
  exists top,
    top_candidates i store = Ok top
    /\ Forall2 (fun k c =>
                  exists recipe,
                    evolve_function batch i k top = Ok (Some recipe)
                    /\ c = Call recipe i (evaluate_evolved batch i k))
               (seq 0 recipes_per_batch) calls.

(** The registrations of one batch: island after island, each on the
    store the ones before it left. *)
Inductive batch_calls (batch recipes_per_batch : nat)
  : list Z -> list Row.t -> list call -> Prop :=
| batch_calls_done (store : list Row.t) :
    batch_calls batch recipes_per_batch [] store []
| batch_calls_island (i : Z) (ids : list Z) (store : list Row.t)
    (calls later : list call) :
    island_batch_calls batch recipes_per_batch i store calls ->
    batch_calls batch recipes_per_batch ids (store ++ artifacts calls) later ->
    batch_calls batch recipes_per_batch (i :: ids) store (calls ++ later).

(** The registrations of the batches, one after the other. *)
Inductive batches_calls (recipes_per_batch : nat) (ids : list Z)
  : list nat -> list Row.t -> list call -> Prop :=
| batches_calls_done (store : list Row.t) :
    batches_calls recipes_per_batch ids [] store []
| batches_calls_batch (batch : nat) (batches : list nat) (store : list Row.t)
    (calls later : list call) :
    batch_calls batch recipes_per_batch ids store calls ->
    batches_calls recipes_per_batch ids batches (store ++ artifacts calls) later ->
    batches_calls recipes_per_batch ids (batch :: batches) store (calls ++ later).

End Run.

End RunSpec.

Module SequenceSpec.

Import PyFloat Island.

(** One call of [register_and_evaluate_program]: its three arguments. *)
Record call : Type := Call {
  call_program : string;
  call_island_id : Z;
  call_response : Response.t
}.

Section Calls.

Variable extract_recipe_details : string -> Recipe.t.

(** Calls made one after the other on the same island object. *)
Definition register_calls (self : Island.t) (calls : list call)
  (programs : list Row.t) : Island.t * list Row.t :=
  fold_left
    (fun st c =>
       register_and_evaluate_program extract_recipe_details (fst st)
         (call_program c) (call_island_id c) (call_response c) (snd st))
    calls (self, programs).

End Calls.

(** The island's best is in step with the rows [seen]: its score bounds
    each of them, and its program, once there is one, is one of them and
    has that score. *)
Definition best_tracks (self : Island.t) (seen : list Row.t) : Prop :=
  isnan (_best_score self) = false
  /\ Forall (fun r => leb (Row.weighted_score r) (_best_score self) = true) seen
  /\ ((_best_program self = None /\ _best_score self = NInf)
      \/ exists r, _best_program self = Some r /\ In r seen
                   /\ Row.weighted_score r = _best_score self).

End SequenceSpec.

Module ClusterMoreSpec.

Import PyFloat Island ClusterSpec.

(** The members of all the clusters, cluster by cluster. *)
Definition members (clusters : list Cluster.t) : list Entry.t :=
  flat_map Cluster._programs clusters.

(** The member a row becomes when it is put in a cluster. *)
Definition entry_of (row : Row.t) : Entry.t :=
  Entry.Make row (Row.weighted_score row).

(** Every member passes the membership test of its cluster. *)
Definition tight (cluster : Cluster.t) : Prop :=
  Forall (fun e => admits cluster (Entry.score e) = true)
         (Cluster._programs cluster).

(** No representative passes the membership test of an earlier one. *)
Definition apart (representatives : list pyfloat) : Prop :=
  ForallOrdPairs (fun r1 r2 => ltb (abs (sub r1 r2)) (Fin 0.5) = false)
                 representatives.

(** A cluster with at least one member and only finite scores. *)
Definition sound (cluster : Cluster.t) : Prop :=
  Cluster._programs cluster <> []
  /\ Forall (fun e => isfinite (Entry.score e) = true) (Cluster._programs cluster).

End ClusterMoreSpec.

Module RankingSpec.

Import PyFloat Island.

(** A ranked row whose softmax value is [g] of its finite weighted score. *)
Definition tagged (g : R -> R) (p : ranked_row) : Prop :=
  exists w, Row.weighted_score (fst p) = Fin w /\ snd p = Fin (g w).

(** [a] may stand before [b] in a descending ranking. *)
Definition above (a b : ranked_row) : Prop :=
  leb (snd b) (snd a) = true.

End RankingSpec.

Module RegexSpec.

Import PyStr Re.

(** [derives r st st']: the pattern [r] can take the match from state
    [st] to state [st'], whatever the priorities of the engine. *)
Inductive derives : regex -> mstate -> mstate -> Prop :=
| d_eps (st : mstate) : derives Eps st st
| d_chr (p : ascii -> bool) (st : mstate) (c : ascii) (tl : list ascii) :
    rest st = c :: tl -> p c = true ->
    derives (Chr p) st (MState (Some c) tl (cap st))
| d_cat (r1 r2 : regex) (st st1 st2 : mstate) :
    derives r1 st st1 -> derives r2 st1 st2 -> derives (Cat r1 r2) st st2
| d_alt_l (r1 r2 : regex) (st st' : mstate) :
    derives r1 st st' -> derives (Alt r1 r2) st st'
| d_alt_r (r1 r2 : regex) (st st' : mstate) :
    derives r2 st st' -> derives (Alt r1 r2) st st'
| d_opt_some (r : regex) (st st' : mstate) :
    derives r st st' -> derives (Opt r) st st'
| d_opt_none (r : regex) (st : mstate) : derives (Opt r) st st
| d_star_stop (r : regex) (st : mstate) : derives (Star r) st st
| d_star_more (r : regex) (st st1 st2 : mstate) :
    derives r st st1 -> derives (Star r) st1 st2 -> derives (Star r) st st2
| d_lazy_stop (r : regex) (st : mstate) : derives (LazyStar r) st st
| d_lazy_more (r : regex) (st st1 st2 : mstate) :
    derives r st st1 -> derives (LazyStar r) st1 st2 -> derives (LazyStar r) st st2
| d_wordb (st : mstate) : at_boundary st = true -> derives WordB st st
| d_group (r : regex) (st st1 : mstate) :
    derives r st st1 ->
    derives (Group r) st
            (MState (prev st1) (rest st1) (Some (consumed (rest st) (rest st1)))).

(** Every group of the pattern captures only texts that satisfy [Q]. *)
Fixpoint groups_satisfy (Q : list ascii -> Prop) (r : regex) : Prop :=
  match r with
  | Eps | Chr _ | WordB => True
  | Cat a b | Alt a b => groups_satisfy Q a /\ groups_satisfy Q b
  | Opt a | Star a | LazyStar a => groups_satisfy Q a
  | Group a =>
      forall st st', derives a st st' -> Q (consumed (rest st) (rest st'))
  end.

End RegexSpec.

Module ExtractSpec.

Import PyFloat PyStr Py.

(** A score the evaluator may store: a finite number from 1 up to, but
    not including, 6. *)
Definition score_range (x : pyfloat) : Prop :=
  exists r, x = Fin r /\ (1 <= r < 6)%R.

(** A captured text that [float] reads as such a score. *)
Definition captures_score (g : list ascii) : Prop :=
  exists x, float g = Some x /\ score_range x.

Definition scores_in_range (d : dict pyfloat) : Prop :=
  forall k v, dict_get k d = Some v -> score_range v.

End ExtractSpec.

Module FieldSpec.

Import PyStr.

(** A text between square brackets with no closing bracket inside, or
    between double quotes with no double quote inside. *)
Definition delimited (g : list ascii) : Prop :=
  exists body,
    (g = "["%char :: body ++ ["]"%char]
     /\ forallb (fun x => negb (Ascii.eqb x "]"%char)) body = true)
    \/ (g = dquote :: body ++ [dquote]
        /\ forallb (fun x => negb (Ascii.eqb x dquote)) body = true).

End FieldSpec.

Module ParentsSpec.

Import FunSearch Island.

(** The dict [get_formatted_recipes_for_island] builds from a ranked row. *)
Definition formatted_of (recipe : ranked_row) : formatted :=
  Formatted (Row.recipe_idea (fst recipe)) (Row.essay (fst recipe))
            (Row.recipe_name (fst recipe)) (Row.ingredients (fst recipe))
            (Row.instructions (fst recipe)) (snd recipe).

End ParentsSpec.

(** ** Sample data used by the examples *)

Module Samples.

Import PyFloat PyStr Py.
Local Open Scope string_scope.

(** A text between double quotes. *)
Definition quoted (s : string) : string :=
  String dquote (s ++ String dquote EmptyString).

(** A generated recipe with a name, two ingredients and two steps. *)
Definition pie_program : string :=
  "{" ++ quoted "recipe_name" ++ ": " ++ quoted "Apple Pie" ++ ", "
  ++ quoted "ingredients" ++ ": [" ++ quoted "apples" ++ ", " ++ quoted "flour" ++ "], "
  ++ quoted "instructions" ++ ": [" ++ quoted "Slice" ++ ", " ++ quoted "Bake" ++ "]}".

(** The same recipe with an empty list of ingredients. *)
Definition no_ingredients_program : string :=
  "{" ++ quoted "recipe_name" ++ ": " ++ quoted "Apple Pie" ++ ", "
  ++ quoted "ingredients" ++ ": [], "
  ++ quoted "instructions" ++ ": [" ++ quoted "Slice" ++ ", " ++ quoted "Bake" ++ "]}".

Definition fours : list (option pyfloat) :=
  [Some (Fin 4); Some (Fin 4); Some (Fin 4); Some (Fin 4);
   Some (Fin 4); Some (Fin 4); Some (Fin 4)].

(** A response with seven scores of 4 and the given weighted score. *)
Definition response_with (w : pyfloat) : Response.t :=
  Response.Make (Some (Response.ScoresList fours)) (Some (Some w)) (Some 0%Z).

(** A row of island [i] with weighted score [w]. *)
Definition row_with (i : Z) (w : pyfloat) : Row.t :=
  Row.Make i (VStr "") (VStr "") "Apple Pie" ["apples"; "flour"] "Slice Bake"
           (Fin 4) (Fin 4) (Fin 4) (Fin 4) (Fin 4) (Fin 4) (Fin 4) w "".

(** A cluster whose members score 2.0, 5.0 and 3.0, in that order. *)
Definition cluster_2_5_3 : Cluster.t :=
  Cluster.add_program
    (Cluster.add_program (Cluster.init (Fin 2) (row_with 0 (Fin 2)))
                         (row_with 0 (Fin 5)) (Fin 5))
    (row_with 0 (Fin 3)) (Fin 3).

(** A cluster whose members score 1.0, nan and 3.0, in that order. *)
Definition cluster_1_nan_3 : Cluster.t :=
  Cluster.add_program
    (Cluster.add_program (Cluster.init (Fin 1) (row_with 0 (Fin 1)))
                         (row_with 0 NaN) NaN)
    (row_with 0 (Fin 3)) (Fin 3).

(** The row registered for [pie_program] with [response_with w]; the
    evaluator keeps the quotes around the recipe name. *)
Definition pie_row (w : pyfloat) : Row.t :=
  Row.Make 0 (VStr "") (VStr "") (quoted "Apple Pie") ["apples"; "flour"]
           "Slice Bake"
           (Fin 4) (Fin 4) (Fin 4) (Fin 4) (Fin 4) (Fin 4) (Fin 4) w "".

(** A generator that returns empty text until its 100th call. *)
Definition late_generator (attempt : nat) : string :=
  if Nat.eqb attempt 100 then pie_program else "".

(** An evaluator that always returns seven 4s and a weighted score of 4. *)
Definition steady_evaluator (attempt : nat) : Response.t :=
  response_with (Fin 4).

(** Three scheduled registrations on two islands: a valid one, one with
    no ingredients, and another valid one. *)
Definition three_calls : list Registration.task :=
  [Registration.Created 0 pie_program 0 (response_with (Fin 4));
   Registration.Created 1 no_ingredients_program 1 (response_with (Fin 4));
   Registration.Created 1 pie_program 1 (response_with (Fin 3))].

Definition three_calls_system : Registration.system :=
  Registration.System [] (fun i => Island.init (Z.of_nat i)) three_calls.

(** A network for the driver: every generation returns [pie_program],
    every seed evaluation a weighted score of 4, every evolution
    [pie_program] again and every later evaluation a weighted score of 4.5. *)
Definition always_pie (i : Z) (attempt : nat) : string := pie_program.
Definition always_four (i : Z) (attempt : nat) : Response.t := response_with (Fin 4).
Definition evolve_pie (batch : nat) (i : Z) (k : nat)
  (parents : list FunSearch.formatted) : Exn.result (option string) :=
  Exn.Ok (Some pie_program).
Definition always_four_and_half (batch : nat) (i : Z) (k : nat) : Response.t :=
  response_with (Fin 4.5).

End Samples.

(** ** More sample data *)

Module MoreSamples.

Import PyFloat PyStr Py.
Local Open Scope string_scope.

(** A generator whose first reply is empty, whose second is text without
    any recipe field, and whose later replies are [Samples.pie_program]. *)
Definition third_time_generator (attempt : nat) : string :=
  match attempt with
  | 1 => ""
  | 2 => "no recipe here"
  | _ => Samples.pie_program
  end.

(** An evolution step that fails the way [evolve_function] reports it:
    it returns the empty dict. *)
Definition evolve_nothing (batch : nat) (i : Z) (k : nat)
  (parents : list FunSearch.formatted) : Exn.result (option string) :=
  Exn.Ok None.

(** A store with rows of two islands, and island 0 after clustering it. *)
Definition mixed_store : list Row.t :=
  [Samples.row_with 0 (Fin 3); Samples.row_with 1 (Fin 2);
   Samples.row_with 0 (Fin 3.2); Samples.row_with 0 (Fin 4)].

Definition clustered_island : Island.t :=
  Island.cluster_programs (Island.init 0) mixed_store.

(** A reply that names a taste of 2 in its prose and a taste of 4 in its
    brace block, and a [json.loads] that reads the block. *)
Definition inline_then_json_text : string :=
  "Taste: 2 {" ++ Samples.quoted "taste" ++ ": 4}".

Definition taste_four_loader (json_text : string)
  : option (dict Evaluator.jval) :=
  Some [("taste", Evaluator.JInt 4)].

(** [Samples.pie_program] with nothing between the quotes of its name. *)
Definition unnamed_program : string :=
  "{" ++ Samples.quoted "recipe_name" ++ ": " ++ Samples.quoted "" ++ ", "
  ++ Samples.quoted "ingredients" ++ ": [" ++ Samples.quoted "apples" ++ "], "
  ++ Samples.quoted "instructions" ++ ": [" ++ Samples.quoted "Bake" ++ "]}".

End MoreSamples.

(** ** Sample data on binary64 scores, for the whole cluster class and
    for runs of the driver *)

Module Samples64.

Import Py.
Local Open Scope string_scope.

(** An evaluator reply whose JSON object gives 2 for crowd appeal and 1
    for every other key. *)
Definition tie_block : string :=
  "{" ++ Samples.quoted "taste" ++ ": 1, " ++ Samples.quoted "appearance" ++ ": 1, "
  ++ Samples.quoted "creativity" ++ ": 1, " ++ Samples.quoted "crowd_appeal" ++ ": 2, "
  ++ Samples.quoted "recipe_ties_story" ++ ": 1, "
  ++ Samples.quoted "story_brings_to_life" ++ ": 1, "
  ++ Samples.quoted "passion" ++ ": 1}".

Definition tie_text : string := "Scores: " ++ tie_block ++ " done".

Definition tie_json : dict Evaluator64.jval :=
  [("taste", Evaluator64.JInt 1); ("appearance", Evaluator64.JInt 1);
   ("creativity", Evaluator64.JInt 1); ("crowd_appeal", Evaluator64.JInt 2);
   ("recipe_ties_story", Evaluator64.JInt 1);
   ("story_brings_to_life", Evaluator64.JInt 1); ("passion", Evaluator64.JInt 1)].

(** What [json.loads] does on [tie_block]; every other text is taken not
    to parse. *)
Definition tie_loads (s : string) : Evaluator64.loaded :=
  if String.eqb s tie_block then Evaluator64.Parsed tie_json
  else Evaluator64.JSONDecodeError.

Definition tie_value (key : string) : Q :=
  if String.eqb key "crowd_appeal" then 2%Q else 1%Q.

(** A [json.loads] that fails on a nesting too deep for it. *)
Definition deep_loads (s : string) : Evaluator64.loaded :=
  Evaluator64.Escapes Exn.RecursionError.

End Samples64.

(** The same computations on the machine's own binary64 numbers, to
    compare with. *)
Module HardwareFloats.

Import PrimFloat.
Local Open Scope float_scope.
#[local] Set Warnings "-inexact-float".

(** [sum(score * weight ...)] for the scores of [Samples64.tie_json]. *)
Definition tie_sum : float :=
  0 + 1 * 0.175 + 1 * 0.175 + 1 * 0.175 + 2 * 0.175
  + 1 * 0.12 + 1 * 0.12 + 1 * 0.06.

Definition below_1_175 : float := 1.1749999999999998.
Definition f_1_17 : float := 1.17.
Definition f_6 : float := 6.

(** [abs(1.8 - 2.3) < 0.5] *)
Definition close_1_8_2_3 : bool := ltb (abs (1.8 - 2.3)) 0.5.
Definition diff_1_8_2_3 : float := abs (1.8 - 2.3).

End HardwareFloats.

Module ClusterSamples64.

Import Py.
Local Open Scope string_scope.

(** A row of island [i] with the weighted score [n / 10^k]. *)
Definition row_scoring (i : Z) (n : Z) (k : nat) : Row64.t :=
  let four := Binary64.of_Z 4 in
  Row64.Make i (VStr "") (VStr "") "Apple Pie" ["apples"; "flour"] "Slice Bake"
             four four four four four four four (Binary64.of_decimal n k) "".

(** The scores of an evaluation that gives [x] on every dimension. *)
Definition all_at (x : Binary64.t) : dict Binary64.t :=
  map (fun key => (key, x)) Evaluator.score_keys.

(** Rows scoring 1.8 and 2.3, then 3.0 and 3.5, all on island 0. *)
Definition store_1_8_2_3 : list Row64.t := [row_scoring 0 18 1; row_scoring 0 23 1].
Definition store_3_0_3_5 : list Row64.t := [row_scoring 0 30 1; row_scoring 0 35 1].

End ClusterSamples64.

Module ClusterClassSamples.

Import PyFloat ClusterClass.

(** Members scoring 1.0, nan and 3.0, in that order. *)
Definition scored_1_nan_3 : ClusterClass.t :=
  add_program
    (add_program (init (Fin 1) (Samples.row_with 0 (Fin 1)))
                 (Samples.row_with 0 NaN) NaN)
    (Samples.row_with 0 (Fin 3)) (Fin 3).

(** A cluster created with a program scoring 4.0, to which a second
    program was added with [register_program]. *)
Definition registered : ClusterClass.t :=
  register_program (init (Fin 4) (Samples.row_with 0 (Fin 4)))
                   (Samples.row_with 0 (Fin 4)).

End ClusterClassSamples.

Module RunSamples.

Import PyFloat PyStr Py.
Local Open Scope string_scope.

(** A generator that returns nothing on the first attempt, a recipe
    without ingredients on the second and [Samples.pie_program] from the
    third on. *)
Definition third_time_pie (i : Z) (attempt : nat) : string :=
  if Nat.eqb attempt 1 then ""
  else if Nat.eqb attempt 2 then Samples.no_ingredients_program
  else Samples.pie_program.

(** The row registered for [Samples.pie_program] on island [i] with
    weighted score [w]. *)
Definition pie_row_of (i : Z) (w : pyfloat) : Row.t :=
  Row.Make i (VStr "") (VStr "") (Samples.quoted "Apple Pie") ["apples"; "flour"]
           "Slice Bake"
           (Fin 4) (Fin 4) (Fin 4) (Fin 4) (Fin 4) (Fin 4) (Fin 4) w "".

(** An evaluator response for island [i]: seven scores of 4 and the
    weighted score [w]. *)
Definition response_on (i : Z) (w : pyfloat) : Response.t :=
  Response.Make (Some (Response.ScoresList Samples.fours)) (Some (Some w)) (Some i).

Definition four_on (i : Z) (attempt : nat) : Response.t := response_on i (Fin 4).

Definition four_and_half_on (batch : nat) (i : Z) (k : nat) : Response.t :=
  response_on i (Fin 4.5).

(** The DataFrame of a run with two islands and one batch of two recipes
    on that network. *)
Definition two_island_frame : list Row.t :=
  [pie_row_of 0 (Fin 4); pie_row_of 1 (Fin 4);
   pie_row_of 0 (Fin 4.5); pie_row_of 0 (Fin 4.5);
   pie_row_of 1 (Fin 4.5); pie_row_of 1 (Fin 4.5)].

End RunSamples.

(* ================================================================== *)
(** * Part II: properties                                              *)
(* ================================================================== *)

(** ** Facts about floats *)

Module PyFloatFacts.

Import PyFloat.

Lemma Rltb_true (a b : R) : Rltb a b = true <-> (a < b)%R.
Proof. unfold Rltb. destruct (Rlt_dec a b); split; intros; try easy. Qed.

Lemma Rltb_false (a b : R) : Rltb a b = false <-> (b <= a)%R.
Proof.
  unfold Rltb. destruct (Rlt_dec a b); split; intros; try easy; lra.
Qed.

Lemma Rleb_true (a b : R) : Rleb a b = true <-> (a <= b)%R.
Proof. unfold Rleb. destruct (Rle_dec a b); split; intros; try easy. Qed.

Lemma Rleb_false (a b : R) : Rleb a b = false <-> (b < a)%R.
Proof.
  unfold Rleb. destruct (Rle_dec a b); split; intros; try easy; lra.
Qed.

Lemma Reqb_true (a b : R) : Reqb a b = true <-> a = b.
Proof. unfold Reqb. destruct (Req_dec_T a b); split; intros; try easy. Qed.

Lemma Reqb_false (a b : R) : Reqb a b = false <-> a <> b.
Proof. unfold Reqb. destruct (Req_dec_T a b); split; intros; try easy. Qed.

Lemma isfinite_Fin (x : pyfloat) : isfinite x = true <-> exists r, x = Fin r.
Proof.
  destruct x; simpl; split; intros H; try discriminate; eauto;
    destruct H as [r H]; discriminate.
Qed.

Lemma isfinite_not_nan (x : pyfloat) : isfinite x = true -> isnan x = false.
Proof. destruct x; simpl; congruence. Qed.

Lemma ltb_nan_l (x : pyfloat) : ltb NaN x = false.
Proof. reflexivity. Qed.

Lemma ltb_nan_r (x : pyfloat) : ltb x NaN = false.
Proof. destruct x; reflexivity. Qed.

Lemma leb_nan_l (x : pyfloat) : leb NaN x = false.
Proof. reflexivity. Qed.

Lemma leb_nan_r (x : pyfloat) : leb x NaN = false.
Proof. destruct x; reflexivity. Qed.

Lemma ltb_Fin (a b : R) : ltb (Fin a) (Fin b) = true <-> (a < b)%R.
Proof. simpl. apply Rltb_true. Qed.

Lemma leb_Fin (a b : R) : leb (Fin a) (Fin b) = true <-> (a <= b)%R.
Proof. simpl. apply Rleb_true. Qed.

Lemma sub_Fin (a b : R) : sub (Fin a) (Fin b) = Fin (a - b).
Proof. reflexivity. Qed.

Lemma sub_nan_r (x : pyfloat) : sub x NaN = NaN.
Proof. destruct x; reflexivity. Qed.

Lemma div_nan_r (x : pyfloat) : div x NaN = NaN.
Proof. destruct x; reflexivity. Qed.

End PyFloatFacts.

(** ** Binary64 rounding *)

Module Binary64Facts.

Import Binary64.
Local Open Scope Q_scope.

Lemma two_pos (e : Z) : 0 < two ^ e.
Proof. apply Qpower_0_lt. reflexivity. Qed.

Lemma two_not_0 : ~ two == 0.
Proof. intros H. discriminate. Qed.

Lemma two_split (g e : Z) :
  (e <= g)%Z -> two ^ g == inject_Z (2 ^ (g - e)) * two ^ e.
Proof.
  intros H. rewrite Zpower_Qpower by lia.
  change (inject_Z 2) with two.
  rewrite <- Qpower_plus by exact two_not_0.
  replace (g - e + e)%Z with g by lia. reflexivity.
Qed.

Lemma two_succ (e : Z) : two ^ (e + 1) == 2 * two ^ e.
Proof.
  rewrite Qpower_plus by exact two_not_0. change (two ^ 1) with two.
  unfold two at 2. ring.
Qed.

Lemma div_two_mul (q : Q) (e : Z) : q / two ^ e * two ^ e == q.
Proof. field. apply Qpower_not_0. exact two_not_0. Qed.

Lemma Qcompare_Lt (a b : Q) : Qcompare a b = Lt -> a < b.
Proof. intros H. now apply Qlt_alt. Qed.

Lemma Qcompare_Gt (a b : Q) : Qcompare a b = Gt -> b < a.
Proof. intros H. now apply Qgt_alt. Qed.

Lemma Qcompare_Eq (a b : Q) : Qcompare a b = Eq -> a == b.
Proof. intros H. now apply Qeq_alt. Qed.

(** *** The nearest integer *)

Lemma floor_bounds (q : Q) :
  inject_Z (Qfloor q) <= q /\ q < inject_Z (Qfloor q) + 1.
Proof.
  split; [apply Qfloor_le|].
  pose proof (Qlt_floor q) as H. rewrite inject_Z_plus in H. exact H.
Qed.

Lemma nearest_even_cases (q : Q) :
  (nearest_even q = Qfloor q /\ q - inject_Z (Qfloor q) <= 1 # 2)
  \/ (nearest_even q = (Qfloor q + 1)%Z /\ (1 # 2) <= q - inject_Z (Qfloor q)).
Proof.
  unfold nearest_even. cbv zeta.
  destruct (Qcompare (q - inject_Z (Qfloor q)) (1 # 2)) eqn:E.
  - apply Qcompare_Eq in E. destruct (Z.even (Qfloor q)).
    + left. split; [reflexivity | Lqa.lra].
    + right. split; [reflexivity | Lqa.lra].
  - apply Qcompare_Lt in E. left. split; [reflexivity | Lqa.lra].
  - apply Qcompare_Gt in E. right. split; [reflexivity | Lqa.lra].
Qed.

Lemma nearest_even_tie (q : Q) :
  q - inject_Z (nearest_even q) == 1 # 2 \/ inject_Z (nearest_even q) - q == 1 # 2 ->
  Z.even (nearest_even q) = true.
Proof.
  pose proof (floor_bounds q) as Hf.
  unfold nearest_even. cbv zeta.
  destruct (Qcompare (q - inject_Z (Qfloor q)) (1 # 2)) eqn:E.
  - destruct (Z.even (Qfloor q)) eqn:Ev; [intros _; exact Ev|].
    intros _. rewrite Z.even_add, Ev. reflexivity.
  - apply Qcompare_Lt in E. intros [H|H]; exfalso; Lqa.lra.
  - apply Qcompare_Gt in E. rewrite inject_Z_plus.
    change (inject_Z 1) with 1. intros [H|H]; exfalso; Lqa.lra.
Qed.

Lemma nearest_even_close (q : Q) :
  q - (1 # 2) <= inject_Z (nearest_even q) <= q + (1 # 2).
Proof.
  destruct (floor_bounds q) as [H1 H2].
  destruct (nearest_even_cases q) as [[-> H]|[-> H]].
  - split; Lqa.lra.
  - rewrite inject_Z_plus. change (inject_Z 1) with 1. split; Lqa.lra.
Qed.

Lemma nearest_even_ge (n : Z) (q : Q) :
  inject_Z n <= q -> (n <= nearest_even q)%Z.
Proof.
  intros H.
  assert (n <= Qfloor q)%Z as Hf.
  { rewrite <- (Qfloor_Z n). now apply Qfloor_resp_le. }
  destruct (nearest_even_cases q) as [[-> _]|[-> _]]; lia.
Qed.

Lemma nearest_even_le (n : Z) (q : Q) :
  q <= inject_Z n -> (nearest_even q <= n)%Z.
Proof.
  intros H. destruct (floor_bounds q) as [H1 H2].
  assert (Qfloor q <= n)%Z as Hf.
  { rewrite Zle_Qle. Lqa.lra. }
  destruct (nearest_even_cases q) as [[-> _]|[-> Hh]]; [exact Hf|].
  assert (Qfloor q < n)%Z; [|lia].
  rewrite Zlt_Qlt. Lqa.lra.
Qed.

(** *** The binade of a positive rational *)

Lemma ilog2_spec (q : Q) :
  0 < q -> two ^ ilog2 q <= q /\ q < two ^ (ilog2 q + 1).
Proof.
  intros Hq. destruct q as [n d].
  assert (0 < n)%Z as Hn by (unfold Qlt in Hq; simpl in Hq; lia).
  unfold ilog2. cbn [Qnum Qden].
  set (a := Z.log2 n). set (b := Z.log2 (Z.pos d)).
  assert (0 <= a)%Z as Ha by apply Z.log2_nonneg.
  assert (0 <= b)%Z as Hb by apply Z.log2_nonneg.
  destruct (Z.log2_spec n Hn) as [Hn1 Hn2]. fold a in Hn1, Hn2.
  destruct (Z.log2_spec (Z.pos d) (Pos2Z.is_pos d)) as [Hd1 Hd2]. fold b in Hd1, Hd2.
  rewrite <- Z.add_1_r in Hn2, Hd2.
  assert (n # d == inject_Z n / inject_Z (Z.pos d)) as Hnd by apply Qmake_Qdiv.
  set (N := inject_Z n) in *. set (D := inject_Z (Z.pos d)) in *.
  assert (two ^ a <= N /\ N < 2 * two ^ a) as [HN1 HN2].
  { pose proof (two_succ a) as Hs.
    pose proof (Zpower_Qpower 2 a Ha) as Ea.
    pose proof (Zpower_Qpower 2 (a + 1) ltac:(lia)) as Ea1.
    change (inject_Z 2) with two in Ea, Ea1.
    rewrite Zle_Qle in Hn1. rewrite Zlt_Qlt in Hn2. fold N in Hn1, Hn2.
    split; Lqa.lra. }
  assert (two ^ b <= D /\ D < 2 * two ^ b) as [HD1 HD2].
  { pose proof (two_succ b) as Hs.
    pose proof (Zpower_Qpower 2 b Hb) as Eb.
    pose proof (Zpower_Qpower 2 (b + 1) ltac:(lia)) as Eb1.
    change (inject_Z 2) with two in Eb, Eb1.
    rewrite Zle_Qle in Hd1. rewrite Zlt_Qlt in Hd2. fold D in Hd1, Hd2.
    split; Lqa.lra. }
  pose proof (two_pos a) as Pa. pose proof (two_pos b) as Pb.
  assert (0 < D) as PD by Lqa.lra.
  assert (two ^ (a - b) == two ^ a / two ^ b) as E0
    by (apply Qpower_minus; exact two_not_0).
  assert (two ^ (a - b + 1) == 2 * (two ^ a / two ^ b)) as E1
    by (rewrite two_succ, E0; reflexivity).
  assert (two ^ (a - b - 1 + 1) == two ^ a / two ^ b) as E2
    by (replace (a - b - 1 + 1)%Z with (a - b)%Z by lia; exact E0).
  assert (two ^ (a - b - 1) == (two ^ a / two ^ b) / 2) as E3.
  { pose proof (two_succ (a - b - 1)) as H. rewrite E2 in H.
    rewrite H. field. }
  (* the two estimates *)
  assert ((two ^ a / two ^ b) / 2 <= N / D) as Lo.
  { apply Qle_shift_div_l; [exact PD|].
    assert (two ^ a / two ^ b / 2 * D == (two ^ a * D) / (2 * two ^ b)) as ->
      by (field; Lqa.lra).
    apply Qle_shift_div_r; [Lqa.lra|]. Lqa.nra. }
  assert (N / D < 2 * (two ^ a / two ^ b)) as Hi.
  { apply Qlt_shift_div_r; [exact PD|].
    assert (2 * (two ^ a / two ^ b) * D == (2 * two ^ a * D) / two ^ b) as ->
      by (field; Lqa.lra).
    apply Qlt_shift_div_l; [Lqa.lra|]. Lqa.nra. }
  destruct (Qle_bool (two ^ (a - b)) (n # d)) eqn:E.
  - apply Qle_bool_iff in E. split; [exact E|].
    rewrite E1, Hnd. exact Hi.
  - assert (~ two ^ (a - b) <= n # d) as Hnle
      by (intros H; apply Qle_bool_iff in H; congruence).
    apply Qnot_le_lt in Hnle. split.
    + rewrite E3, Hnd. exact Lo.
    + rewrite E2, <- E0. exact Hnle.
Qed.

Lemma ulp_exp_le (q : Q) (g : Z) :
  0 < q -> q < two ^ (g + 53) -> (-1074 <= g)%Z -> (ulp_exp q <= g)%Z.
Proof.
  intros Hq Hlt Hg. unfold ulp_exp.
  destruct (ilog2_spec Hq) as [H1 _].
  assert (two ^ ilog2 q < two ^ (g + 53)) as H by Lqa.lra.
  apply Qpower_lt_compat_l_inv in H; [|reflexivity]. lia.
Qed.

Lemma ulp_exp_ge (q : Q) : (-1074 <= ulp_exp q)%Z.
Proof. unfold ulp_exp. lia. Qed.

(** *** Rounding *)

(** Between two multiples of [2^g], where the unit in the last place is
    at most [2^g], rounding stays between them and moves the value by at
    most half of [2^g]. *)
Lemma rnd_pos_bounds (q : Q) (g lo hi : Z) :
  0 < q -> (ulp_exp q <= g)%Z ->
  inject_Z lo * two ^ g <= q <= inject_Z hi * two ^ g ->
  inject_Z lo * two ^ g <= rnd_pos q <= inject_Z hi * two ^ g
  /\ q - two ^ g * (1 # 2) <= rnd_pos q <= q + two ^ g * (1 # 2).
Proof.
  intros Hq He [Hlo Hhi]. unfold rnd_pos. cbv zeta.
  set (e := ulp_exp q) in *.
  pose proof (two_pos e) as Pe. pose proof (two_pos g) as Pg.
  pose proof (two_split He) as Hs.
  assert (0 <= g - e)%Z as Hge by lia.
  set (k := (2 ^ (g - e))%Z) in *.
  assert (1 <= inject_Z k) as HkQ.
  { assert (0 < k)%Z by (unfold k; apply Z.pow_pos_nonneg; lia).
    change 1 with (inject_Z 1). rewrite <- Zle_Qle. lia. }
  pose proof (div_two_mul q e) as Hdm.
  set (x := q / two ^ e) in *.
  assert (inject_Z (lo * k) <= x) as Hxl.
  { rewrite inject_Z_mult. apply Qmult_le_r with (two ^ e); [exact Pe|].
    rewrite Hdm. rewrite Hs in Hlo. Lqa.lra. }
  assert (x <= inject_Z (hi * k)) as Hxh.
  { rewrite inject_Z_mult. apply Qmult_le_r with (two ^ e); [exact Pe|].
    rewrite Hdm. rewrite Hs in Hhi. Lqa.lra. }
  apply nearest_even_ge in Hxl. apply nearest_even_le in Hxh.
  rewrite Zle_Qle in Hxl, Hxh. rewrite inject_Z_mult in Hxl, Hxh.
  pose proof (nearest_even_close x) as [Hc1 Hc2].
  set (m := inject_Z (nearest_even x)) in *.
  set (P := two ^ e) in *. set (K := inject_Z k) in *.
  assert (inject_Z lo * K * P <= m * P) as A1
    by (apply Qmult_le_compat_r; Lqa.lra).
  assert (m * P <= inject_Z hi * K * P) as A2
    by (apply Qmult_le_compat_r; Lqa.lra).
  assert ((x - (1 # 2)) * P <= m * P) as A3
    by (apply Qmult_le_compat_r; Lqa.lra).
  assert (m * P <= (x + (1 # 2)) * P) as A4
    by (apply Qmult_le_compat_r; Lqa.lra).
  assert (P <= K * P) as A5.
  { assert (1 * P <= K * P) by (apply Qmult_le_compat_r; Lqa.lra). Lqa.lra. }
  rewrite Hs. split; split; Lqa.lra.
Qed.

Lemma Qle_bool_false (a b : Q) : Qle_bool a b = false -> b < a.
Proof.
  intros H. apply Qnot_le_lt. intros Hle. apply Qle_bool_iff in Hle. congruence.
Qed.

(** The same for [rnd] on a non-negative value small enough not to
    overflow. *)
Lemma rnd_bounds (q : Q) (g lo hi : Z) :
  0 <= q -> q < two ^ (g + 53) -> (-1074 <= g)%Z ->
  inject_Z lo * two ^ g <= q <= inject_Z hi * two ^ g ->
  inject_Z hi * two ^ g < two ^ 1024 ->
  exists r, rnd q = Fin r
            /\ inject_Z lo * two ^ g <= r <= inject_Z hi * two ^ g
            /\ q - two ^ g * (1 # 2) <= r <= q + two ^ g * (1 # 2).
Proof.
  intros Hq Hlt Hg Hb Hov. unfold rnd.
  destruct (Qcompare q 0) eqn:E.
  - apply Qcompare_Eq in E. exists 0. pose proof (two_pos g). split; [reflexivity|].
    split; split; Lqa.lra.
  - apply Qcompare_Lt in E. Lqa.lra.
  - apply Qcompare_Gt in E. cbv zeta.
    pose proof (ulp_exp_le E Hlt Hg) as He.
    destruct (rnd_pos_bounds E He Hb) as [[B1 B2] [B3 B4]].
    destruct (Qle_bool (two ^ 1024) (rnd_pos q)) eqn:Ho.
    + apply Qle_bool_iff in Ho. Lqa.lra.
    + exists (Qred (rnd_pos q)). split; [reflexivity|].
      rewrite Qred_correct. split; split; assumption.
Qed.


(** Rounding does not go below a power of two that the value reaches. *)
Lemma rnd_pos_ge_pow (q : Q) (j : Z) :
  (-1074 <= j)%Z -> two ^ j <= q -> two ^ j <= rnd_pos q.
Proof.
  intros Hj Hq. pose proof (two_pos j) as Pj.
  assert (0 < q) as Hpos by Lqa.lra.
  destruct (Z_le_gt_dec (ulp_exp q) j) as [He|He].
  - assert (inject_Z 1 * two ^ j <= q
            <= inject_Z (Qceiling (q / two ^ j)) * two ^ j) as Hb.
    { split; [change (inject_Z 1) with 1; Lqa.lra|].
      pose proof (Qle_ceiling (q / two ^ j)) as Hc.
      apply (Qmult_le_compat_r _ _ (two ^ j)) in Hc; [|Lqa.lra].
      rewrite div_two_mul in Hc. exact Hc. }
    destruct (rnd_pos_bounds Hpos He Hb) as [[B _] _].
    change (inject_Z 1) with 1 in B. Lqa.lra.
  - assert (ulp_exp q = (ilog2 q - 52)%Z) as Hu by (unfold ulp_exp in *; lia).
    destruct (ilog2_spec Hpos) as [H1 H2].
    set (e := ulp_exp q) in *.
    assert (ilog2 q = (e + 52)%Z) as Hi by lia. rewrite Hi in H1.
    pose proof (two_split (g := e + 52) (e := e) ltac:(lia)) as Hs.
    replace (e + 52 - e)%Z with 52%Z in Hs by lia.
    assert (inject_Z (2 ^ 52) * two ^ e <= q
            <= inject_Z (Qceiling (q / two ^ e)) * two ^ e) as Hb.
    { split; [Lqa.lra|].
      pose proof (Qle_ceiling (q / two ^ e)) as Hc.
      pose proof (two_pos e) as Pe.
      apply (Qmult_le_compat_r _ _ (two ^ e)) in Hc; [|Lqa.lra].
      rewrite div_two_mul in Hc. exact Hc. }
    destruct (rnd_pos_bounds Hpos (Z.le_refl e) Hb) as [[B _] _].
    assert (two ^ j <= two ^ (e + 52)) as Hjj.
    { apply Qpower_le_compat_l; [lia | discriminate]. }
    Lqa.lra.
Qed.

Lemma Qlt_bool_true (a b : Q) : Qlt_bool a b = true <-> a < b.
Proof.
  unfold Qlt_bool. destruct (Qcompare a b) eqn:E; split; intros H;
    try discriminate; try reflexivity.
  - apply Qcompare_Eq in E. Lqa.lra.
  - now apply Qcompare_Lt.
  - apply Qcompare_Gt in E. Lqa.lra.
Qed.

(** The test [abs(r - s) < 0.5]: when it passes, the exact difference is
    below one half. *)
Lemma close_implies_exact (r s : Q) :
  ltb (abs (sub (Fin r) (Fin s))) (Fin (1 # 2)) = true ->
  Qabs (r - s) < 1 # 2.
Proof.
  unfold sub. cbn [neg add]. unfold rnd.
  assert (two ^ (-1) == 1 # 2) as Hh by reflexivity.
  destruct (Qcompare (r + - s) 0) eqn:E; cbv zeta.
  - apply Qcompare_Eq in E. intros _.
    assert (r - s == 0) as -> by Lqa.lra. reflexivity.
  - apply Qcompare_Lt in E.
    destruct (Qle_bool (two ^ 1024) (rnd_pos (- (r + - s)))); [discriminate|].
    cbn [abs ltb]. intros H. apply Qlt_bool_true in H.
    rewrite Qred_correct, Qabs_opp in H.
    destruct (Qlt_le_dec (Qabs (r - s)) (1 # 2)) as [Hlt|Hge]; [exact Hlt|exfalso].
    assert (Qabs (r - s) == - (r + - s)) as Ha.
    { rewrite Qabs_neg by Lqa.lra. ring. }
    assert (two ^ (-1) <= - (r + - s)) as Hq by Lqa.lra.
    apply rnd_pos_ge_pow in Hq; [|lia].
    pose proof (Qle_Qabs (rnd_pos (- (r + - s)))). Lqa.lra.
  - apply Qcompare_Gt in E.
    destruct (Qle_bool (two ^ 1024) (rnd_pos (r + - s))); [discriminate|].
    cbn [abs ltb]. intros H. apply Qlt_bool_true in H.
    rewrite Qred_correct in H.
    destruct (Qlt_le_dec (Qabs (r - s)) (1 # 2)) as [Hlt|Hge]; [exact Hlt|exfalso].
    assert (Qabs (r - s) == r + - s) as Ha.
    { rewrite Qabs_pos by Lqa.lra. ring. }
    assert (two ^ (-1) <= r + - s) as Hq by Lqa.lra.
    apply rnd_pos_ge_pow in Hq; [|lia].
    pose proof (Qle_Qabs (rnd_pos (r + - s))). Lqa.lra.
Qed.

(** *** Values below 8 *)

Lemma rnd_small (q : Q) (lo hi : Z) :
  0 <= q -> q < 8 -> (hi <= 8)%Z -> inject_Z lo <= q <= inject_Z hi ->
  exists r, rnd q = Fin r
            /\ inject_Z lo <= r <= inject_Z hi
            /\ q - eps <= r <= q + eps.
Proof.
  intros H0 H8 Hhi [Hl Hh].
  assert (two ^ (-50) == 1 # (2 ^ 50)) as E50 by reflexivity.
  assert (two ^ (-50) * (1 # 2) == eps) as Ee by reflexivity.
  assert (forall z : Z, inject_Z (z * 2 ^ 50) * two ^ (-50) == inject_Z z) as Hz.
  { intros z. rewrite inject_Z_mult, <- Qmult_assoc.
    assert (inject_Z (2 ^ 50) * two ^ (-50) == 1) as -> by reflexivity.
    apply Qmult_1_r. }
  destruct (@rnd_bounds q (-50) (lo * 2 ^ 50) (hi * 2 ^ 50)) as (r & Hr & Hb & Hc).
  - exact H0.
  - change (two ^ (-50 + 53)) with 8. exact H8.
  - lia.
  - rewrite !Hz. split; assumption.
  - rewrite Hz. apply Qle_lt_trans with (inject_Z 8).
    + rewrite <- Zle_Qle. exact Hhi.
    + reflexivity.
  - exists r. split; [exact Hr|]. rewrite !Hz in Hb. rewrite Ee in Hc.
    split; assumption.
Qed.

Lemma mul_small (a b : Q) :
  0 <= a * b -> a * b < 8 ->
  exists p, mul (Fin a) (Fin b) = Fin p
            /\ 0 <= p /\ a * b - eps <= p <= a * b + eps.
Proof.
  intros H0 H8. cbn [mul].
  destruct (@rnd_small (a * b) 0 8 H0 H8) as (p & Hp & [Hl _] & Hc); [lia| |].
  - split; [exact H0 | change (inject_Z 8) with 8; Lqa.lra].
  - exists p. change (inject_Z 0) with 0 in Hl. auto.
Qed.

Lemma add_small (a b : Q) :
  0 <= a + b -> a + b < 8 ->
  exists s, add (Fin a) (Fin b) = Fin s
            /\ 0 <= s /\ a + b - eps <= s <= a + b + eps.
Proof.
  intros H0 H8. cbn [add].
  destruct (@rnd_small (a + b) 0 8 H0 H8) as (p & Hp & [Hl _] & Hc); [lia| |].
  - split; [exact H0 | change (inject_Z 8) with 8; Lqa.lra].
  - exists p. change (inject_Z 0) with 0 in Hl. auto.
Qed.

Lemma Qmake_100 (k : Z) : k # 100 == inject_Z k * (1 # 100).
Proof. unfold Qeq, Qmult, inject_Z. simpl. lia. Qed.

(** [round(x, 2)] of a value between the integers [lo] and [hi]: the
    result is the float nearest to [k/100], where [k] is the integer
    nearest to [100 x], and lies between [lo] and [hi]. *)
Lemma round2_small (s : Q) (lo hi : Z) :
  (0 <= lo)%Z -> (hi <= 7)%Z ->
  inject_Z lo - (1 # 1000) <= s <= inject_Z hi + (1 # 1000) ->
  exists w, round2 (Fin s) = Fin w
            /\ inject_Z lo <= w <= inject_Z hi
            /\ (nearest_even (s * 100) # 100) - eps <= w
               <= (nearest_even (s * 100) # 100) + eps
            /\ (100 * lo <= nearest_even (s * 100) <= 100 * hi)%Z.
Proof.
  intros Hlo Hhi [Hs1 Hs2]. cbn [round2]. unfold of_decimal.
  set (k := nearest_even (s * 100)).
  pose proof (nearest_even_close (s * 100)) as [Hk1 Hk2]. fold k in Hk1, Hk2.
  assert (0 <= inject_Z lo) as Hlo' by (change 0 with (inject_Z 0); now rewrite <- Zle_Qle).
  assert (inject_Z hi <= 7) as Hhi' by (change 7 with (inject_Z 7); now rewrite <- Zle_Qle).
  assert (100 * lo <= k <= 100 * hi)%Z as Hk.
  { split.
    - assert (100 * lo - 1 < k)%Z; [|lia].
      assert (inject_Z (100 * lo - 1) == 100 * inject_Z lo - 1) as E
        by (unfold Z.sub; rewrite inject_Z_plus, inject_Z_mult; reflexivity).
      rewrite Zlt_Qlt, E. Lqa.lra.
    - assert (k < 100 * hi + 1)%Z; [|lia].
      assert (inject_Z (100 * hi + 1) == 100 * inject_Z hi + 1) as E
        by (rewrite inject_Z_plus, inject_Z_mult; reflexivity).
      rewrite Zlt_Qlt, E. Lqa.lra. }
  pose proof (Qmake_100 k) as Hq.
  assert (inject_Z lo <= k # 100 <= inject_Z hi) as Hb.
  { destruct Hk as [Hk3 Hk4]. rewrite Zle_Qle in Hk3, Hk4.
    rewrite inject_Z_mult in Hk3, Hk4. change (inject_Z 100) with 100 in Hk3, Hk4.
    rewrite Hq. split; Lqa.lra. }
  assert (inject_Z k / inject_Z (10 ^ Z.of_nat 2) == k # 100) as Hd
    by (rewrite Qmake_Qdiv; reflexivity).
  destruct (@rnd_small (inject_Z k / inject_Z (10 ^ Z.of_nat 2)) lo hi)
    as (w & Hw & Hwb & Hwc).
  - rewrite Hd. Lqa.lra.
  - rewrite Hd. Lqa.lra.
  - lia.
  - rewrite Hd. exact Hb.
  - exists w. rewrite Hd in Hwc. auto.
Qed.

End Binary64Facts.

(** ** Registration: Island.register_and_evaluate_program *)

Module RegisterFacts.

Import PyFloat PyStr Py Island RegisterSpec.

Lemma nonempty_true (s : string) : nonempty s = true <-> s <> EmptyString.
Proof. destruct s; simpl; split; intros; congruence. Qed.

Lemma stripped_name_some (recipe : Recipe.t) :
  (exists n, stripped_name recipe = Some n) <->
  (exists s, Recipe.recipe_name recipe = Some (VStr s) /\ strip s <> EmptyString).
Proof.
  unfold stripped_name. destruct (Recipe.recipe_name recipe) as [[s|l|]|].
  - destruct (nonempty (strip s)) eqn:E.
    + split; intros _; [exists s | eauto]. split; [easy|]. now apply nonempty_true.
    + split; intros [x H]; [discriminate|]. destruct H as [H1 H2].
      inversion H1; subst. apply nonempty_true in H2. congruence.
  - split; intros [x H]; [discriminate | destruct H; discriminate].
  - split; intros [x H]; [discriminate | destruct H; discriminate].
  - split; intros [x H]; [discriminate | destruct H; discriminate].
Qed.

Lemma missing_fields_nil (recipe : Recipe.t) :
  missing_fields recipe (normalize_instructions (Recipe.instructions recipe))
                 (normalize_ingredients (Recipe.ingredients recipe)) = []
  <-> fields_present recipe.
Proof.
  unfold missing_fields, fields_present.
  rewrite <- stripped_name_some.
  destruct (stripped_name recipe) as [n|];
    destruct (normalize_instructions (Recipe.instructions recipe)) as [|c s];
    destruct (normalize_ingredients (Recipe.ingredients recipe)) as [|i l];
    simpl; split; intros H; try discriminate;
    try (repeat split; eauto; congruence);
    destruct H as (Hn & Hi & Hg); try congruence;
    destruct Hn as [x Hx]; discriminate.
Qed.

Lemma values_of_map_Some (l : list pyfloat) :
  flat_map (fun s : option pyfloat => match s with Some x => [x] | None => [] end)
           (map Some l) = l.
Proof. induction l; simpl; congruence. Qed.

Lemma existsb_none_or_nan_false (scores : list (option pyfloat)) :
  existsb none_or_nan scores = false <->
  exists l, scores = map Some l /\ Forall (fun x => isnan x = false) l.
Proof.
  induction scores as [|s tl IH]; simpl.
  - split; [intros _; exists []; split; constructor|reflexivity].
  - rewrite orb_false_iff, IH. split.
    + intros [Hs [l [-> Hl]]]. destruct s as [x|]; [|discriminate].
      exists (x :: l). split; [reflexivity|]. constructor; assumption.
    + intros [[|x l] [Heq Hl]]; [discriminate|].
      inversion Heq; subst. inversion Hl; subst. split; [assumption|].
      exists l. split; [reflexivity | assumption].
Qed.

Lemma checked_scores_some (response : Response.t) (l : list pyfloat) :
  checked_scores response = Some l <-> seven_scores response l.
Proof.
  unfold checked_scores, seven_scores.
  destruct (Response.scores response) as [[scores|]|]; try (split; [discriminate | intros [H _]; discriminate]).
  destruct (Nat.eqb_spec (List.length scores) 7) as [Hlen|Hlen]; simpl.
  - destruct (existsb none_or_nan scores) eqn:E.
    + split; [discriminate|]. intros [H [_ Hf]]. inversion H; subst.
      assert (existsb none_or_nan (map Some l) = false) as E'
        by (apply existsb_none_or_nan_false; eauto).
      congruence.
    + apply existsb_none_or_nan_false in E. destruct E as [l' [-> Hl']].
      rewrite values_of_map_Some. rewrite length_map in Hlen. split.
      * intros H. inversion H; subst. auto.
      * intros [H _]. inversion H as [H1].
        apply (f_equal (flat_map (fun s : option pyfloat => match s with Some x => [x] | None => [] end))) in H1.
        rewrite !values_of_map_Some in H1. congruence.
  - split; [discriminate|]. intros [H [Hl _]]. inversion H; subst.
    rewrite length_map in Hlen. contradiction.
Qed.

Lemma checked_weighted_some (response : Response.t) (w : pyfloat) :
  checked_weighted response = Some w <-> weighted_not_nan response w.
Proof.
  unfold checked_weighted, weighted_not_nan.
  destruct (Response.weighted_score response) as [[x|]|];
    try (split; [discriminate | intros [H _]; discriminate]).
  destruct (isnan x) eqn:E; split.
  - discriminate.
  - intros [H1 H2]. inversion H1; subst. congruence.
  - intros H. inversion H; subst. auto.
  - intros [H1 _]. congruence.
Qed.

Section Register.

Variable extract_recipe_details : string -> Recipe.t.

Lemma formatted_data_some (program : string) (island_id : Z) (response : Response.t) :
  (exists row, formatted_data extract_recipe_details program island_id response = Some row)
  <-> registrable (extract_recipe_details program) response.
Proof.
  unfold formatted_data, format_recipe, registrable.
  set (recipe := extract_recipe_details program).
  rewrite <- missing_fields_nil.
  destruct (missing_fields recipe _ _) as [|m ms] eqn:Hm.
  - assert (fields_present recipe) as Hf by (apply missing_fields_nil; exact Hm).
    destruct Hf as [Hname _]. apply stripped_name_some in Hname. destruct Hname as [n Hn].
    rewrite Hn.
    destruct (checked_scores response) as [l|] eqn:Hs.
    + apply checked_scores_some in Hs.
      destruct (checked_weighted response) as [w|] eqn:Hw.
      * apply checked_weighted_some in Hw.
        assert (List.length l = 7) as Hl by apply Hs.
        do 8 (destruct l as [|? l]; try discriminate).
        split; [intros _ | intros _; eauto].
        split; [reflexivity|]. split; eauto.
      * split.
        -- intros [row H]. do 8 (destruct l as [|? l]; try discriminate).
        -- intros [_ [_ [w Hw']]]. apply checked_weighted_some in Hw'. congruence.
    + split; [intros [row H]; discriminate|].
      intros [_ [[l Hl] _]]. apply checked_scores_some in Hl. congruence.
  - split; [intros [row H]; discriminate | intros [H _]; discriminate].
Qed.

Lemma formatted_data_weighted (program : string) (island_id : Z)
  (response : Response.t) (row : Row.t) :
  formatted_data extract_recipe_details program island_id response = Some row ->
  Response.weighted_score response = Some (Some (Row.weighted_score row))
  /\ Row.ingredients row =
       normalize_ingredients (Recipe.ingredients (extract_recipe_details program))
  /\ Row.instructions row =
       normalize_instructions (Recipe.instructions (extract_recipe_details program)).
Proof.
  unfold formatted_data, format_recipe.
  destruct (missing_fields _ _ _); [|discriminate].
  destruct (checked_scores response) as [l|]; [|discriminate].
  destruct (checked_weighted response) as [w|] eqn:Hw;
    [|do 8 (destruct l as [|? l]; try discriminate)].
  destruct (stripped_name _); do 8 (destruct l as [|? l]; try discriminate).
  intros H. inversion H; subst; simpl.
  apply checked_weighted_some in Hw. destruct Hw as [Hw _]. auto.
Qed.

End Register.

End RegisterFacts.

Module RegisterClaims.

Import PyFloat PyStr Py Island RegisterSpec RegisterFacts.

(** C1 (as amended).  For every call of [register_and_evaluate_program],
    whatever the evaluator extracts: the row is appended to the store
    exactly when the recipe name, the normalized instructions and the
    normalized ingredients are non-empty, the response carries a list of
    exactly seven scores, all present and none [nan], and a weighted score
    that is a number other than [nan] (an infinite one passes).  On success
    the appended row carries that weighted score and the island's best is
    replaced exactly when the new weighted score is strictly greater; on
    any failure the island and the store are returned unchanged; an empty
    normalized ingredients list is always a failure. *)
Theorem register_and_evaluate_program_registers_iff_valid :
  forall (extract_recipe_details : string -> Recipe.t) (self : Island.t)
         (program : string) (island_id : Z) (response : Response.t)
         (programs : list Row.t),
    let recipe := extract_recipe_details program in
    let out := register_and_evaluate_program extract_recipe_details
                 self program island_id response programs in
    (List.length (snd out) = S (List.length programs) <-> registrable recipe response)
    /\ (registrable recipe response ->
        exists row,
          snd out = programs ++ [row]
          /\ Response.weighted_score response = Some (Some (Row.weighted_score row))
          /\ fst out =
               if gtb (Row.weighted_score row) (_best_score self)
               then Island.Make (Island.island_id self) (Some row)
                                (Row.weighted_score row) (_clusters self)
               else self)
    /\ (~ registrable recipe response -> out = (self, programs))
    /\ (normalize_ingredients (Recipe.ingredients recipe) = [] ->
        out = (self, programs)).
Proof.
  intros extract self program iid response programs recipe out.
  pose proof (formatted_data_some extract program iid response) as Hiff.
  fold recipe in Hiff.
  assert (~ registrable recipe response -> out = (self, programs)) as Hno.
  { intros Hn. unfold out, register_and_evaluate_program, register_extracted.
    fold (formatted_data extract program iid response).
    destruct (formatted_data extract program iid response) as [row|] eqn:E;
      [|reflexivity].
    exfalso. apply Hn, Hiff. eauto. }
  assert (registrable recipe response ->
          exists row, formatted_data extract program iid response = Some row
                      /\ out = (_update_best_program self row, programs ++ [row])) as Hyes.
  { intros Hr. apply Hiff in Hr. destruct Hr as [row Hrow]. exists row.
    split; [exact Hrow|]. unfold out, register_and_evaluate_program, register_extracted.
    fold (formatted_data extract program iid response).
    rewrite Hrow. reflexivity. }
  split; [split | split; [|split]].
  - intros Hlen.
    destruct (formatted_data extract program iid response) as [row|] eqn:E.
    + apply Hiff. eauto.
    + unfold out, register_and_evaluate_program, register_extracted in Hlen.
      fold (formatted_data extract program iid response) in Hlen. rewrite E in Hlen.
      simpl in Hlen. lia.
  - intros Hr. destruct (Hyes Hr) as [row [_ Hout]]. rewrite Hout. simpl.
    rewrite length_app. simpl. lia.
  - intros Hr. destruct (Hyes Hr) as [row [Hrow Hout]]. exists row.
    rewrite Hout. simpl. split; [reflexivity|]. split.
    + apply (formatted_data_weighted extract _ _ _ Hrow).
    + reflexivity.
  - exact Hno.
  - intros Hing. apply Hno. intros [[_ [_ Hi]] _]. fold recipe in Hing. contradiction.
Qed.

(** With empty ingredients and seven valid scores nothing is registered. *)
Lemma register_rejects_empty_ingredients :
  register_and_evaluate_program Evaluator.extract_recipe_details
    (Island.init 0) Samples.no_ingredients_program 0
    (Samples.response_with (Fin 4)) [Samples.row_with 0 (Fin 3)]
  = (Island.init 0, [Samples.row_with 0 (Fin 3)]).
Proof.
  apply register_and_evaluate_program_registers_iff_valid.
  vm_compute. reflexivity.
Defined.

(** The specification's wording of C1 fails: a weighted score of [+inf] is
    not a finite number, yet the artifact is appended to the store. *)
Lemma register_accepts_infinite_weighted_score :
  List.length
    (snd (register_and_evaluate_program Evaluator.extract_recipe_details
            (Island.init 0) Samples.pie_program 0
            (Samples.response_with PInf) [])) = 1
  /\ ~ registrable_finite (Evaluator.extract_recipe_details Samples.pie_program)
                          (Samples.response_with PInf).
Proof.
  split.
  - vm_compute. reflexivity.
  - intros [_ [_ [w [Hw Hfin]]]]. simpl in Hw. inversion Hw; subst. discriminate.
Qed.

End RegisterClaims.

(** ** Score extraction: RecipeEvaluator.extract_scores_from_response *)

Module ScoreFacts.

Import PyStr Re Py Exn Binary64 Binary64Facts Evaluator64 ScoreSpec64.
Local Open Scope Q_scope.

Lemma of_decimal_175 : of_decimal 175 3 = Fin w175.
Proof. vm_compute. reflexivity. Qed.
Lemma of_decimal_12 : of_decimal 12 2 = Fin w12.
Proof. vm_compute. reflexivity. Qed.
Lemma of_decimal_6 : of_decimal 6 2 = Fin w06.
Proof. vm_compute. reflexivity. Qed.
Lemma of_Z_0 : of_Z 0 = Fin 0.
Proof. vm_compute. reflexivity. Qed.
Lemma of_Z_1 : of_Z 1 = Fin 1.
Proof. vm_compute. reflexivity. Qed.
Lemma of_Z_5 : of_Z 5 = Fin 5.
Proof. vm_compute. reflexivity. Qed.

Ltac numeric_eps :=
  unfold eps in *; change (2 ^ 51)%positive with 2251799813685248%positive in *.

(** The float sum of seven weighted scores between 0 and 6 is finite and
    within [tolerance] of the exact sum. *)
Lemma float_weighted_sum_close (v : string -> Q) :
  (forall key, In key Evaluator.score_keys -> 0 <= v key <= 6) ->
  exists s, float_weighted_sum v = Fin s
            /\ 0 <= s
            /\ exact_weighted_sum v - tolerance <= s
               <= exact_weighted_sum v + tolerance.
Proof.
  intros Hv. unfold float_weighted_sum. cbv zeta.
  rewrite of_decimal_175, of_decimal_12, of_decimal_6, of_Z_0.
  assert (0 <= v "taste"%string <= 6) as [A1 B1] by (apply Hv; simpl; tauto).
  assert (0 <= v "appearance"%string <= 6) as [A2 B2] by (apply Hv; simpl; tauto).
  assert (0 <= v "creativity"%string <= 6) as [A3 B3] by (apply Hv; simpl; tauto).
  assert (0 <= v "crowd_appeal"%string <= 6) as [A4 B4] by (apply Hv; simpl; tauto).
  assert (0 <= v "recipe_ties_story"%string <= 6) as [A5 B5] by (apply Hv; simpl; tauto).
  assert (0 <= v "story_brings_to_life"%string <= 6) as [A6 B6] by (apply Hv; simpl; tauto).
  assert (0 <= v "passion"%string <= 6) as [A7 B7] by (apply Hv; simpl; tauto).
  set (x1 := v "taste"%string) in *. set (x2 := v "appearance"%string) in *.
  set (x3 := v "creativity"%string) in *. set (x4 := v "crowd_appeal"%string) in *.
  set (x5 := v "recipe_ties_story"%string) in *.
  set (x6 := v "story_brings_to_life"%string) in *.
  set (x7 := v "passion"%string) in *.
  unfold exact_weighted_sum, tolerance.
  fold x1 x2 x3 x4 x5 x6 x7.
  assert (0 <= x1 * w175 /\ x1 * w175 < 8) as [T0 T8] by (unfold w175; split; Lqa.lra).
  destruct (mul_small T0 T8) as (p1 & -> & P1 & E1). clear T0 T8.
  assert (0 <= x2 * w175 /\ x2 * w175 < 8) as [T0 T8] by (unfold w175; split; Lqa.lra).
  destruct (mul_small T0 T8) as (p2 & -> & P2 & E2). clear T0 T8.
  assert (0 <= x3 * w175 /\ x3 * w175 < 8) as [T0 T8] by (unfold w175; split; Lqa.lra).
  destruct (mul_small T0 T8) as (p3 & -> & P3 & E3). clear T0 T8.
  assert (0 <= x4 * w175 /\ x4 * w175 < 8) as [T0 T8] by (unfold w175; split; Lqa.lra).
  destruct (mul_small T0 T8) as (p4 & -> & P4 & E4). clear T0 T8.
  assert (0 <= x5 * w12 /\ x5 * w12 < 8) as [T0 T8] by (unfold w12; split; Lqa.lra).
  destruct (mul_small T0 T8) as (p5 & -> & P5 & E5). clear T0 T8.
  assert (0 <= x6 * w12 /\ x6 * w12 < 8) as [T0 T8] by (unfold w12; split; Lqa.lra).
  destruct (mul_small T0 T8) as (p6 & -> & P6 & E6). clear T0 T8.
  assert (0 <= x7 * w06 /\ x7 * w06 < 8) as [T0 T8] by (unfold w06; split; Lqa.lra).
  destruct (mul_small T0 T8) as (p7 & -> & P7 & E7). clear T0 T8.
  unfold w175, w12, w06 in *.
  assert (0 <= 0 + p1 /\ 0 + p1 < 8) as [T0 T8] by (numeric_eps; split; Lqa.lra).
  destruct (add_small T0 T8) as (s1 & -> & S1 & F1). clear T0 T8.
  assert (0 <= s1 + p2 /\ s1 + p2 < 8) as [T0 T8] by (numeric_eps; split; Lqa.lra).
  destruct (add_small T0 T8) as (s2 & -> & S2 & F2). clear T0 T8.
  assert (0 <= s2 + p3 /\ s2 + p3 < 8) as [T0 T8] by (numeric_eps; split; Lqa.lra).
  destruct (add_small T0 T8) as (s3 & -> & S3 & F3). clear T0 T8.
  assert (0 <= s3 + p4 /\ s3 + p4 < 8) as [T0 T8] by (numeric_eps; split; Lqa.lra).
  destruct (add_small T0 T8) as (s4 & -> & S4 & F4). clear T0 T8.
  assert (0 <= s4 + p5 /\ s4 + p5 < 8) as [T0 T8] by (numeric_eps; split; Lqa.lra).
  destruct (add_small T0 T8) as (s5 & -> & S5 & F5). clear T0 T8.
  assert (0 <= s5 + p6 /\ s5 + p6 < 8) as [T0 T8] by (numeric_eps; split; Lqa.lra).
  destruct (add_small T0 T8) as (s6 & -> & S6 & F6). clear T0 T8.
  assert (0 <= s6 + p7 /\ s6 + p7 < 8) as [T0 T8] by (numeric_eps; split; Lqa.lra).
  destruct (add_small T0 T8) as (s7 & -> & S7 & F7). clear T0 T8.
  exists s7. split; [reflexivity|]. split; [exact S7|].
  numeric_eps. change (10 ^ 14)%positive with 100000000000000%positive.
  split; Lqa.lra.
Qed.


Lemma weighted_sum_as_float (d : dict Binary64.t) (v : string -> Q) :
  (forall key, In key Evaluator.score_keys -> scores_per_test d key = Fin (v key)) ->
  weighted_sum d = float_weighted_sum v.
Proof.
  intros H. unfold weighted_sum, float_weighted_sum, weights. cbv zeta.
  cbn [map fold_left fst snd].
  rewrite !H by (simpl; tauto). reflexivity.
Qed.

(** [round(x, 2)] of a sum between [lo] and [hi], two integers. *)
Lemma weighted_rounding (s : Q) (lo hi : Z) :
  (0 <= lo)%Z -> (hi <= 7)%Z ->
  inject_Z lo - tolerance <= s <= inject_Z hi + tolerance ->
  exists w, round2 (Fin s) = of_decimal (nearest_even (s * 100)) 2
            /\ round2 (Fin s) = Fin w
            /\ inject_Z lo <= w <= inject_Z hi
            /\ (nearest_even (s * 100) # 100) - eps <= w
               <= (nearest_even (s * 100) # 100) + eps.
Proof.
  intros Hlo Hhi [H1 H2].
  destruct (@round2_small s lo hi Hlo Hhi) as (w & Hw & Hb & Hc & _).
  - unfold tolerance in *.
    change (10 ^ 14)%positive with 100000000000000%positive in *. split; Lqa.lra.
  - exists w. split; [reflexivity|]. auto.
Qed.

(** *** The JSON tier *)

Lemma as_score_in_range (j : jval) (q : Q) :
  json_number j q -> 1 <= q <= 5 -> as_score j = Some (Fin q).
Proof.
  destruct j as [z|x|b|]; cbn [as_score json_number]; intros Hj [H1 H5].
  - subst q. change 1 with (inject_Z 1) in H1. change 5 with (inject_Z 5) in H5.
    rewrite <- Zle_Qle in H1, H5.
    assert (z = 1 \/ z = 2 \/ z = 3 \/ z = 4 \/ z = 5)%Z as Hz by lia.
    destruct Hz as [->|[->|[->|[->| ->]]]]; vm_compute; reflexivity.
  - destruct x as [x| | |]; try contradiction. subst x.
    rewrite of_Z_1, of_Z_5. cbn [leb].
    apply Qle_bool_iff in H1, H5. now rewrite H1, H5.
  - destruct b; subst q.
    + now rewrite of_Z_1.
    + exfalso. Lqa.lra.
  - contradiction.
Qed.

Lemma as_score_stays_in_range (j : jval) (x : Binary64.t) :
  as_score j = Some x -> score_range x.
Proof.
  destruct j as [z|y|b|]; cbn [as_score]; try discriminate.
  - destruct (_ && _)%bool eqn:E; [|discriminate].
    intros H. injection H as <-. apply andb_true_iff in E. destruct E as [E1 E2].
    apply Z.leb_le in E1, E2.
    assert (z = 1 \/ z = 2 \/ z = 3 \/ z = 4 \/ z = 5)%Z as Hz by lia.
    destruct Hz as [->|[->|[->|[->| ->]]]]; eexists;
      (split; [vm_compute; reflexivity | split; discriminate]).
  - rewrite of_Z_1, of_Z_5.
    destruct (_ && _)%bool eqn:E; [|discriminate].
    intros H. injection H as <-. apply andb_true_iff in E. destruct E as [E1 E2].
    destruct y as [q| | |]; simpl in E1, E2; try discriminate.
    apply Qle_bool_iff in E1, E2. exists q. split; [reflexivity|]. split; Lqa.lra.
  - destruct b; [|discriminate]. intros H. injection H as <-.
    exists 1. split; [apply of_Z_1 | split; discriminate].
Qed.

End ScoreFacts.

Module ScoreClaims.

Import PyStr Re Py Exn Binary64 Binary64Facts Evaluator64 ScoreSpec64 ScoreFacts.
Local Open Scope string_scope.
Local Open Scope Q_scope.

Section JsonTier.

Variable json_loads : string -> loaded.


End JsonTier.


(** On that reply the exact weighted sum is 1.175, which would round to
    1.18; the floats add up to 1.1749999999999998 and the weighted score
    is 1.17, as hardware floats confirm. *)
Lemma tie_text_weighs_1_17 :
  exact_weighted_sum Samples64.tie_value == 1175 # 1000
  /\ nearest_even ((1175 # 1000) * 100) = 118%Z
  /\ float_weighted_sum Samples64.tie_value
     = of_prim HardwareFloats.tie_sum
  /\ float_weighted_sum Samples64.tie_value = of_prim HardwareFloats.below_1_175
  /\ extract_scores_from_response Samples64.tie_loads Samples64.tie_text
       Samples.pie_program 3
     = Ok (Evaluation
             (map (fun key => Some (Fin (Samples64.tie_value key)))
                  Evaluator.score_keys)
             (of_decimal 117 2) 3%Z)
  /\ of_decimal 117 2 = of_prim HardwareFloats.f_1_17.
Proof.
  split; [reflexivity|]. split; [reflexivity|].
  split; [vm_compute; reflexivity|]. split; [vm_compute; reflexivity|].
  split; vm_compute; reflexivity.
Qed.

End ScoreClaims.

Module EvaluatorExamples.

Import PyFloat PyStr Py Re Evaluator.
Local Open Scope string_scope.

(** What the evaluator extracts from [Samples.pie_program]: the name keeps
    its quotes, the list items lose theirs. *)
Example extract_recipe_details_pie :
  extract_recipe_details Samples.pie_program
  = Recipe.Make None None (Some (VStr (Samples.quoted "Apple Pie")))
      (Some (VList [Some "apples"; Some "flour"]))
      (Some (VList [Some "Slice"; Some "Bake"])).
Proof. vm_compute. reflexivity. Qed.

(** An empty list of ingredients is extracted as a list holding one empty
    string, which the island then filters out. *)
Example extract_recipe_details_no_ingredients :
  Recipe.ingredients (extract_recipe_details Samples.no_ingredients_program)
  = Some (VList [Some ""])
  /\ Island.normalize_ingredients
       (Recipe.ingredients (extract_recipe_details Samples.no_ingredients_program))
     = [].
Proof. split; vm_compute; reflexivity. Qed.

(** The first brace-delimited block ends at the first closing brace. *)
Example json_block_is_shortest :
  option_map (fun m => str (group0 m)) (search json_block_re "a {x {y} z} w")
  = Some "{x {y}".
Proof. vm_compute. reflexivity. Qed.

(** The loose pattern wants a digit 1-5 standing alone: it skips the 12
    and stops at the 3 of 3.5. *)
Example loose_pattern_standalone_digit :
  option_map (fun m => option_map str (group1 m))
             (search (loose_re "taste") "Taste is 12 or 3.5")
  = Some (Some "3").
Proof. vm_compute. reflexivity. Qed.

End EvaluatorExamples.

Module StrictTierClaims.

Import PyFloat PyStr Py Re Evaluator PyFloatFacts.
Local Open Scope string_scope.

(** The strict pattern on the plain text of a quoted key, a colon and 4:
    with no brace-delimited block in the response, the second tier sets
    taste to 4.0 and leaves the other keys unset. *)
Lemma strict_tier_recovers_quoted_taste :
  forall (json_loads : string -> option (dict jval)) (recipe : string) (island_id : Z),
    search json_block_re (Samples.quoted "taste" ++ ": 4") = None
    /\ regex_tier strict_re (Samples.quoted "taste" ++ ": 4") [] = [("taste", Fin 4)]
    /\ Response.scores
         (extract_scores_from_response json_loads
            (Samples.quoted "taste" ++ ": 4") recipe island_id)
       = Some (Response.ScoresList [Some (Fin 4); None; None; None; None; None; None]).
Proof.
  intros json_loads recipe island_id. split; [|split].
  - vm_compute. reflexivity.
  - cbv -[IZR Rdiv]. repeat f_equal; lra.
  - cbv -[IZR Rdiv]. repeat f_equal; lra.
Qed.

(** C6, at the input where the code departs from it.  On the response
    text [taste: 5.9] the second tier matches the key-value pattern and
    stores 5.9 for taste, a value above 5: the pattern admits a leading
    digit 5 followed by any decimals, and the tier has no range check. *)
Theorem strict_tier_accepts_value_above_five :
  forall (json_loads : string -> option (dict jval)) (recipe : string) (island_id : Z),
    regex_tier strict_re "taste: 5.9" [] = [("taste", Fin 5.9)]
    /\ Response.scores
         (extract_scores_from_response json_loads "taste: 5.9" recipe island_id)
       = Some (Response.ScoresList [Some (Fin 5.9); None; None; None; None; None; None])
    /\ leb (Fin 5.9) (Fin 5) = false.
Proof.
  intros json_loads recipe island_id. split; [|split].
  - cbv -[IZR Rdiv]. repeat f_equal; lra.
  - cbv -[IZR Rdiv]. repeat f_equal; lra.
  - apply Rleb_false. lra.
Qed.

End StrictTierClaims.

(** ** Clusters: Cluster and Island.cluster_programs *)

Module ClusterFacts.

Import PyFloat PyFloatFacts Island ClusterSpec.

Lemma admits_Fin (c : Cluster.t) (r s : R) :
  Cluster.score c = Fin r ->
  (admits c (Fin s) = true <-> (Rabs (r - s) < 0.5)%R).
Proof.
  intros Hc. unfold admits. rewrite Hc. simpl.
  replace (r + - s)%R with (r - s)%R by lra. apply Rltb_true.
Qed.

Lemma admits_nan (c : Cluster.t) : admits c NaN = false.
Proof. unfold admits. rewrite sub_nan_r. reflexivity. Qed.

Lemma score_add_program (c : Cluster.t) (p : Row.t) (s : pyfloat) :
  Cluster.score (Cluster.add_program c p s) = Cluster.score c.
Proof. reflexivity. Qed.

Lemma seeded_add_program (c : Cluster.t) (p : Row.t) (s : pyfloat) :
  seeded c -> seeded (Cluster.add_program c p s).
Proof.
  unfold seeded. simpl. destruct (Cluster._programs c); simpl; tauto.
Qed.

Lemma seeded_init (s : pyfloat) (p : Row.t) : seeded (Cluster.init s p).
Proof. reflexivity. Qed.

Lemma add_to_first_none (clusters : list Cluster.t) (p : Row.t) (s : pyfloat) :
  add_to_first clusters p s = None <->
  Forall (fun c => admits c s = false) clusters.
Proof.
  induction clusters as [|c tl IH]; simpl.
  - split; [constructor | reflexivity].
  - fold (admits c s). destruct (admits c s) eqn:E.
    + split; [discriminate|]. intros H. inversion H; subst. congruence.
    + destruct (add_to_first tl p s); simpl; split; intros H;
        try discriminate; try reflexivity.
      * inversion H; subst. apply IH in H3. discriminate.
      * constructor; [exact E | now apply IH].
Qed.

Lemma add_to_first_some (clusters clusters' : list Cluster.t) (p : Row.t)
  (s : pyfloat) :
  add_to_first clusters p s = Some clusters' ->
  exists pre c post,
    clusters = pre ++ c :: post
    /\ Forall (fun c0 => admits c0 s = false) pre
    /\ admits c s = true
    /\ clusters' = pre ++ Cluster.add_program c p s :: post.
Proof.
  revert clusters'. induction clusters as [|c tl IH]; simpl; intros cs' H.
  - discriminate.
  - fold (admits c s) in H. destruct (admits c s) eqn:E.
    + inversion H; subst. exists [], c, tl. repeat split; auto.
    + destruct (add_to_first tl p s) as [tl'|]; [|discriminate].
      simpl in H. inversion H; subst.
      destruct (IH tl' eq_refl) as (pre & c1 & post & -> & Hpre & Hc1 & ->).
      exists (c :: pre), c1, post. repeat split; auto.
Qed.

Lemma cluster_row_scores (clusters : list Cluster.t) (row : Row.t) :
  exists new, map Cluster.score (cluster_row clusters row)
              = map Cluster.score clusters ++ new.
Proof.
  unfold cluster_row.
  destruct (add_to_first clusters row (Row.weighted_score row)) as [cs'|] eqn:E.
  - apply add_to_first_some in E.
    destruct E as (pre & c & post & -> & _ & _ & ->).
    exists []. rewrite app_nil_r, !map_app. reflexivity.
  - exists [Row.weighted_score row]. rewrite map_app. reflexivity.
Qed.

Lemma cluster_row_seeded (clusters : list Cluster.t) (row : Row.t) :
  Forall seeded clusters -> Forall seeded (cluster_row clusters row).
Proof.
  intros Hs. unfold cluster_row.
  destruct (add_to_first clusters row (Row.weighted_score row)) as [cs'|] eqn:E.
  - apply add_to_first_some in E.
    destruct E as (pre & c & post & -> & _ & _ & ->).
    apply Forall_app in Hs. destruct Hs as [Hpre Hc].
    inversion Hc; subst. apply Forall_app. split; [assumption|].
    constructor; [now apply seeded_add_program | assumption].
  - apply Forall_app. split; [assumption|]. constructor; [apply seeded_init | constructor].
Qed.

Lemma fold_cluster_row_scores (rows : list Row.t) (clusters : list Cluster.t) :
  exists new, map Cluster.score (fold_left cluster_row rows clusters)
              = map Cluster.score clusters ++ new.
Proof.
  revert clusters. induction rows as [|row tl IH]; simpl; intros clusters.
  - exists []. now rewrite app_nil_r.
  - destruct (IH (cluster_row clusters row)) as [new1 H1].
    destruct (cluster_row_scores clusters row) as [new0 H0].
    exists (new0 ++ new1). rewrite H1, H0, app_assoc. reflexivity.
Qed.

Lemma fold_cluster_row_seeded (rows : list Row.t) (clusters : list Cluster.t) :
  Forall seeded clusters -> Forall seeded (fold_left cluster_row rows clusters).
Proof.
  revert clusters. induction rows as [|row tl IH]; simpl; intros clusters H.
  - exact H.
  - apply IH. now apply cluster_row_seeded.
Qed.

End ClusterFacts.

Module ClusterFacts64.

Import Binary64 Binary64Facts Island64 ClusterSpec64.

Lemma half : of_decimal 5 1 = Fin (1 # 2).
Proof. vm_compute. reflexivity. Qed.

Lemma admits_only_close (c : Cluster64.t) (r s : Q) :
  Cluster64.score c = Fin r ->
  admits c (Fin s) = true -> (Qabs (r - s) < 1 # 2)%Q.
Proof.
  intros Hc H. unfold admits in H. rewrite Hc, half in H.
  now apply close_implies_exact.
Qed.

Lemma admits_exact (c : Cluster64.t) (r s d : Q) :
  Cluster64.score c = Fin r ->
  sub (Fin r) (Fin s) = Fin d -> (d == r - s)%Q ->
  (admits c (Fin s) = true <-> (Qabs (r - s) < 1 # 2)%Q).
Proof.
  intros Hc Hd He. unfold admits. rewrite Hc, Hd, half. cbn [abs ltb].
  rewrite Qlt_bool_true, He. reflexivity.
Qed.

Lemma admits_nonfinite (c : Cluster64.t) (s : Binary64.t) :
  admits c s = true -> exists r q, Cluster64.score c = Fin r /\ s = Fin q.
Proof.
  unfold admits. rewrite half.
  destruct (Cluster64.score c) as [r| | |], s as [q| | |]; cbn; try discriminate.
  eauto.
Qed.

Lemma seeded_add_program64 (c : Cluster64.t) (p : Row64.t) (s : Binary64.t) :
  seeded c -> seeded (Cluster64.add_program c p s).
Proof.
  unfold seeded. simpl. destruct (Cluster64._programs c); simpl; tauto.
Qed.

Lemma add_to_first_rejected (clusters : list Cluster64.t) (p : Row64.t)
  (s : Binary64.t) :
  add_to_first clusters p s = None <->
  Forall (fun c => admits c s = false) clusters.
Proof.
  induction clusters as [|c tl IH]; simpl.
  - split; [constructor | reflexivity].
  - fold (admits c s). destruct (admits c s) eqn:E.
    + split; [discriminate|]. intros H. inversion H; subst. congruence.
    + destruct (add_to_first tl p s); simpl; split; intros H;
        try discriminate; try reflexivity.
      * inversion H as [|? ? _ H3]; subst. apply IH in H3. discriminate.
      * constructor; [exact E | now apply IH].
Qed.

Lemma add_to_first_admitted (clusters clusters' : list Cluster64.t) (p : Row64.t)
  (s : Binary64.t) :
  add_to_first clusters p s = Some clusters' ->
  exists pre c post,
    clusters = pre ++ c :: post
    /\ Forall (fun c0 => admits c0 s = false) pre
    /\ admits c s = true
    /\ clusters' = pre ++ Cluster64.add_program c p s :: post.
Proof.
  revert clusters'. induction clusters as [|c tl IH]; simpl; intros cs' H.
  - discriminate.
  - fold (admits c s) in H. destruct (admits c s) eqn:E.
    + inversion H; subst. exists [], c, tl. repeat split; auto.
    + destruct (add_to_first tl p s) as [tl'|]; [|discriminate].
      simpl in H. inversion H; subst.
      destruct (IH tl' eq_refl) as (pre & c1 & post & -> & Hpre & Hc1 & ->).
      exists (c :: pre), c1, post. repeat split; auto.
Qed.

Lemma cluster_row_takes_row (clusters : list Cluster64.t) (row : Row64.t) :
  takes_row clusters row (cluster_row clusters row).
Proof.
  unfold takes_row, cluster_row. cbv zeta.
  destruct (add_to_first clusters row (Row64.weighted_score row)) as [cs'|] eqn:E.
  - left. now apply add_to_first_admitted.
  - right. apply add_to_first_rejected in E. split; [exact E | reflexivity].
Qed.

Lemma takes_row_scores (before after : list Cluster64.t) (row : Row64.t) :
  takes_row before row after ->
  exists new, map Cluster64.score after = map Cluster64.score before ++ new.
Proof.
  intros [(pre & c & post & -> & _ & _ & ->)|[_ ->]].
  - exists []. rewrite app_nil_r, !map_app. reflexivity.
  - exists [Row64.weighted_score row]. rewrite map_app. reflexivity.
Qed.

Lemma takes_row_seeded (before after : list Cluster64.t) (row : Row64.t) :
  takes_row before row after -> Forall seeded before -> Forall seeded after.
Proof.
  intros [(pre & c & post & -> & _ & _ & ->)|[_ ->]] Hs.
  - apply Forall_app in Hs. destruct Hs as [Hpre Hc].
    inversion Hc; subst. apply Forall_app. split; [assumption|].
    constructor; [now apply seeded_add_program64 | assumption].
  - apply Forall_app. split; [assumption|]. constructor; [reflexivity | constructor].
Qed.

Lemma fold_cluster_row_grows (rows : list Row64.t) (clusters : list Cluster64.t) :
  exists new, map Cluster64.score (fold_left cluster_row rows clusters)
              = map Cluster64.score clusters ++ new.
Proof.
  revert clusters. induction rows as [|row tl IH]; simpl; intros clusters.
  - exists []. now rewrite app_nil_r.
  - destruct (IH (cluster_row clusters row)) as [new1 H1].
    destruct (takes_row_scores (cluster_row_takes_row clusters row)) as [new0 H0].
    exists (new0 ++ new1). rewrite H1, H0, app_assoc. reflexivity.
Qed.

Lemma fold_cluster_row_keeps_seeded (rows : list Row64.t)
  (clusters : list Cluster64.t) :
  Forall seeded clusters -> Forall seeded (fold_left cluster_row rows clusters).
Proof.
  revert clusters. induction rows as [|row tl IH]; simpl; intros clusters H.
  - exact H.
  - apply IH. eapply takes_row_seeded; [apply cluster_row_takes_row | exact H].
Qed.

(** One more row at the end of the store. *)
Lemma cluster_programs_snoc (self : Island64.t) (programs : list Row64.t)
  (row : Row64.t) :
  _clusters (cluster_programs self (programs ++ [row]))
  = if Z.eqb (Row64.island_id row) (island_id self)
    then cluster_row (_clusters (cluster_programs self programs)) row
    else _clusters (cluster_programs self programs).
Proof.
  unfold cluster_programs, island_programs. cbn [_clusters].
  rewrite filter_app, fold_left_app. cbn [filter].
  destruct (Z.eqb (Row64.island_id row) (island_id self)); reflexivity.
Qed.

End ClusterFacts64.

Module ClusterClaims.

Import Binary64 Binary64Facts Island64 ClusterSpec64 ClusterFacts64.



(** Scores 3.0 and 3.5, which are floats, differ by exactly 0.5 and get
    a cluster each. *)
Lemma cluster_programs_separates_3_0_and_3_5 :
  _clusters (cluster_programs (Island64.Make 0 []) ClusterSamples64.store_3_0_3_5)
  = [Cluster64.init (of_decimal 30 1) (ClusterSamples64.row_scoring 0 30 1);
     Cluster64.init (of_decimal 35 1) (ClusterSamples64.row_scoring 0 35 1)].
Proof. vm_compute. reflexivity. Qed.

End ClusterClaims.

(** ** Softmax and argmax: helper.softmax, np.max, np.argmax *)

Module SoftmaxFacts.

Import PyFloat PyFloatFacts Exn Helper.
Local Open Scope R_scope.

Lemma max2_Fin (m x : R) : max2 (Fin m) (Fin x) = Fin (Rmax m x).
Proof.
  unfold max2, Rmax. simpl. unfold Rltb.
  destruct (Rlt_dec m x), (Rle_dec m x); try reflexivity.
  - exfalso; lra.
  - f_equal; lra.
Qed.

Lemma fold_max2_Fin (l : list R) (m : R) :
  fold_left max2 (map Fin l) (Fin m) = Fin (fold_left Rmax l m).
Proof.
  revert m. induction l as [|x tl IH]; simpl; intros m; [reflexivity|].
  rewrite max2_Fin. apply IH.
Qed.

Lemma fold_add_Fin (l : list R) (acc : R) :
  fold_left add (map Fin l) (Fin acc) = Fin (fold_left Rplus l acc).
Proof.
  revert acc. induction l as [|x tl IH]; simpl; intros acc; [reflexivity|].
  apply IH.
Qed.

Lemma fold_Rplus_pos (l : list R) (acc : R) :
  Forall (fun x => 0 < x) l -> acc <= fold_left Rplus l acc.
Proof.
  revert acc. induction l as [|x tl IH]; simpl; intros acc H; [lra|].
  inversion H; subst. specialize (IH (acc + x) H3). lra.
Qed.

Lemma fold_Rplus_app (l : list R) (a b : R) :
  fold_left Rplus l (a + b) = fold_left Rplus l a + b.
Proof.
  revert a. induction l as [|x tl IH]; simpl; intros a; [reflexivity|].
  rewrite <- IH. f_equal. lra.
Qed.

(** The softmax of a non-empty array of finite scores: each score [r]
    becomes [exp(r - m) / total] for one maximum [m] and one positive
    [total], and the values add up to one. *)
Lemma softmax_Fin (a : R) (l : list R) :
  exists m total : R,
    0 < total
    /\ softmax (map Fin (a :: l))
       = Ok (map Fin (map (fun r => Rtrigo_def.exp (r - m) / total) (a :: l)))
    /\ np_sum (map Fin (map (fun r => Rtrigo_def.exp (r - m) / total) (a :: l))) = Fin 1.
Proof.
  set (m := fold_left Rmax l a).
  set (es := map (fun r => Rtrigo_def.exp (r - m)) (a :: l)).
  set (total := fold_left Rplus es 0).
  assert (Forall (fun x => 0 < x) es) as Hpos.
  { unfold es. apply Forall_forall. intros x Hx. apply in_map_iff in Hx.
    destruct Hx as [r [<- _]]. apply exp_pos. }
  assert (0 < total) as Htot.
  { unfold total, es. simpl. pose proof (exp_pos (a - m)) as Ha.
    inversion Hpos; subst.
    pose proof (@fold_Rplus_pos (map (fun r => Rtrigo_def.exp (r - m)) l) (0 + Rtrigo_def.exp (a - m)) H2).
    lra. }
  exists m, total. split; [exact Htot|].
  assert (softmax (map Fin (a :: l))
          = Ok (map Fin (map (fun r => Rtrigo_def.exp (r - m) / total) (a :: l)))) as Hsm.
  { unfold softmax. change (np_max (map Fin (a :: l)))
      with (Ok (fold_left max2 (map Fin l) (Fin a))).
    rewrite fold_max2_Fin. fold m. cbn [bind].
    assert (map (fun s => PyFloat.exp (sub s (Fin m))) (map Fin (a :: l)) = map Fin es) as ->.
    { unfold es. rewrite !map_map. apply map_ext. intros r. reflexivity. }
    unfold np_sum. rewrite fold_add_Fin. fold total.
    f_equal. unfold es. rewrite !map_map. apply map_ext. intros r.
    simpl. assert (Reqb total 0 = false) as -> by (apply Reqb_false; lra).
    reflexivity. }
  split; [exact Hsm|].
  unfold np_sum. rewrite fold_add_Fin. f_equal.
  assert (forall (ys : list R) (acc : R),
            fold_left Rplus (map (fun y => y / total) ys) (acc / total)
            = fold_left Rplus ys acc / total) as Hdiv.
  { induction ys as [|y ys IH]; simpl; intros acc; [reflexivity|].
    rewrite <- IH. f_equal. field. lra. }
  change (map (fun r => Rtrigo_def.exp (r - m) / total) (a :: l))
    with (map (fun r => (fun y => y / total) ((fun r => Rtrigo_def.exp (r - m)) r)) (a :: l)).
  rewrite <- (map_map (fun r => Rtrigo_def.exp (r - m)) (fun y => y / total)). fold es.
  replace 0 with (0 / total) by (field; lra).
  rewrite Hdiv. fold total. field. lra.
Qed.

(** A strictly increasing function reflects and preserves [<=]. *)
Lemma increasing_le (f : R -> R) :
  (forall x y, x < y -> f x < f y) -> forall x y, Rleb (f x) (f y) = Rleb x y.
Proof.
  intros Hf x y. destruct (Rleb x y) eqn:E.
  - apply Rleb_true in E. apply Rleb_true.
    destruct (Rle_lt_or_eq_dec x y E) as [Hlt | ->]; [|lra].
    specialize (Hf x y Hlt). lra.
  - apply Rleb_false in E. apply Rleb_false. now apply Hf.
Qed.

Lemma argmax_from_increasing (f : R -> R) :
  (forall x y, x < y -> f x < f y) ->
  forall (l : list R) (m : R) (k i : nat),
    argmax_from (Fin (f m)) k i (map Fin (map f l))
    = argmax_from (Fin m) k i (map Fin l).
Proof.
  intros Hf. induction l as [|x tl IH]; intros m k i; simpl; [reflexivity|].
  rewrite (increasing_le f Hf). destruct (Rleb x m); apply IH.
Qed.

(** [np.argmax] is unchanged by a strictly increasing map of the scores:
    the fact behind the remark that softmax preserves order. *)
Lemma np_argmax_increasing (f : R -> R) (l : list R) :
  (forall x y, x < y -> f x < f y) ->
  np_argmax (map Fin (map f l)) = np_argmax (map Fin l).
Proof.
  intros Hf. destruct l as [|a tl]; simpl; [reflexivity|].
  f_equal. now apply argmax_from_increasing.
Qed.

Lemma softmax_increasing (m total : R) :
  0 < total -> forall x y, x < y -> Rtrigo_def.exp (x - m) / total < Rtrigo_def.exp (y - m) / total.
Proof.
  intros Ht x y Hxy. apply Rmult_lt_compat_r.
  - now apply Rinv_0_lt_compat.
  - apply exp_increasing. lra.
Qed.

(** The scan returns either the index it was given, when no later element
    exceeds the running maximum, or the position of the first element that
    is strictly above everything before it and at least everything after. *)
Lemma argmax_from_spec (l : list R) :
  forall (m : R) (k i : nat),
    let j := argmax_from (Fin m) k i (map Fin l) in
    (j = k /\ Forall (fun x => x <= m) l)
    \/ (exists n v, j = (i + n)%nat /\ nth_error l n = Some v /\ m < v
                    /\ Forall (fun x => x < v) (firstn n l)
                    /\ Forall (fun x => x <= v) l).
Proof.
  induction l as [|x tl IH]; intros m k i; simpl.
  - left. split; [reflexivity | constructor].
  - destruct (Rleb x m) eqn:E.
    + apply Rleb_true in E.
      destruct (IH m k (S i)) as [[Hj Hall] | (n & v & Hj & Hn & Hv & Hpre & Hall)].
      * left. split; [exact Hj | constructor; assumption].
      * right. exists (S n), v. simpl.
        split; [lia|]. split; [exact Hn|]. split; [exact Hv|].
        split; constructor; solve [lra | assumption].
    + apply Rleb_false in E.
      destruct (IH x i (S i)) as [[Hj Hall] | (n & v & Hj & Hn & Hv & Hpre & Hall)].
      * right. exists 0%nat, x. simpl.
        split; [lia|]. split; [reflexivity|]. split; [exact E|].
        split; constructor; solve [lra | assumption].
      * right. exists (S n), v. simpl.
        split; [lia|]. split; [exact Hn|]. split; [lra|].
        split; constructor; solve [lra | assumption].
Qed.

(** On finite scores [np.argmax] returns the first index of the maximum. *)
Lemma np_argmax_Fin (a : R) (l : list R) :
  exists j v,
    np_argmax (map Fin (a :: l)) = Ok j
    /\ nth_error (a :: l) j = Some v
    /\ Forall (fun x => x < v) (firstn j (a :: l))
    /\ Forall (fun x => x <= v) (a :: l).
Proof.
  simpl. destruct (argmax_from_spec l a 0 1)
    as [[Hj Hall] | (n & v & Hj & Hn & Hv & Hpre & Hall)].
  - exists 0%nat, a. rewrite Hj. simpl.
    split; [reflexivity|]. split; [reflexivity|].
    split; constructor; solve [lra | assumption].
  - exists (S n), v. rewrite Hj. simpl.
    split; [reflexivity|]. split; [exact Hn|].
    split; constructor; solve [lra | assumption].
Qed.

(** The scan stays within the array. *)
Lemma argmax_from_bound (l : list pyfloat) :
  forall (mp : pyfloat) (k i : nat),
    (k < i)%nat -> (argmax_from mp k i l < i + List.length l)%nat.
Proof.
  induction l as [|x tl IH]; intros mp k i Hk; simpl.
  - lia.
  - destruct (leb x mp).
    + specialize (IH mp k (S i)). lia.
    + destruct (isnan x); [lia|]. specialize (IH x i (S i)). lia.
Qed.

Lemma np_argmax_bound (x : pyfloat) (l : list pyfloat) :
  exists j, np_argmax (x :: l) = Ok j /\ (j < List.length (x :: l))%nat.
Proof.
  simpl. destruct (isnan x).
  - exists 0%nat. split; [reflexivity | lia].
  - exists (argmax_from x 0 1 l). split; [reflexivity|].
    pose proof (@argmax_from_bound l x 0%nat 1%nat). lia.
Qed.

(** [np.max] keeps a [nan] once one is met. *)
Lemma fold_max2_nan (l : list pyfloat) : fold_left max2 l NaN = NaN.
Proof. induction l as [|x tl IH]; simpl; [reflexivity | exact IH]. Qed.

Lemma fold_max2_exists_nan (l : list pyfloat) (m : pyfloat) :
  Exists (fun x => isnan x = true) (m :: l) -> fold_left max2 l m = NaN.
Proof.
  revert m. induction l as [|x tl IH]; intros m H; simpl.
  - inversion H as [? ? Hm | ? ? Hm]; subst; [|inversion Hm].
    destruct m; simpl in Hm; congruence.
  - apply IH. inversion H as [? ? Hm | ? ? Hm]; subst.
    + destruct m; simpl in Hm; try discriminate. apply Exists_cons_hd. reflexivity.
    + inversion Hm as [? ? Hx | ? ? Hx]; subst.
      * apply Exists_cons_hd. unfold max2. destruct (isnan m) eqn:Em; [exact Em|].
        rewrite Hx. exact Hx.
      * now apply Exists_cons_tl.
Qed.

(** With a [nan] among the scores every softmax value is [nan]. *)
Lemma softmax_nan (x : pyfloat) (l : list pyfloat) :
  Exists (fun y => isnan y = true) (x :: l) ->
  softmax (x :: l) = Ok (map (fun _ => NaN) (x :: l)).
Proof.
  intros H. unfold softmax.
  change (np_max (x :: l)) with (Ok (fold_left max2 l x)).
  rewrite (fold_max2_exists_nan H). cbn [bind]. f_equal.
  rewrite map_map. apply map_ext. intros s. rewrite sub_nan_r. reflexivity.
Qed.

Lemma softmax_length (x : pyfloat) (l : list pyfloat) :
  exists sm, softmax (x :: l) = Ok sm /\ List.length sm = List.length (x :: l).
Proof.
  unfold softmax. change (np_max (x :: l)) with (Ok (fold_left max2 l x)).
  cbn [bind]. eexists. split; [reflexivity|]. now rewrite !length_map.
Qed.

End SoftmaxFacts.

(** ** Cluster.get_best_program *)

Module BestProgramFacts.

Import PyFloat PyFloatFacts Exn Helper ClusterSpec SoftmaxFacts.

Lemma finite_scores (programs : list Entry.t) :
  Forall (fun e => isfinite (Entry.score e) = true) programs ->
  exists rs, map Entry.score programs = map Fin rs.
Proof.
  induction 1 as [|e tl He _ [rs IH]].
  - exists []. reflexivity.
  - apply isfinite_Fin in He. destruct He as [r Hr].
    exists (r :: rs). simpl. now rewrite Hr, IH.
Qed.

Lemma Forall_through_map {A B C : Type} (f : A -> C) (g : B -> C)
  (Q : C -> Prop) (xs : list A) :
  forall ys : list B,
    map f xs = map g ys ->
    Forall (fun y => Q (g y)) ys -> Forall (fun x => Q (f x)) xs.
Proof.
  induction xs as [|x xs IH]; intros [|y ys] Heq H; simpl in Heq;
    try discriminate; constructor.
  - injection Heq as Hx _. inversion H; subst. now rewrite Hx.
  - injection Heq as _ Htl. inversion H; subst. eapply IH; eauto.
Qed.

End BestProgramFacts.

Module BestProgramClaims.

Import PyFloat PyFloatFacts Exn Helper ClusterSpec SoftmaxFacts BestProgramFacts.

(** C5.  For a non-empty cluster whose member scores are all real
    numbers, [get_best_program] returns the member at the argmax of the
    softmax of the scores; that index is also the argmax of the raw
    scores, and the member returned has the highest raw score and is the
    first member with it. *)
Theorem get_best_program_is_first_highest_score :
  forall c : Cluster.t,
    Cluster._programs c <> [] ->
    Forall (fun e => isfinite (Entry.score e) = true) (Cluster._programs c) ->
    exists (j : nat) (best : Entry.t) (softmax_scores : list pyfloat),
      softmax (map Entry.score (Cluster._programs c)) = Ok softmax_scores
      /\ np_argmax softmax_scores = Ok j
      /\ np_argmax (map Entry.score (Cluster._programs c)) = Ok j
      /\ Cluster.get_best_program c = Ok best
      /\ nth_error (Cluster._programs c) j = Some best
      /\ Forall (fun e => leb (Entry.score e) (Entry.score best) = true)
                (Cluster._programs c)
      /\ Forall (fun e => ltb (Entry.score e) (Entry.score best) = true)
                (firstn j (Cluster._programs c)).
Proof.
  intros c Hne Hfin.
  destruct (finite_scores Hfin) as [rs Hrs].
  destruct rs as [|a l].
  { destruct (Cluster._programs c); [contradiction | discriminate]. }
  destruct (softmax_Fin a l) as (m & total & Htot & Hsm & _).
  destruct (np_argmax_Fin a l) as (j & v & Hj & Hv & Hpre & Hall).
  assert (nth_error (map Entry.score (Cluster._programs c)) j = Some (Fin v)) as Hnth.
  { rewrite Hrs. now apply map_nth_error. }
  rewrite nth_error_map in Hnth.
  destruct (nth_error (Cluster._programs c) j) as [best|] eqn:Hbest; [|discriminate].
  simpl in Hnth. inversion Hnth as [Hscore].
  exists j, best, (map Fin (map (fun r => (Rtrigo_def.exp (r - m) / total)%R) (a :: l))).
  assert (np_argmax (map Fin (map (fun r => (Rtrigo_def.exp (r - m) / total)%R) (a :: l)))
          = Ok j) as Hj'.
  { rewrite np_argmax_increasing; [exact Hj | now apply softmax_increasing]. }
  split; [now rewrite Hrs|]. split; [exact Hj'|]. split; [now rewrite Hrs|].
  split.
  { unfold Cluster.get_best_program. rewrite Hrs, Hsm. cbn [bind].
    rewrite Hj'. cbn [bind]. now rewrite Hbest. }
  split; [exact Hbest|]. rewrite Hscore. split.
  - apply (Forall_through_map Entry.score Fin (fun s => leb s (Fin v) = true) _ Hrs).
    eapply Forall_impl; [|exact Hall]. intros x Hx. now apply leb_Fin.
  - apply (Forall_through_map Entry.score Fin (fun s => ltb s (Fin v) = true)
             (firstn j (Cluster._programs c)) (ys := firstn j (a :: l))).
    + now rewrite <- !firstn_map, Hrs.
    + eapply Forall_impl; [|exact Hpre]. intros x Hx. now apply ltb_Fin.
Qed.

(** On members scoring 2.0, 5.0 and 3.0 the member scoring 5.0 is returned. *)
Lemma get_best_program_2_5_3 :
  Cluster.get_best_program Samples.cluster_2_5_3
  = Ok (Entry.Make (Samples.row_with 0 (Fin 5)) (Fin 5)).
Proof.
  destruct (@get_best_program_is_first_highest_score Samples.cluster_2_5_3)
    as (j & best & sm & _ & _ & _ & Hbest & Hnth & Hall & _).
  - discriminate.
  - repeat constructor.
  - rewrite Hbest. f_equal. apply nth_error_In in Hnth.
    simpl in Hall. inversion Hall as [|? ? _ Hall']; subst.
    inversion Hall' as [|? ? H5 _]; subst. simpl in H5.
    simpl in Hnth. destruct Hnth as [<- | [<- | [<- | []]]].
    + simpl in H5. apply Rleb_true in H5. exfalso. lra.
    + reflexivity.
    + simpl in H5. apply Rleb_true in H5. exfalso. lra.
Defined.

End BestProgramClaims.

(** ** Cluster.get_best_program on every cluster the class builds *)

Module ClusterClassFacts.

Import PyFloat PyFloatFacts Exn Helper ClusterClass ClusterClassSpec SoftmaxFacts.

Lemma built_has_first (c : ClusterClass.t) :
  built c -> exists first rest, _programs c = first :: rest.
Proof.
  induction 1 as [s p | c p s _ (first & rest & IH) | c p _ (first & rest & IH)];
    simpl.
  - eauto.
  - rewrite IH. simpl. eauto.
  - rewrite IH. simpl. eauto.
Qed.

Lemma scores_of_bare (programs : list member) :
  Exists (fun p => has_score p = false) programs ->
  scores_of programs = Raise KeyError.
Proof.
  induction 1 as [p tl Hp | p tl _ IH]; simpl.
  - destruct p; [discriminate | reflexivity].
  - destruct p as [e|q]; simpl; [|reflexivity]. now rewrite IH.
Qed.

Lemma scores_of_scored (programs : list member) :
  Forall (fun p => has_score p = true) programs ->
  exists ss, scores_of programs = Ok ss
             /\ List.length ss = List.length programs
             /\ (Exists (fun p => has_nan_score p = true) programs ->
                 Exists (fun y => isnan y = true) ss).
Proof.
  induction 1 as [|p tl Hp _ (ss & IH & Hlen & Hnan)]; simpl.
  - exists []. repeat split. intros H. inversion H.
  - destruct p as [e|q]; [|discriminate]. simpl. rewrite IH. simpl.
    exists (Entry.score e :: ss). split; [reflexivity|]. split; [simpl; now rewrite Hlen|].
    intros H. inversion H as [? ? H1|? ? H1]; subst.
    + now apply Exists_cons_hd.
    + apply Exists_cons_tl. now apply Hnan.
Qed.

End ClusterClassFacts.

Module ClusterClassClaims.

Import PyFloat PyFloatFacts Exn Helper ClusterClass ClusterClassSpec SoftmaxFacts.
Import ClusterClassFacts.

(** C8 (as amended).  A cluster built through the class (the constructor,
    then [add_program] and [register_program] in any order) always has a
    first member.  If [register_program] was used, so that some member has
    no key [score], [get_best_program] raises [KeyError].  If every member
    carries a score, it does not raise, whatever the scores are: it
    returns one of the members, and the first member when some score is
    [nan]. *)
Theorem get_best_program_on_built_clusters :
  forall c : ClusterClass.t,
    built c ->
    exists first rest,
      _programs c = first :: rest
      /\ (Exists (fun p => has_score p = false) (_programs c) ->
          get_best_program c = Raise KeyError)
      /\ (Forall (fun p => has_score p = true) (_programs c) ->
          (exists best, get_best_program c = Ok best /\ In best (_programs c))
          /\ (Exists (fun p => has_nan_score p = true) (_programs c) ->
              get_best_program c = Ok first)).
Proof.
  intros c Hb. destruct (built_has_first Hb) as (first & rest & Hp).
  exists first, rest. split; [exact Hp|]. split.
  - intros Hbare. unfold get_best_program.
    now rewrite (scores_of_bare Hbare).
  - intros Hall. destruct (scores_of_scored Hall) as (ss & Hss & Hlen & Hnan).
    rewrite Hp in Hlen. destruct ss as [|x l]; [discriminate|]. split.
    + unfold get_best_program. rewrite Hss. cbn [bind].
      destruct (softmax_length x l) as (sm & Hsm & Hl).
      rewrite Hsm. cbn [bind]. destruct sm as [|y sm]; [discriminate|].
      destruct (np_argmax_bound y sm) as (j & Hj & Hlt).
      rewrite Hj. cbn [bind].
      destruct (nth_error (_programs c) j) as [best|] eqn:E.
      * exists best. split; [reflexivity|]. eapply nth_error_In; exact E.
      * apply nth_error_None in E. rewrite Hp in E. rewrite Hl, Hlen in Hlt. lia.
    + intros Hex. unfold get_best_program. rewrite Hss. cbn [bind].
      rewrite (softmax_nan (Hnan Hex)). cbn [bind map np_argmax isnan].
      rewrite Hp. reflexivity.
Qed.

(** On members scoring 1.0, nan and 3.0 the first member is returned. *)
Lemma get_best_program_scored_1_nan_3 :
  get_best_program ClusterClassSamples.scored_1_nan_3
  = Ok (Scored (Entry.Make (Samples.row_with 0 (Fin 1)) (Fin 1))).
Proof.
  destruct (@get_best_program_on_built_clusters ClusterClassSamples.scored_1_nan_3)
    as (first & rest & Hp & _ & Hscored).
  - unfold ClusterClassSamples.scored_1_nan_3. repeat constructor.
  - simpl in Hp. injection Hp as <- _. apply Hscored.
    + repeat constructor.
    + simpl. apply Exists_cons_tl, Exists_cons_hd. reflexivity.
Defined.

(** The specification's wording of C8 fails on a cluster the class
    builds: after [Cluster(4.0, p)] and [register_program(p)] the second
    member has no key [score], and [get_best_program] raises [KeyError]. *)
Lemma get_best_program_raises_after_register_program :
  built ClusterClassSamples.registered
  /\ get_best_program ClusterClassSamples.registered = Raise KeyError.
Proof.
  split; [|reflexivity].
  unfold ClusterClassSamples.registered. repeat constructor.
Qed.

End ClusterClassClaims.

(** ** Island.rank_programs *)

Module RankFacts.

Import PyFloat PyFloatFacts Exn Helper SoftmaxFacts Island.

Lemma insert_desc_perm (x : ranked_row) (l : list ranked_row) :
  Permutation (insert_desc x l) (x :: l).
Proof.
  induction l as [|y tl IH]; simpl; [reflexivity|].
  destruct (sorts_after (snd x) (snd y)); [|reflexivity].
  rewrite IH. apply perm_swap.
Qed.

Lemma sort_values_desc_perm (l : list ranked_row) :
  Permutation (sort_values_desc l) l.
Proof.
  induction l as [|x tl IH]; simpl; [reflexivity|].
  rewrite insert_desc_perm. now constructor.
Qed.

Lemma map_snd_combine {A B : Type} (xs : list A) :
  forall ys : list B,
    List.length xs = List.length ys -> map snd (combine xs ys) = ys.
Proof.
  induction xs as [|x xs IH]; intros [|y ys] H; simpl in *; try discriminate;
    [reflexivity|]. f_equal. apply IH. lia.
Qed.

Lemma map_fst_combine {A B : Type} (xs : list A) :
  forall ys : list B,
    List.length xs = List.length ys -> map fst (combine xs ys) = xs.
Proof.
  induction xs as [|x xs IH]; intros [|y ys] H; simpl in *; try discriminate;
    [reflexivity|]. f_equal. apply IH. lia.
Qed.

Lemma fold_Rplus_perm (l l' : list R) :
  Permutation l l' -> forall acc, fold_left Rplus l acc = fold_left Rplus l' acc.
Proof.
  induction 1 as [|x l l' _ IH|x y l|l l' l'' _ IH1 _ IH2]; intros acc; simpl.
  - reflexivity.
  - apply IH.
  - f_equal. lra.
  - now rewrite IH1.
Qed.

(** The sum of finite values does not depend on their order. *)
Lemma np_sum_perm_Fin (xs : list pyfloat) (ys : list R) :
  Permutation xs (map Fin ys) -> np_sum xs = np_sum (map Fin ys).
Proof.
  intros H. apply Permutation_map_inv in H. destruct H as (zs & -> & Hp).
  unfold np_sum. rewrite !fold_add_Fin. f_equal.
  apply fold_Rplus_perm. now symmetry.
Qed.

Lemma finite_weighted (rows : list Row.t) :
  Forall (fun r => isfinite (Row.weighted_score r) = true) rows ->
  exists rs, map Row.weighted_score rows = map Fin rs.
Proof.
  induction 1 as [|e tl He _ [rs IH]].
  - exists []. reflexivity.
  - apply isfinite_Fin in He. destruct He as [r Hr].
    exists (r :: rs). simpl. now rewrite Hr, IH.
Qed.

End RankFacts.

Module RankClaims.

Import PyFloat PyFloatFacts Exn Helper SoftmaxFacts Island RankFacts.

(** C7 (as amended).  [rank_programs] leaves the store as it found it, and
    a second call with no registration in between returns the same frame,
    rows and softmax values alike.  When the island has at least one row
    and the weighted scores of its rows are all finite, the call returns a
    frame holding the island's rows, and its softmax values add up to one. *)
Theorem rank_programs_idempotent_and_normalized :
  forall (self : Island.t) (programs : list Row.t),
    let first := rank_programs self programs in
    let second := rank_programs self (snd first) in
    snd first = programs
    /\ second = first
    /\ (island_programs self programs <> [] ->
        Forall (fun r => isfinite (Row.weighted_score r) = true)
               (island_programs self programs) ->
        exists ranked,
          fst first = Ok ranked
          /\ Permutation (map fst ranked) (island_programs self programs)
          /\ np_sum (map snd ranked) = Fin 1).
Proof.
  intros self programs first second.
  assert (snd first = programs) as Hsnd.
  { unfold first, rank_programs. destruct (island_programs self programs); reflexivity. }
  split; [exact Hsnd|]. split; [unfold second; now rewrite Hsnd|].
  intros Hne Hfin. unfold first, rank_programs.
  destruct (finite_weighted Hfin) as [rs Hrs].
  destruct (island_programs self programs) as [|row rows] eqn:Hrows; [contradiction|].
  destruct rs as [|a l]; [discriminate|].
  destruct (softmax_Fin a l) as (m & total & Htot & Hsm & Hone).
  rewrite Hrs, Hsm. cbn [bind fst].
  set (sm := map (fun r => (Rtrigo_def.exp (r - m) / total)%R) (a :: l)) in *.
  assert (List.length (row :: rows) = List.length (map Fin sm)) as Hlen.
  { unfold sm. rewrite !length_map. rewrite <- (length_map Fin (a :: l)), <- Hrs.
    now rewrite length_map. }
  eexists. split; [reflexivity|]. split.
  - rewrite (Permutation_map fst (sort_values_desc_perm _)).
    now rewrite map_fst_combine.
  - rewrite <- Hone. apply np_sum_perm_Fin.
    rewrite (Permutation_map snd (sort_values_desc_perm _)).
    now rewrite map_snd_combine.
Qed.

(** The theorem on a store with two rows of island 0 and one of island 1. *)
Lemma rank_programs_two_rows :
  exists ranked,
    fst (rank_programs (Island.init 0)
           [Samples.row_with 0 (Fin 3); Samples.row_with 1 (Fin 2);
            Samples.row_with 0 (Fin 4)]) = Ok ranked
    /\ Permutation (map fst ranked)
         [Samples.row_with 0 (Fin 3); Samples.row_with 0 (Fin 4)]
    /\ np_sum (map snd ranked) = Fin 1.
Proof.
  apply (rank_programs_idempotent_and_normalized (Island.init 0)
           [Samples.row_with 0 (Fin 3); Samples.row_with 1 (Fin 2);
            Samples.row_with 0 (Fin 4)]).
  - discriminate.
  - repeat constructor.
Defined.

(** The specification's wording of C7 fails on a store that holds a row
    with an infinite weighted score, which registration accepts: the
    softmax value attached is [nan], and so is the sum. *)
Lemma rank_programs_infinite_score_sums_to_nan :
  fst (rank_programs (Island.init 0) [Samples.row_with 0 PInf])
  = Ok [(Samples.row_with 0 PInf, NaN)]
  /\ np_sum [NaN] = NaN.
Proof. split; reflexivity. Qed.

End RankClaims.

(** ** Island.initialize_programs *)

Module InitializeFacts.

Import PyFloat PyStr Py Island.

Section Loop.

Variable extract_recipe_details : string -> Recipe.t.
Variable generate_recipe : nat -> string.
Variable evaluate : nat -> Response.t.

(** With bounded retries the loop returns once [fuel] covers the attempts
    left, and the number of attempts it reports is within the cap. *)
Lemma initialize_loop_terminates (cap : nat) :
  forall (fuel attempt : nat) (self : Island.t) (programs : list Row.t),
    1 <= fuel -> cap - attempt <= fuel ->
    exists n self' programs',
      initialize_loop extract_recipe_details generate_recipe evaluate cap false fuel attempt self programs = Some (n, self', programs')
      /\ attempt < n <= Nat.max cap (S attempt).
Proof.
  induction fuel as [|fuel IH]; intros attempt self programs H1 Hfuel; [lia|].
  simpl.
  assert (forall s p, (cap <=? S attempt) = false ->
            exists n self' programs',
              initialize_loop extract_recipe_details generate_recipe evaluate cap false fuel (S attempt) s p = Some (n, self', programs')
              /\ attempt < n <= Nat.max cap (S attempt)) as Hrec.
  { intros s p Hcap. apply Nat.leb_gt in Hcap.
    destruct (IH (S attempt) s p) as (n & s' & p' & Hn & Hb); [lia | lia |].
    exists n, s', p'. split; [exact Hn | lia]. }
  destruct (nonempty (generate_recipe (S attempt))); simpl.
  - destruct (register_and_evaluate_program _ _ _ _ _ _) as [self' programs'].
    destruct (List.length programs <? List.length programs').
    + exists (S attempt), self', programs'. split; [reflexivity | lia].
    + destruct (cap <=? S attempt) eqn:Hcap.
      * exists (S attempt), self', programs'. split; [reflexivity | lia].
      * now apply Hrec.
  - destruct (cap <=? S attempt) eqn:Hcap.
    + exists (S attempt), self, programs. split; [reflexivity | lia].
    + now apply Hrec.
Qed.

(** While the generator returns empty text below the cap, the loop only
    counts attempts. *)
Lemma initialize_loop_skips_empty (cap : nat) (self : Island.t)
  (programs : list Row.t) :
  forall (d fuel attempt : nat),
    (forall k, attempt < k <= attempt + d -> generate_recipe k = EmptyString) ->
    attempt + d < cap ->
    initialize_loop extract_recipe_details generate_recipe evaluate cap false (d + fuel) attempt self programs
    = initialize_loop extract_recipe_details generate_recipe evaluate cap false fuel (attempt + d) self programs.
Proof.
  induction d as [|d IH]; intros fuel attempt Hgen Hcap.
  - now rewrite Nat.add_0_r.
  - simpl. rewrite (Hgen (S attempt)) by lia. simpl.
    assert ((cap <=? S attempt) = false) as -> by (apply Nat.leb_gt; lia).
    rewrite IH; [f_equal; lia | intros k Hk; apply Hgen; lia | lia].
Qed.

End Loop.

End InitializeFacts.

Module InitializeClaims.

Import PyFloat PyStr Py Island InitializeFacts.

(** C3.  With [allow_infinite_retries] false, [initialize_programs]
    returns after at most 100 attempts, whatever the generator and the
    evaluator reply, and raises nothing.  If the generator returns empty
    text on its first 99 calls and a registrable payload on the 100th, the
    run registers that artifact on attempt 100 and the store grows by one;
    the same loop with a cap of 50 stops after attempt 50 with the island
    and the store unchanged. *)
Theorem initialize_programs_bounded :
  forall (extract_recipe_details : string -> Recipe.t)
         (generate_recipe : nat -> string) (evaluate : nat -> Response.t)
         (self : Island.t) (programs : list Row.t) (fuel : nat) (row : Row.t),
    100 <= fuel ->
    (exists n self' programs',
       initialize_programs extract_recipe_details generate_recipe evaluate
         false fuel self programs = Some (n, self', programs')
       /\ 1 <= n <= 100)
    /\ ((forall k, 1 <= k <= 99 -> generate_recipe k = EmptyString) ->
        nonempty (generate_recipe 100) = true ->
        formatted_data extract_recipe_details (generate_recipe 100)
          (island_id self) (evaluate 100) = Some row ->
        initialize_programs extract_recipe_details generate_recipe evaluate
          false fuel self programs
        = Some (100, _update_best_program self row, programs ++ [row])
        /\ initialize_loop extract_recipe_details generate_recipe evaluate
             50 false fuel 0 self programs
           = Some (50, self, programs)).
Proof.
  intros extract gen ev self programs fuel row Hfuel. split.
  - destruct (@initialize_loop_terminates extract gen ev 100 fuel 0 self programs)
      as (n & s & p & Hn & Hb); [lia | lia |].
    exists n, s, p. split; [exact Hn | simpl in Hb; lia].
  - intros Hempty Hne Hrow. split.
    + unfold initialize_programs, max_total_attempts.
      replace fuel with (99 + (fuel - 99)) by lia.
      rewrite initialize_loop_skips_empty; [|intros k Hk; apply Hempty; lia | lia].
      destruct (fuel - 99) as [|f] eqn:Hf; [lia|].
      cbn [initialize_loop Nat.add]. rewrite Hne. cbn [negb].
      unfold register_and_evaluate_program, register_extracted.
      fold (formatted_data extract (gen 100) (island_id self) (ev 100)).
      rewrite Hrow. rewrite length_app. simpl List.length.
      assert ((List.length programs <? List.length programs + 1) = true) as ->
        by (apply Nat.ltb_lt; lia).
      reflexivity.
    + replace fuel with (49 + (fuel - 49)) by lia.
      rewrite initialize_loop_skips_empty; [|intros k Hk; apply Hempty; lia | lia].
      destruct (fuel - 49) as [|f] eqn:Hf; [lia|].
      cbn [initialize_loop Nat.add]. rewrite (Hempty 50) by lia. reflexivity.
Qed.

(** The theorem with a generator that answers on its 100th call only. *)
Lemma initialize_programs_late_generator :
  initialize_programs Evaluator.extract_recipe_details Samples.late_generator
    Samples.steady_evaluator false 100 (Island.init 0) []
  = Some (100, _update_best_program (Island.init 0) (Samples.pie_row (Fin 4)),
          [Samples.pie_row (Fin 4)])
  /\ initialize_loop Evaluator.extract_recipe_details Samples.late_generator
       Samples.steady_evaluator 50 false 100 0 (Island.init 0) []
     = Some (50, Island.init 0, []).
Proof.
  destruct (@initialize_programs_bounded Evaluator.extract_recipe_details
              Samples.late_generator Samples.steady_evaluator (Island.init 0) []
              100 (Samples.pie_row (Fin 4)) (le_n 100)) as [_ H].
  apply H.
  - intros k Hk. unfold Samples.late_generator.
    destruct (Nat.eqb_spec k 100); [lia | reflexivity].
  - vm_compute. reflexivity.
  - vm_compute. reflexivity.
Defined.

End InitializeClaims.

(** ** Interleaved registrations *)

Module RegistrationFacts.

Import Island Registration RegistrationSpec.

Section Schedule.

Variable extract_recipe_details : string -> Recipe.t.

Lemma set_nth_split {A : Type} (x : A) (l : list A) :
  forall (i : nat) (y : A),
    nth_error l i = Some y ->
    exists pre post, l = pre ++ y :: post /\ set_nth i x l = pre ++ x :: post.
Proof.
  induction l as [|z tl IH]; intros [|i] y H; simpl in H; try discriminate.
  - injection H as ->. exists [], tl. split; reflexivity.
  - destruct (IH i y H) as (pre & post & -> & Hs).
    exists (z :: pre), post. simpl. rewrite Hs. split; reflexivity.
Qed.

Lemma count_passing_pending (ts : list task) :
  count_passing extract_recipe_details ts
  = List.length (pending_rows extract_recipe_details ts).
Proof.
  unfold count_passing, pending_rows.
  induction ts as [|t tl IH]; simpl; [reflexivity|].
  rewrite length_app, <- IH.
  destruct t as [i p iid r | i rc iid r |]; simpl;
    try destruct (format_recipe _ _ _); reflexivity.
Qed.

Lemma all_returned_no_pending (ts : list task) :
  forallb returned ts = true -> pending_rows extract_recipe_details ts = [].
Proof.
  induction ts as [|t tl IH]; simpl; [reflexivity|].
  intros H. apply andb_prop in H. destruct H as [Ht Htl].
  destruct t; try discriminate. simpl. now apply IH.
Qed.

Lemma accounted_refl (sys : system) : accounted extract_recipe_details sys sys.
Proof. exists []. split; [now rewrite app_nil_r | reflexivity]. Qed.

Lemma step_accounted (sys0 sys : system) (i : nat) :
  accounted extract_recipe_details sys0 sys ->
  accounted extract_recipe_details sys0 (step extract_recipe_details sys i).
Proof.
  intros (new & Hp & Hperm). unfold step.
  destruct (nth_error (tasks sys) i) as [[isl p iid r | isl rc iid r |]|] eqn:E;
    try (exists new; split; assumption).
  - destruct (set_nth_split (Awaited isl (extract_recipe_details p) iid r) _ _ E)
      as (pre & post & Hts & Hset).
    exists new. cbn [programs tasks]. split; [exact Hp|].
    rewrite Hset. rewrite Hts in Hperm. unfold pending_rows in *.
    rewrite flat_map_app in *. exact Hperm.
  - destruct (set_nth_split Returned _ _ E) as (pre & post & Hts & Hset).
    unfold register_extracted.
    rewrite Hts in Hperm. unfold pending_rows in Hperm.
    rewrite flat_map_app in Hperm. cbn [flat_map row_of] in Hperm.
    destruct (format_recipe rc iid r) as [row|]; cbn [to_list] in Hperm.
    + exists (new ++ [row]). cbn [programs tasks].
      split; [now rewrite Hp, app_assoc|].
      rewrite Hset. unfold pending_rows. rewrite flat_map_app.
      cbn [flat_map row_of]. rewrite <- Hperm.
      rewrite <- !app_assoc. apply Permutation_app_head. simpl.
      apply Permutation_middle.
    + exists new. cbn [programs tasks]. split; [exact Hp|].
      rewrite Hset. unfold pending_rows. rewrite flat_map_app. exact Hperm.
Qed.

Lemma run_accounted (schedule : list nat) :
  forall sys0 sys,
    accounted extract_recipe_details sys0 sys ->
    accounted extract_recipe_details sys0 (run extract_recipe_details schedule sys).
Proof.
  induction schedule as [|i tl IH]; intros sys0 sys H; simpl; [exact H|].
  apply IH. now apply step_accounted.
Qed.

End Schedule.

End RegistrationFacts.

Module RegistrationClaims.

Import Island Registration RegistrationSpec RegistrationFacts.

(** C9.  Whatever the order in which the scheduled calls of
    [register_and_evaluate_program] run their segments, once all of them
    have returned the store is the initial store followed by the rows of
    the calls that pass validation on their own, each exactly once, in
    some order; so its length has grown by exactly the number of those
    calls. *)
Theorem interleaved_registrations_append_each_valid_row_once :
  forall (extract_recipe_details : string -> Recipe.t)
         (schedule : list nat) (sys : system),
    all_returned (run extract_recipe_details schedule sys) = true ->
    exists new,
      programs (run extract_recipe_details schedule sys) = programs sys ++ new
      /\ Permutation new (pending_rows extract_recipe_details (tasks sys))
      /\ List.length (programs (run extract_recipe_details schedule sys))
         = List.length (programs sys)
           + count_passing extract_recipe_details (tasks sys).
Proof.
  intros extract schedule sys Hdone.
  destruct (@run_accounted extract schedule sys sys (@accounted_refl extract sys))
    as (new & Hp & Hperm).
  unfold all_returned in Hdone.
  rewrite (@all_returned_no_pending extract _ Hdone), app_nil_r in Hperm.
  exists new. split; [exact Hp|]. split; [exact Hperm|].
  rewrite Hp, length_app, count_passing_pending.
  now rewrite (Permutation_length Hperm).
Qed.

(** Three calls on two islands, two of them valid, under one interleaving. *)
Lemma interleaved_registrations_three_calls :
  List.length
    (programs (run Evaluator.extract_recipe_details [2; 0; 1; 1; 0; 2]
                   Samples.three_calls_system)) = 2.
Proof.
  destruct (@interleaved_registrations_append_each_valid_row_once
              Evaluator.extract_recipe_details [2; 0; 1; 1; 0; 2]
              Samples.three_calls_system) as (new & _ & _ & Hlen).
  - vm_compute. reflexivity.
  - rewrite Hlen. vm_compute. reflexivity.
Defined.

End RegistrationClaims.

(** ** The driver: fun_search_optimization *)

Module DriverFacts.

Import PyFloat PyStr Py Exn Island FunSearch DriverSpec.

Section Driver.

Variable extract_recipe_details : string -> Recipe.t.

Lemma extends_refl (programs : list Row.t) : extends extract_recipe_details programs programs.
Proof. exists []. split; [now rewrite app_nil_r | constructor]. Qed.

Lemma extends_trans (p1 p2 p3 : list Row.t) :
  extends extract_recipe_details p1 p2 -> extends extract_recipe_details p2 p3 -> extends extract_recipe_details p1 p3.
Proof.
  intros (n1 & -> & H1) (n2 & -> & H2). exists (n1 ++ n2).
  split; [now rewrite app_assoc | now apply Forall_app].
Qed.

Lemma register_extends (self : Island.t) (program : string) (island_id : Z)
  (response : Response.t) (programs : list Row.t) :
  extends extract_recipe_details programs
    (snd (register_and_evaluate_program extract_recipe_details self program
            island_id response programs)).
Proof.
  unfold register_and_evaluate_program, register_extracted.
  destruct (format_recipe _ _ _) as [row|] eqn:E; simpl.
  - exists [row]. split; [reflexivity|]. constructor; [|constructor].
    exists program, island_id, response. exact E.
  - apply extends_refl.
Qed.

Section Seed.

Variable generate_recipe : nat -> string.
Variable evaluate : nat -> Response.t.

Lemma initialize_loop_extends (cap : nat) (allow : bool) :
  forall (fuel attempt : nat) (self : Island.t) (programs : list Row.t)
         (n : nat) (self' : Island.t) (programs' : list Row.t),
    initialize_loop extract_recipe_details generate_recipe evaluate
      cap allow fuel attempt self programs = Some (n, self', programs') ->
    extends extract_recipe_details programs programs'.
Proof.
  induction fuel as [|fuel IH]; intros attempt self programs n self' programs' H;
    simpl in H; [discriminate|].
  destruct (nonempty (generate_recipe (S attempt))); simpl in H.
  - pose proof (register_extends self (generate_recipe (S attempt))
                  (island_id self) (evaluate (S attempt)) programs) as Hreg.
    destruct (register_and_evaluate_program _ _ _ _ _ _) as [s1 p1].
    simpl in Hreg.
    destruct (List.length programs <? List.length p1).
    + injection H as _ _ <-. exact Hreg.
    + destruct (negb allow && (cap <=? S attempt)).
      * injection H as _ _ <-. exact Hreg.
      * eapply extends_trans; [exact Hreg | eapply IH; exact H].
  - destruct (negb allow && (cap <=? S attempt)).
    + injection H as _ _ <-. apply extends_refl.
    + eapply IH; exact H.
Qed.

End Seed.

Variable generate_recipe : Z -> nat -> string.
Variable evaluate_seed : Z -> nat -> Response.t.
Variable evolve_function : nat -> Z -> nat -> list formatted -> result (option string).
Variable evaluate_evolved : nat -> Z -> nat -> Response.t.

Lemma initialize_each_extends (fuel : nat) (ids : list Z) :
  forall (programs : list Row.t) (islands : list Island.t) (programs' : list Row.t),
    ProgramsDatabase.initialize_each extract_recipe_details generate_recipe
      evaluate_seed fuel ids programs = Some (islands, programs') ->
    extends extract_recipe_details programs programs'.
Proof.
  induction ids as [|i tl IH]; intros programs islands programs' H; simpl in H.
  - injection H as _ <-. apply extends_refl.
  - destruct (initialize_programs _ _ _ _ _ _ _) as [[[n isl] p1]|] eqn:E;
      [|discriminate].
    destruct (ProgramsDatabase.initialize_each _ _ _ _ _ _) as [[isls p2]|] eqn:E2;
      [|discriminate].
    injection H as _ <-.
    eapply extends_trans; [eapply initialize_loop_extends; exact E | eapply IH; exact E2].
Qed.

Lemma register_all_extends (scored : list (option string * Response.t)) :
  forall (island : Island.t) (programs : list Row.t) (r : Island.t * list Row.t),
    register_all extract_recipe_details island scored programs = Ok r ->
    extends extract_recipe_details programs (snd r).
Proof.
  induction scored as [|[[recipe|] score] tl IH]; intros island programs r H;
    simpl in H.
  - injection H as <-. apply extends_refl.
  - pose proof (register_extends island recipe (island_id island) score programs) as Hreg.
    destruct (register_and_evaluate_program _ _ _ _ _ _) as [s1 p1].
    eapply extends_trans; [exact Hreg | eapply IH; exact H].
  - discriminate.
Qed.

Lemma island_batch_extends (batch recipes_per_batch : nat) (island : Island.t)
  (programs : list Row.t) (r : Island.t * list Row.t) :
  generate_recipes_for_island_batch extract_recipe_details evolve_function
    evaluate_evolved batch recipes_per_batch island programs = Ok r ->
  extends extract_recipe_details programs (snd r).
Proof.
  unfold generate_recipes_for_island_batch. intros H.
  destruct (get_formatted_recipes_for_island island programs) as [recipes|];
    [|discriminate].
  cbn [bind] in H.
  destruct (evolve_and_score_all _ _ _ _ _ _) as [scored|]; [|discriminate].
  cbn [bind] in H. eapply register_all_extends; exact H.
Qed.

Lemma batch_over_islands_extends (batch recipes_per_batch : nat)
  (islands : list Island.t) :
  forall (programs : list Row.t) (r : list Island.t * list Row.t),
    batch_over_islands extract_recipe_details evolve_function evaluate_evolved
      batch recipes_per_batch islands programs = Ok r ->
    extends extract_recipe_details programs (snd r).
Proof.
  induction islands as [|island tl IH]; intros programs r H; simpl in H.
  - injection H as <-. apply extends_refl.
  - destruct (generate_recipes_for_island_batch _ _ _ _ _ _ _) as [r1|] eqn:E1;
      [|discriminate].
    cbn [bind] in H.
    destruct (batch_over_islands _ _ _ _ _ _ _) as [r2|] eqn:E2; [|discriminate].
    cbn [bind] in H. injection H as <-. simpl.
    eapply extends_trans; [eapply island_batch_extends; exact E1 | eapply IH; exact E2].
Qed.

Lemma run_batches_extends (recipes_per_batch : nat) (batches : list nat) :
  forall (islands : list Island.t) (programs : list Row.t)
         (r : list Island.t * list Row.t),
    run_batches extract_recipe_details evolve_function evaluate_evolved
      recipes_per_batch batches islands programs = Ok r ->
    extends extract_recipe_details programs (snd r).
Proof.
  induction batches as [|batch tl IH]; intros islands programs r H; simpl in H.
  - injection H as <-. apply extends_refl.
  - destruct (batch_over_islands _ _ _ _ _ _ _) as [r1|] eqn:E1; [|discriminate].
    cbn [bind] in H.
    eapply extends_trans; [eapply batch_over_islands_extends; exact E1 | eapply IH; exact H].
Qed.

End Driver.

End DriverFacts.

Module RunFacts.

Import PyFloat PyStr Py Exn Island FunSearch RunSpec.

Section Run.

Variable extract_recipe_details : string -> Recipe.t.

#[local] Abbreviation artifact := (RunSpec.artifact extract_recipe_details).
#[local] Abbreviation artifacts := (RunSpec.artifacts extract_recipe_details).

Lemma artifacts_app (c1 c2 : list call) :
  artifacts (c1 ++ c2) = artifacts c1 ++ artifacts c2.
Proof. apply flat_map_app. Qed.

Lemma artifacts_one (c : call) : artifacts [c] = artifact c.
Proof. unfold RunSpec.artifacts. simpl. apply app_nil_r. Qed.

Lemma register_appends (self : Island.t) (program : string) (island_id : Z)
  (response : Response.t) (programs : list Row.t) :
  snd (register_and_evaluate_program extract_recipe_details self program
         island_id response programs)
  = programs ++ artifact (Call program island_id response)
  /\ Island.island_id
       (fst (register_and_evaluate_program extract_recipe_details self program
               island_id response programs))
     = Island.island_id self.
Proof.
  unfold register_and_evaluate_program, register_extracted, RunSpec.artifact,
    formatted_data.
  cbn [RunSpec.program RunSpec.island_id RunSpec.response].
  destruct (format_recipe _ _ _) as [row|]; cbn [fst snd].
  - split; [reflexivity|]. unfold _update_best_program.
    destruct (gtb _ _); reflexivity.
  - split; [now rewrite app_nil_r | reflexivity].
Qed.

Section Seed.

Variable generate_recipe : Z -> nat -> string.
Variable evaluate_seed : Z -> nat -> Response.t.

#[local] Abbreviation seed_call := (RunSpec.seed_call generate_recipe evaluate_seed).
#[local] Abbreviation seed_calls := (RunSpec.seed_calls generate_recipe evaluate_seed).
#[local] Abbreviation stops_at := (RunSpec.stops_at extract_recipe_details generate_recipe evaluate_seed).
#[local] Abbreviation all_seed_calls := (RunSpec.all_seed_calls generate_recipe evaluate_seed).

Lemma seq_from (a n : nat) :
  (a < n)%nat -> seq (S a) (n - a) = S a :: seq (S (S a)) (n - S a).
Proof.
  intros H. replace (n - a)%nat with (S (n - S a)) by lia. reflexivity.
Qed.

(** The retry loop with [allow_infinite_retries=True], entered after
    [attempt] attempts. *)
Lemma initialize_loop_trace (i : Z) (cap : nat) :
  forall (fuel attempt : nat) (self : Island.t) (programs : list Row.t)
         (n : nat) (self' : Island.t) (programs' : list Row.t),
    Island.island_id self = i ->
    initialize_loop extract_recipe_details (generate_recipe i) (evaluate_seed i)
      cap true fuel attempt self programs = Some (n, self', programs') ->
    exists earlier,
      n = S earlier /\ (attempt <= earlier)%nat
      /\ artifacts (flat_map (seed_call i) (seq (S attempt) (earlier - attempt))) = []
      /\ artifacts (seed_call i n) <> []
      /\ programs' = programs ++ artifacts (seed_call i n)
      /\ Island.island_id self' = i.
Proof.
  induction fuel as [|fuel IH]; intros attempt self programs n self' programs' Hid H;
    simpl in H; [discriminate|].
  destruct (nonempty (generate_recipe i (S attempt))) eqn:Hne; simpl in H.
  - destruct (register_appends self (generate_recipe i (S attempt))
                (Island.island_id self) (evaluate_seed i (S attempt)) programs)
      as [Hp Hi].
    destruct (register_and_evaluate_program _ _ _ _ _ _) as [s1 p1].
    cbn [fst snd] in Hp, Hi. rewrite Hid in Hp.
    assert (artifacts (seed_call i (S attempt))
            = artifact (Call (generate_recipe i (S attempt)) i
                             (evaluate_seed i (S attempt)))) as Hcall.
    { unfold RunSpec.seed_call. rewrite Hne. apply artifacts_one. }
    destruct (List.length programs <? List.length p1)%nat eqn:Hlen.
    + injection H as <- <- <-. exists attempt.
      split; [reflexivity|]. split; [lia|].
      replace (attempt - attempt)%nat with 0%nat by lia.
      split; [reflexivity|]. rewrite Hcall.
      split; [|split; [exact Hp | congruence]].
      intros Hnil. rewrite Hnil, app_nil_r in Hp. subst p1.
      apply Nat.ltb_lt in Hlen. lia.
    + assert (artifacts (seed_call i (S attempt)) = []) as Hnil.
      { rewrite Hcall. apply Nat.ltb_ge in Hlen. rewrite Hp, length_app in Hlen.
        destruct (artifact _); [reflexivity | simpl in Hlen; lia]. }
      rewrite <- Hcall, Hnil, app_nil_r in Hp. subst p1.
      destruct (IH (S attempt) s1 programs n self' programs') as
        (earlier & Hn & Hle & Hquiet & Hlast & Hprog & Hid');
        [congruence | exact H |].
      exists earlier. split; [exact Hn|]. split; [lia|].
      split; [|auto].
      rewrite seq_from by lia. cbn [flat_map]. rewrite artifacts_app, Hnil. exact Hquiet.
  - assert (artifacts (seed_call i (S attempt)) = []) as Hnil.
    { unfold RunSpec.seed_call. now rewrite Hne. }
    destruct (IH (S attempt) self programs n self' programs') as
      (earlier & Hn & Hle & Hquiet & Hlast & Hprog & Hid');
      [exact Hid | exact H |].
    exists earlier. split; [exact Hn|]. split; [lia|].
    split; [|auto].
    rewrite seq_from by lia. cbn [flat_map]. rewrite artifacts_app, Hnil. exact Hquiet.
Qed.

Lemma stops_at_artifacts (i : Z) (n : nat) :
  stops_at i n -> artifacts (seed_calls i n) = artifacts (seed_call i n).
Proof.
  intros (earlier & -> & Hquiet & _). unfold RunSpec.seed_calls in *.
  rewrite seq_S, flat_map_app, artifacts_app, Hquiet. cbn [flat_map app Nat.add].
  now rewrite app_nil_r.
Qed.

Lemma initialize_each_trace (fuel : nat) (ids : list Z) :
  forall (programs : list Row.t) (islands : list Island.t) (programs' : list Row.t),
    ProgramsDatabase.initialize_each extract_recipe_details generate_recipe
      evaluate_seed fuel ids programs = Some (islands, programs') ->
    exists attempts,
      Forall2 stops_at ids attempts
      /\ programs' = programs ++ artifacts (all_seed_calls ids attempts)
      /\ map Island.island_id islands = ids.
Proof.
  induction ids as [|i tl IH]; intros programs islands programs' H; simpl in H.
  - injection H as <- <-. exists []. split; [constructor|].
    split; [now rewrite app_nil_r | reflexivity].
  - destruct (initialize_programs _ _ _ _ _ _ _) as [[[n isl] p1]|] eqn:E;
      [|discriminate].
    destruct (ProgramsDatabase.initialize_each _ _ _ _ _ _) as [[isls p2]|] eqn:E2;
      [|discriminate].
    injection H as <- <-.
    unfold initialize_programs in E.
    apply (@initialize_loop_trace i) in E; [|reflexivity].
    destruct E as (earlier & Hn & _ & Hquiet & Hlast & Hp1 & Hid).
    rewrite Nat.sub_0_r in Hquiet.
    assert (stops_at i n) as Hstop by (exists earlier; auto).
    destruct (IH _ _ _ E2) as (attempts & Hall & Hp2 & Hids).
    exists (n :: attempts). split; [now constructor|]. split.
    + cbn [RunSpec.all_seed_calls]. rewrite artifacts_app, (stops_at_artifacts Hstop).
      rewrite Hp2, Hp1. now rewrite app_assoc.
    + simpl. now rewrite Hid, Hids.
Qed.

End Seed.

Variable evolve_function : nat -> Z -> nat -> list formatted -> result (option string).
Variable evaluate_evolved : nat -> Z -> nat -> Response.t.

#[local] Abbreviation island_batch_calls :=
  (RunSpec.island_batch_calls evolve_function evaluate_evolved).
#[local] Abbreviation batch_calls :=
  (RunSpec.batch_calls extract_recipe_details evolve_function evaluate_evolved).
#[local] Abbreviation batches_calls :=
  (RunSpec.batches_calls extract_recipe_details evolve_function evaluate_evolved).

(** The ranking reads nothing of the island but its id. *)
Lemma formatted_recipes_by_id (island : Island.t) (programs : list Row.t) :
  get_formatted_recipes_for_island island programs
  = get_formatted_recipes_for_island (Island.init (Island.island_id island)) programs.
Proof. reflexivity. Qed.

Lemma evolve_and_score_all_trace (batch : nat) (i : Z) (top : list formatted)
  (ks : list nat) :
  forall scored,
    evolve_and_score_all evolve_function evaluate_evolved batch i top ks = Ok scored ->
    Forall2 (fun k s => evolve_function batch i k top = Ok (fst s)
                        /\ snd s = evaluate_evolved batch i k) ks scored.
Proof.
  induction ks as [|k tl IH]; intros scored H; simpl in H.
  - injection H as <-. constructor.
  - destruct (evolve_function batch i k top) as [r|] eqn:E; [|discriminate].
    cbn [bind] in H.
    destruct (evolve_and_score_all _ _ _ _ _ _) as [rest|]; [|discriminate].
    cbn [bind] in H. injection H as <-.
    constructor; [split; [exact E | reflexivity] | now apply IH].
Qed.

Lemma register_all_trace (i : Z) (scored : list (option string * Response.t)) :
  forall (island : Island.t) (programs : list Row.t) (r : Island.t * list Row.t),
    Island.island_id island = i ->
    register_all extract_recipe_details island scored programs = Ok r ->
    exists calls,
      Forall2 (fun s c => exists recipe,
                  fst s = Some recipe /\ c = Call recipe i (snd s)) scored calls
      /\ snd r = programs ++ artifacts calls
      /\ Island.island_id (fst r) = i.
Proof.
  induction scored as [|[[recipe|] score] tl IH]; intros island programs r Hid H;
    simpl in H.
  - injection H as <-. exists []. split; [constructor|].
    split; [simpl; now rewrite app_nil_r | exact Hid].
  - destruct (register_appends island recipe (Island.island_id island) score programs)
      as [Hp Hi].
    destruct (register_and_evaluate_program _ _ _ _ _ _) as [s1 p1].
    cbn [fst snd] in Hp, Hi. rewrite Hid in Hp.
    destruct (IH s1 p1 r) as (calls & Hall & Hsnd & Hfst); [congruence | exact H |].
    exists (Call recipe i score :: calls). split; [|split; [|exact Hfst]].
    + constructor; [|exact Hall]. exists recipe. split; reflexivity.
    + rewrite Hsnd, Hp.
      change (Call recipe i score :: calls) with ([Call recipe i score] ++ calls).
      rewrite artifacts_app, artifacts_one. now rewrite app_assoc.
  - discriminate.
Qed.

Lemma Forall2_compose {A B C : Type} (P : A -> B -> Prop) (Q : B -> C -> Prop)
  (R : A -> C -> Prop) :
  (forall a b c, P a b -> Q b c -> R a c) ->
  forall la lb lc, Forall2 P la lb -> Forall2 Q lb lc -> Forall2 R la lc.
Proof.
  intros H la lb lc HP. revert lc.
  induction HP as [|a b la lb Hab _ IH]; intros lc HQ; inversion HQ; subst;
    constructor; eauto.
Qed.

Lemma island_batch_trace (batch recipes_per_batch : nat) (island : Island.t)
  (programs : list Row.t) (r : Island.t * list Row.t) :
  generate_recipes_for_island_batch extract_recipe_details evolve_function
    evaluate_evolved batch recipes_per_batch island programs = Ok r ->
  exists calls,
    island_batch_calls batch recipes_per_batch (Island.island_id island) programs calls
    /\ snd r = programs ++ artifacts calls
    /\ Island.island_id (fst r) = Island.island_id island.
Proof.
  unfold generate_recipes_for_island_batch. intros H.
  destruct (get_formatted_recipes_for_island island programs) as [recipes|] eqn:Er;
    [|discriminate].
  cbn [bind] in H.
  destruct (evolve_and_score_all _ _ _ _ _ _) as [scored|] eqn:Es; [|discriminate].
  cbn [bind] in H.
  apply evolve_and_score_all_trace in Es.
  destruct (@register_all_trace (Island.island_id island) scored island programs r
              eq_refl H) as (calls & Hall & Hsnd & Hfst).
  exists calls. split; [|split; assumption].
  exists (firstn 2 (sorted_desc recipes)). split.
  - unfold RunSpec.top_candidates. rewrite <- formatted_recipes_by_id, Er. reflexivity.
  - eapply Forall2_compose; [|exact Es | exact Hall].
    intros k s c [He Hs] (recipe & Hr & ->). exists recipe.
    rewrite He, Hr, Hs. split; reflexivity.
Qed.

Lemma batch_over_islands_trace (batch recipes_per_batch : nat)
  (islands : list Island.t) :
  forall (programs : list Row.t) (r : list Island.t * list Row.t),
    batch_over_islands extract_recipe_details evolve_function evaluate_evolved
      batch recipes_per_batch islands programs = Ok r ->
    exists calls,
      batch_calls batch recipes_per_batch (map Island.island_id islands) programs calls
      /\ snd r = programs ++ artifacts calls
      /\ map Island.island_id (fst r) = map Island.island_id islands.
Proof.
  induction islands as [|island tl IH]; intros programs r H; simpl in H.
  - injection H as <-. exists []. split; [constructor|].
    split; [simpl; now rewrite app_nil_r | reflexivity].
  - destruct (generate_recipes_for_island_batch _ _ _ _ _ _ _) as [r1|] eqn:E1;
      [|discriminate].
    cbn [bind] in H.
    destruct (batch_over_islands _ _ _ _ _ _ _) as [r2|] eqn:E2; [|discriminate].
    cbn [bind] in H. injection H as <-. cbn [fst snd].
    apply island_batch_trace in E1. destruct E1 as (c1 & H1 & Hs1 & Hi1).
    apply IH in E2. destruct E2 as (c2 & H2 & Hs2 & Hi2).
    exists (c1 ++ c2). split; [|split].
    + simpl. constructor; [exact H1 | now rewrite <- Hs1].
    + rewrite Hs2, Hs1, artifacts_app. now rewrite app_assoc.
    + simpl. now rewrite Hi1, Hi2.
Qed.

Lemma run_batches_trace (recipes_per_batch : nat) (batches : list nat) :
  forall (islands : list Island.t) (programs : list Row.t)
         (r : list Island.t * list Row.t),
    run_batches extract_recipe_details evolve_function evaluate_evolved
      recipes_per_batch batches islands programs = Ok r ->
    exists calls,
      batches_calls recipes_per_batch (map Island.island_id islands) batches
        programs calls
      /\ snd r = programs ++ artifacts calls.
Proof.
  induction batches as [|batch tl IH]; intros islands programs r H; simpl in H.
  - injection H as <-. exists []. split; [constructor|].
    simpl. now rewrite app_nil_r.
  - destruct (batch_over_islands _ _ _ _ _ _ _) as [r1|] eqn:E1; [|discriminate].
    cbn [bind] in H.
    apply batch_over_islands_trace in E1. destruct E1 as (c1 & H1 & Hs1 & Hi1).
    apply IH in H. destruct H as (c2 & H2 & Hs2).
    exists (c1 ++ c2). split.
    + constructor; [exact H1|]. rewrite <- Hs1, <- Hi1. exact H2.
    + rewrite Hs2, Hs1, artifacts_app. now rewrite app_assoc.
Qed.

End Run.

End RunFacts.

Module DriverClaims.

Import PyFloat Py Exn Island FunSearch RunSpec RunFacts.



(** In that run each island is seeded at its third attempt: the first
    returns no text and makes no registration, the second is registered
    and rejected for its empty ingredient list. *)
Example two_island_run_seeds_at_the_third_attempt :
  stops_at Evaluator.extract_recipe_details RunSamples.third_time_pie
    RunSamples.four_on 1 3
  /\ seed_calls RunSamples.third_time_pie RunSamples.four_on 1 3
     = [Call Samples.no_ingredients_program 1 (RunSamples.response_on 1 (Fin 4));
        Call Samples.pie_program 1 (RunSamples.response_on 1 (Fin 4))]
  /\ artifacts Evaluator.extract_recipe_details
       (seed_calls RunSamples.third_time_pie RunSamples.four_on 1 3)
     = [RunSamples.pie_row_of 1 (Fin 4)].
Proof.
  split; [|split; vm_compute; reflexivity].
  exists 2%nat. split; [reflexivity|]. split; [vm_compute; reflexivity|].
  vm_compute. discriminate.
Qed.

End DriverClaims.

(* ================================================================== *)
(** * Part III: further properties of the code                         *)
(* ================================================================== *)

(** ** The order on floats *)

Module OrderFacts.

Import PyFloat PyFloatFacts.

Lemma leb_refl (x : pyfloat) : isnan x = false -> leb x x = true.
Proof.
  destruct x; simpl; intros H; try reflexivity; try discriminate.
  apply Rleb_true. lra.
Qed.

Lemma ltb_leb (x y : pyfloat) : ltb x y = true -> leb x y = true.
Proof.
  destruct x, y; simpl; intros H; try reflexivity; try discriminate.
  apply Rltb_true in H. apply Rleb_true. lra.
Qed.

Lemma ltb_not_nan (x y : pyfloat) :
  ltb x y = true -> isnan x = false /\ isnan y = false.
Proof. destruct x, y; simpl; intros H; try discriminate; auto. Qed.

Lemma leb_not_nan (x y : pyfloat) :
  leb x y = true -> isnan x = false /\ isnan y = false.
Proof. destruct x, y; simpl; intros H; try discriminate; auto. Qed.

Lemma leb_trans (x y z : pyfloat) :
  leb x y = true -> leb y z = true -> leb x z = true.
Proof.
  destruct x, y, z; simpl; intros H1 H2; try reflexivity; try discriminate.
  apply Rleb_true in H1, H2. apply Rleb_true. lra.
Qed.

Lemma not_ltb_leb (x y : pyfloat) :
  isnan x = false -> isnan y = false -> ltb x y = false -> leb y x = true.
Proof.
  destruct x, y; simpl; intros Hx Hy H; try reflexivity; try discriminate.
  apply Rltb_false in H. now apply Rleb_true.
Qed.

Lemma not_leb_ltb (x y : pyfloat) :
  isnan x = false -> isnan y = false -> leb x y = false -> ltb y x = true.
Proof.
  destruct x, y; simpl; intros Hx Hy H; try reflexivity; try discriminate.
  apply Rleb_false in H. now apply Rltb_true.
Qed.

Lemma leb_antisym (x y : pyfloat) :
  leb x y = true -> leb y x = true -> x = y.
Proof.
  destruct x, y; simpl; intros H1 H2; try reflexivity; try discriminate.
  apply Rleb_true in H1, H2. f_equal. lra.
Qed.

End OrderFacts.

(** ** The running best of an island *)

Module BestFacts.

Import PyFloat PyStr Py Island PyFloatFacts OrderFacts RegisterSpec RegisterFacts SequenceSpec.

Lemma format_recipe_not_nan (recipe : Recipe.t) (island_id : Z)
  (response : Response.t) (row : Row.t) :
  format_recipe recipe island_id response = Some row ->
  isnan (Row.weighted_score row) = false.
Proof.
  unfold format_recipe.
  destruct (missing_fields _ _ _); [|discriminate].
  destruct (checked_scores response) as [l|]; [|discriminate].
  destruct (checked_weighted response) as [w|] eqn:Hw;
    [|do 8 (destruct l as [|? l]; try discriminate)].
  destruct (stripped_name _); do 8 (destruct l as [|? l]; try discriminate).
  intros H. inversion H; subst; simpl.
  apply checked_weighted_some in Hw. apply Hw.
Qed.

Lemma update_best_tracks (self : Island.t) (seen : list Row.t) (row : Row.t) :
  isnan (Row.weighted_score row) = false ->
  best_tracks self seen ->
  best_tracks (_update_best_program self row) (seen ++ [row]).
Proof.
  intros Hw (Hnan & Hall & Hbest). unfold _update_best_program, gtb.
  destruct (ltb (_best_score self) (Row.weighted_score row)) eqn:E.
  - split; [exact Hw|]. simpl. split.
    + apply Forall_app. split.
      * eapply Forall_impl; [|exact Hall]. intros r Hr. simpl in Hr.
        eapply leb_trans; [exact Hr | now apply ltb_leb].
      * constructor; [now apply leb_refl | constructor].
    + right. exists row. split; [reflexivity|]. split; [|reflexivity].
      apply in_or_app. right. now left.
  - split; [exact Hnan|]. split.
    + apply Forall_app. split; [exact Hall|].
      constructor; [now apply not_ltb_leb | constructor].
    + destruct Hbest as [Hnone | (r & Hr & Hin & Hs)]; [now left|].
      right. exists r. split; [exact Hr|]. split; [|exact Hs].
      apply in_or_app. now left.
Qed.

Section Calls.

Variable extract_recipe_details : string -> Recipe.t.

Lemma register_calls_tracks (calls : list call) :
  forall (self : Island.t) (programs seen : list Row.t),
    best_tracks self seen ->
    exists new,
      snd (register_calls extract_recipe_details self calls programs)
      = programs ++ new
      /\ best_tracks (fst (register_calls extract_recipe_details self calls programs))
                     (seen ++ new).
Proof.
  unfold register_calls.
  induction calls as [|c tl IH]; intros self programs seen Hinv; simpl.
  - exists []. rewrite !app_nil_r. auto.
  - destruct (format_recipe (extract_recipe_details (call_program c))
                (call_island_id c) (call_response c)) as [row|] eqn:E.
    + assert (register_and_evaluate_program extract_recipe_details self
                (call_program c) (call_island_id c) (call_response c) programs
              = (_update_best_program self row, programs ++ [row])) as ->
        by (unfold register_and_evaluate_program, register_extracted; now rewrite E).
      destruct (IH (_update_best_program self row) (programs ++ [row]) (seen ++ [row]))
        as (new & Hs & Hb).
      { apply update_best_tracks; [|exact Hinv].
        eapply format_recipe_not_nan; exact E. }
      exists (row :: new). rewrite Hs. rewrite <- !app_assoc in *.
      split; [reflexivity | exact Hb].
    + assert (register_and_evaluate_program extract_recipe_details self
                (call_program c) (call_island_id c) (call_response c) programs
              = (self, programs)) as ->
        by (unfold register_and_evaluate_program, register_extracted; now rewrite E).
      apply IH. exact Hinv.
Qed.

End Calls.

End BestFacts.

Module BestProperties.

Import PyFloat PyStr Py Island PyFloatFacts OrderFacts SequenceSpec BestFacts.

(** X1.  After any sequence of registrations on a fresh island, the store
    is the initial store followed by the rows appended, the island's best
    score is at least the weighted score of each of those rows, and its
    best program, if there is one, is one of those rows and has exactly the
    best score; there is none only while the best score is still [-inf]. *)
Theorem running_best_is_the_maximum_registered :
  forall (extract_recipe_details : string -> Recipe.t) (island_id : Z)
         (calls : list call) (programs : list Row.t),
    let out := register_calls extract_recipe_details (Island.init island_id)
                 calls programs in
    exists new,
      snd out = programs ++ new
      /\ Forall (fun r => leb (Row.weighted_score r) (_best_score (fst out)) = true) new
      /\ ((_best_program (fst out) = None /\ _best_score (fst out) = NInf)
          \/ exists r, _best_program (fst out) = Some r /\ In r new
                       /\ Row.weighted_score r = _best_score (fst out)).
Proof.
  intros extract i calls programs out.
  destruct (@register_calls_tracks extract calls (Island.init i) programs [])
    as (new & Hs & (_ & Hall & Hbest)).
  - split; [reflexivity|]. split; [constructor|]. left. split; reflexivity.
  - exists new. simpl in *. auto.
Qed.

End BestProperties.

(** ** Seeding: initialize_programs with unbounded retries, initialize_islands *)

Module SeedFacts.

Import PyFloat PyStr Py Exn Island.

Section Loop.

Variable extract_recipe_details : string -> Recipe.t.
Variable generate_recipe : nat -> string.
Variable evaluate : nat -> Response.t.

(** Attempt [k] registers nothing: the generator returned empty text, or
    the artifact failed validation. *)
Lemma initialize_loop_unbounded (cap : nat) :
  forall (fuel attempt : nat) (self : Island.t) (programs : list Row.t)
         (n : nat) (self' : Island.t) (programs' : list Row.t),
    initialize_loop extract_recipe_details generate_recipe evaluate
      cap true fuel attempt self programs = Some (n, self', programs') ->
    attempt < n <= attempt + fuel
    /\ nonempty (generate_recipe n) = true
    /\ (exists row,
          formatted_data extract_recipe_details (generate_recipe n)
            (island_id self) (evaluate n) = Some row
          /\ programs' = programs ++ [row]
          /\ self' = _update_best_program self row)
    /\ (forall k, attempt < k < n ->
          nonempty (generate_recipe k) = false
          \/ formatted_data extract_recipe_details (generate_recipe k)
               (island_id self) (evaluate k) = None).
Proof.
  induction fuel as [|fuel IH]; intros attempt self programs n self' programs' H;
    simpl in H; [discriminate|].
  destruct (nonempty (generate_recipe (S attempt))) eqn:Hne; simpl in H.
  - unfold register_and_evaluate_program, register_extracted in H.
    fold (formatted_data extract_recipe_details (generate_recipe (S attempt))
            (island_id self) (evaluate (S attempt))) in H.
    destruct (formatted_data extract_recipe_details (generate_recipe (S attempt))
                (island_id self) (evaluate (S attempt))) as [row|] eqn:E.
    + rewrite length_app in H. simpl List.length in H.
      assert ((List.length programs <? List.length programs + 1) = true) as Hlt
        by (apply Nat.ltb_lt; lia).
      rewrite Hlt in H. injection H as <- <- <-.
      split; [lia|]. split; [exact Hne|]. split; [eauto|].
      intros k Hk. lia.
    + rewrite Nat.ltb_irrefl in H.
      destruct (IH _ _ _ _ _ _ H) as (Hn & Hnn & Hrow & Hbefore).
      split; [lia|]. split; [exact Hnn|]. split; [exact Hrow|].
      intros k Hk. destruct (Nat.eq_dec k (S attempt)) as [->|Hneq]; [now right|].
      apply Hbefore. lia.
  - destruct (IH _ _ _ _ _ _ H) as (Hn & Hnn & Hrow & Hbefore).
    split; [lia|]. split; [exact Hnn|]. split; [exact Hrow|].
    intros k Hk. destruct (Nat.eq_dec k (S attempt)) as [->|Hneq]; [now left|].
    apply Hbefore. lia.
Qed.

End Loop.

Lemma island_id_update_best (self : Island.t) (row : Row.t) :
  island_id (_update_best_program self row) = island_id self.
Proof. unfold _update_best_program. destruct (gtb _ _); reflexivity. Qed.

Section Islands.

Variable extract_recipe_details : string -> Recipe.t.
Variable generate_recipe : Z -> nat -> string.
Variable evaluate : Z -> nat -> Response.t.

Lemma initialize_each_counts (fuel : nat) (ids : list Z) :
  forall (programs : list Row.t) (islands : list Island.t) (programs' : list Row.t),
    ProgramsDatabase.initialize_each extract_recipe_details generate_recipe
      evaluate fuel ids programs = Some (islands, programs') ->
    map island_id islands = ids
    /\ List.length programs' = List.length programs + List.length ids.
Proof.
  induction ids as [|i tl IH]; intros programs islands programs' H; simpl in H.
  - injection H as <- <-. split; [reflexivity | simpl; lia].
  - destruct (initialize_programs _ _ _ _ _ _ _) as [[[n isl] p1]|] eqn:E;
      [|discriminate].
    destruct (ProgramsDatabase.initialize_each _ _ _ _ _ _) as [[isls p2]|] eqn:E2;
      [|discriminate].
    injection H as <- <-.
    apply initialize_loop_unbounded in E.
    destruct E as (_ & _ & (row & _ & -> & ->) & _).
    destruct (IH _ _ _ E2) as (Hids & Hlen).
    simpl. rewrite island_id_update_best, Hids, Hlen, length_app. simpl.
    split; [reflexivity | lia].
Qed.

End Islands.

End SeedFacts.

Module SeedProperties.

Import PyFloat PyStr Py Exn Island SeedFacts.

(** X2.  With [allow_infinite_retries] true, when [initialize_programs]
    returns it has appended exactly one row to the store: the artifact of
    its last attempt, which passed validation.  Every earlier attempt got
    empty text from the generator or an artifact that failed validation,
    and left the island and the store unchanged. *)
Theorem initialize_programs_returns_after_one_registration :
  forall (extract_recipe_details : string -> Recipe.t)
         (generate_recipe : nat -> string) (evaluate : nat -> Response.t)
         (fuel : nat) (self : Island.t) (programs : list Row.t)
         (n : nat) (self' : Island.t) (programs' : list Row.t),
    initialize_programs extract_recipe_details generate_recipe evaluate
      true fuel self programs = Some (n, self', programs') ->
    1 <= n <= fuel
    /\ nonempty (generate_recipe n) = true
    /\ (exists row,
          formatted_data extract_recipe_details (generate_recipe n)
            (island_id self) (evaluate n) = Some row
          /\ programs' = programs ++ [row]
          /\ self' = _update_best_program self row)
    /\ (forall k, 1 <= k < n ->
          nonempty (generate_recipe k) = false
          \/ formatted_data extract_recipe_details (generate_recipe k)
               (island_id self) (evaluate k) = None).
Proof.
  intros extract gen ev fuel self programs n self' programs' H.
  apply initialize_loop_unbounded in H.
  destruct H as (Hn & Hne & Hrow & Hbefore).
  split; [lia|]. split; [exact Hne|]. split; [exact Hrow|].
  intros k Hk. apply Hbefore. lia.
Qed.

(** The theorem with a generator that produces a recipe on its third call. *)
Lemma initialize_programs_third_attempt :
  nonempty (MoreSamples.third_time_generator 3) = true
  /\ (exists row,
        formatted_data Evaluator.extract_recipe_details
          (MoreSamples.third_time_generator 3) 0 (Samples.steady_evaluator 3)
        = Some row
        /\ [Samples.pie_row (Fin 4)] = [] ++ [row]
        /\ _update_best_program (Island.init 0) (Samples.pie_row (Fin 4))
           = _update_best_program (Island.init 0) row).
Proof.
  destruct (@initialize_programs_returns_after_one_registration
              Evaluator.extract_recipe_details MoreSamples.third_time_generator
              Samples.steady_evaluator 5 (Island.init 0) []
              3 (_update_best_program (Island.init 0) (Samples.pie_row (Fin 4)))
              [Samples.pie_row (Fin 4)]) as (_ & Hne & Hrow & _).
  - vm_compute. reflexivity.
  - split; [exact Hne | exact Hrow].
Defined.

(** X3.  When [initialize_islands] returns, there is one island per
    identifier 0 .. num_islands - 1, in that order, and the store has
    grown by exactly one row per island. *)
Theorem initialize_islands_seeds_one_row_per_island :
  forall (extract_recipe_details : string -> Recipe.t)
         (generate_recipe : Z -> nat -> string) (evaluate : Z -> nat -> Response.t)
         (num_islands fuel : nat) (programs : list Row.t)
         (islands : list Island.t) (programs' : list Row.t),
    ProgramsDatabase.initialize_islands extract_recipe_details generate_recipe
      evaluate num_islands fuel programs = Some (islands, programs') ->
    map island_id islands = map Z.of_nat (seq 0 num_islands)
    /\ List.length programs' = List.length programs + num_islands.
Proof.
  intros extract gen ev n fuel programs islands programs' H.
  unfold ProgramsDatabase.initialize_islands in H.
  destruct (ProgramsDatabase.initialize_each _ _ _ _ _ _) as [[isls p1]|] eqn:E;
    [|discriminate].
  injection H as <- <-.
  apply initialize_each_counts in E. destruct E as (Hids & Hlen).
  rewrite map_map. simpl. rewrite length_map, length_seq in Hlen.
  split; [exact Hids | exact Hlen].
Qed.

(** The theorem for two islands on the network of the samples. *)
Lemma initialize_islands_two_islands :
  map island_id
    [cluster_programs (_update_best_program (Island.init 0) (Samples.pie_row (Fin 4)))
       [Samples.pie_row (Fin 4); Samples.pie_row (Fin 4)];
     cluster_programs (_update_best_program (Island.init 1) (Samples.pie_row (Fin 4)))
       [Samples.pie_row (Fin 4); Samples.pie_row (Fin 4)]]
  = map Z.of_nat (seq 0 2)
  /\ List.length [Samples.pie_row (Fin 4); Samples.pie_row (Fin 4)] = 0 + 2.
Proof.
  apply (@initialize_islands_seeds_one_row_per_island
           Evaluator.extract_recipe_details Samples.always_pie Samples.always_four
           2 3 []).
  vm_compute. reflexivity.
Defined.

End SeedProperties.

(** ** The batches of the driver *)

Module BatchFacts.

Import PyFloat PyStr Py Exn Helper Island FunSearch SoftmaxFacts SeedFacts.

(** [rank_programs] never raises. *)
Lemma rank_programs_ok (self : Island.t) (programs : list Row.t) :
  exists ranked, fst (rank_programs self programs) = Ok ranked.
Proof.
  unfold rank_programs. destruct (island_programs self programs) as [|row rows].
  - exists []. reflexivity.
  - simpl map.
    destruct (softmax_length (Row.weighted_score row) (map Row.weighted_score rows))
      as (sm & Hsm & _).
    cbn [fst]. rewrite Hsm. cbn [bind]. eauto.
Qed.

Lemma get_formatted_recipes_ok (island : Island.t) (programs : list Row.t) :
  exists recipes, get_formatted_recipes_for_island island programs = Ok recipes.
Proof.
  unfold get_formatted_recipes_for_island.
  destruct (rank_programs_ok island programs) as [ranked ->]. cbn [bind]. eauto.
Qed.

Section Driver.

Variable extract_recipe_details : string -> Recipe.t.
Variable evolve_function : nat -> Z -> nat -> list formatted -> result (option string).
Variable evaluate_evolved : nat -> Z -> nat -> Response.t.

Lemma evolve_all_ok (batch : nat) (island_id : Z) (top : list formatted)
  (ks : list nat) :
  (forall k, In k ks -> exists e, evolve_function batch island_id k top = Ok e) ->
  exists scored,
    evolve_and_score_all evolve_function evaluate_evolved batch island_id top ks
    = Ok scored
    /\ map fst scored = map (fun k => match evolve_function batch island_id k top with
                                      | Ok e => e
                                      | Raise _ => None
                                      end) ks.
Proof.
  induction ks as [|k tl IH]; intros H; simpl.
  - exists []. split; reflexivity.
  - destruct (H k (or_introl eq_refl)) as [e He]. rewrite He. cbn [bind].
    destruct IH as (scored & Hs & Hm); [intros k' Hk'; apply H; now right|].
    rewrite Hs. cbn [bind]. eexists. split; [reflexivity|]. simpl. now rewrite Hm.
Qed.

Lemma evolve_all_length (batch : nat) (island_id : Z) (top : list formatted)
  (ks : list nat) :
  forall scored,
    evolve_and_score_all evolve_function evaluate_evolved batch island_id top ks
    = Ok scored ->
    List.length scored = List.length ks.
Proof.
  induction ks as [|k tl IH]; intros scored H; simpl in H.
  - injection H as <-. reflexivity.
  - destruct (evolve_function batch island_id k top); [|discriminate].
    cbn [bind] in H.
    destruct (evolve_and_score_all _ _ _ _ _ tl) as [rest|]; [|discriminate].
    cbn [bind] in H. injection H as <-. simpl. f_equal. now apply IH.
Qed.

(** A recipe that is the empty dict makes the gathered registrations raise. *)
Lemma register_all_raises (scored : list (option string * Response.t)) :
  In None (map fst scored) ->
  forall (island : Island.t) (programs : list Row.t),
    register_all extract_recipe_details island scored programs = Raise TypeError.
Proof.
  induction scored as [|[[recipe|] score] tl IH]; intros Hin island programs;
    simpl in *.
  - contradiction.
  - destruct Hin as [Hin|Hin]; [discriminate|].
    destruct (register_and_evaluate_program _ _ _ _ _ _). now apply IH.
  - reflexivity.
Qed.

Lemma register_all_bounds (scored : list (option string * Response.t)) :
  forall (island : Island.t) (programs : list Row.t) (r : Island.t * list Row.t),
    register_all extract_recipe_details island scored programs = Ok r ->
    Island.island_id (fst r) = Island.island_id island
    /\ List.length programs <= List.length (snd r)
       <= List.length programs + List.length scored.
Proof.
  induction scored as [|[[recipe|] score] tl IH]; intros island programs r H;
    simpl in H.
  - injection H as <-. simpl. split; [reflexivity | lia].
  - unfold register_and_evaluate_program, register_extracted in H.
    destruct (format_recipe _ _ _) as [row|].
    + apply IH in H. destruct H as (Hid & Hlen).
      rewrite island_id_update_best in Hid. rewrite length_app in Hlen.
      simpl in *. split; [exact Hid | lia].
    + apply IH in H. destruct H as (Hid & Hlen). simpl. split; [exact Hid | lia].
  - discriminate.
Qed.

Lemma island_batch_bounds (batch recipes_per_batch : nat) (island : Island.t)
  (programs : list Row.t) (r : Island.t * list Row.t) :
  generate_recipes_for_island_batch extract_recipe_details evolve_function
    evaluate_evolved batch recipes_per_batch island programs = Ok r ->
  Island.island_id (fst r) = Island.island_id island
  /\ List.length programs <= List.length (snd r)
     <= List.length programs + recipes_per_batch.
Proof.
  unfold generate_recipes_for_island_batch. intros H.
  destruct (get_formatted_recipes_for_island island programs) as [recipes|];
    [|discriminate].
  cbn [bind] in H.
  destruct (evolve_and_score_all _ _ _ _ _ _) as [scored|] eqn:E; [|discriminate].
  cbn [bind] in H. apply evolve_all_length in E. rewrite length_seq in E.
  apply register_all_bounds in H. rewrite E in H. exact H.
Qed.

Lemma batch_over_islands_bounds (batch recipes_per_batch : nat)
  (islands : list Island.t) :
  forall (programs : list Row.t) (r : list Island.t * list Row.t),
    batch_over_islands extract_recipe_details evolve_function evaluate_evolved
      batch recipes_per_batch islands programs = Ok r ->
    map Island.island_id (fst r) = map Island.island_id islands
    /\ List.length programs <= List.length (snd r)
       <= List.length programs + List.length islands * recipes_per_batch.
Proof.
  induction islands as [|island tl IH]; intros programs r H; simpl in H.
  - injection H as <-. simpl. split; [reflexivity | lia].
  - destruct (generate_recipes_for_island_batch _ _ _ _ _ _ _) as [r1|] eqn:E1;
      [|discriminate].
    cbn [bind] in H.
    destruct (batch_over_islands _ _ _ _ _ _ _) as [r2|] eqn:E2; [|discriminate].
    cbn [bind] in H. injection H as <-.
    apply island_batch_bounds in E1. apply IH in E2.
    destruct E1 as (Hid1 & Hl1). destruct E2 as (Hid2 & Hl2).
    simpl. rewrite Hid1, Hid2. split; [reflexivity | lia].
Qed.

Lemma run_batches_bounds (recipes_per_batch : nat) (batches : list nat) :
  forall (islands : list Island.t) (programs : list Row.t)
         (r : list Island.t * list Row.t),
    run_batches extract_recipe_details evolve_function evaluate_evolved
      recipes_per_batch batches islands programs = Ok r ->
    List.length programs <= List.length (snd r)
    <= List.length programs
       + List.length batches * (List.length islands * recipes_per_batch).
Proof.
  induction batches as [|batch tl IH]; intros islands programs r H; simpl in H.
  - injection H as <-. simpl. lia.
  - destruct (batch_over_islands _ _ _ _ _ _ _) as [r1|] eqn:E1; [|discriminate].
    cbn [bind] in H. apply batch_over_islands_bounds in E1. apply IH in H.
    destruct E1 as (Hid & Hl1).
    assert (List.length (fst r1) = List.length islands) as Hlen
      by (rewrite <- (length_map Island.island_id), Hid; apply length_map).
    rewrite Hlen in H. simpl. lia.
Qed.

End Driver.

End BatchFacts.

Module BatchProperties.

Import PyFloat PyStr Py Exn Helper Island FunSearch SeedFacts BatchFacts.

(** X4.  When [fun_search_optimization] returns a DataFrame, it holds at
    least one row per island (the seeds) and at most
    [recipes_per_batch] more per island and batch. *)
Theorem fun_search_optimization_size_bounds :
  forall (extract_recipe_details : string -> Recipe.t)
         (generate_recipe : Z -> nat -> string)
         (evaluate_seed : Z -> nat -> Response.t)
         (evolve_function : nat -> Z -> nat -> list formatted -> result (option string))
         (evaluate_evolved : nat -> Z -> nat -> Response.t)
         (num_batches recipes_per_batch num_islands fuel : nat)
         (_programs df : list Row.t),
    fun_search_optimization extract_recipe_details generate_recipe
      evaluate_seed evolve_function evaluate_evolved
      num_batches recipes_per_batch num_islands fuel _programs = Some (Ok df) ->
    num_islands <= List.length df
    <= num_islands + num_batches * (num_islands * recipes_per_batch).
Proof.
  intros extract gen ev evolve ev2 nb rpb ni fuel p0 df H.
  unfold fun_search_optimization in H.
  destruct (ProgramsDatabase.initialize_islands _ _ _ _ _ _) as [[islands p1]|] eqn:E1;
    [|discriminate].
  injection H as H.
  destruct (run_batches _ _ _ _ _ _ _) as [r|] eqn:E2; [|discriminate].
  cbn [bind] in H. injection H as <-.
  unfold ProgramsDatabase.initialize_islands in E1.
  destruct (ProgramsDatabase.initialize_each _ _ _ _ _ _) as [[isls p]|] eqn:E0;
    [|discriminate].
  injection E1 as <- <-.
  apply initialize_each_counts in E0. destruct E0 as (Hids & Hlen).
  apply run_batches_bounds in E2.
  rewrite length_map, length_seq in Hlen. simpl in Hlen.
  assert (List.length isls = ni) as Hn.
  { rewrite <- (length_map island_id), Hids, length_map. apply length_seq. }
  rewrite length_map, length_seq, Hn, Hlen in E2. exact E2.
Qed.

(** The theorem on the run of [DriverClaims]: one island, one batch of two. *)
Lemma fun_search_optimization_size_bounds_run :
  1 <= List.length [Samples.pie_row (Fin 4); Samples.pie_row (Fin 4.5);
                    Samples.pie_row (Fin 4.5)]
  <= 1 + 1 * (1 * 2).
Proof.
  apply (@fun_search_optimization_size_bounds
           Evaluator.extract_recipe_details Samples.always_pie Samples.always_four
           Samples.evolve_pie Samples.always_four_and_half 1 2 1 5 []).
  vm_compute. reflexivity.
Defined.

(** X5.  If, in the first batch of the first island, no call of
    [evolve_function] raises and one of them returns the empty dict (the
    value it returns when the reply has no usable text), then
    [fun_search_optimization] returns no DataFrame: the registration of
    that recipe raises a [TypeError] that nothing catches, so the call ends
    in an exception (unless seeding never finishes). *)
Theorem fun_search_optimization_raises_on_empty_evolution :
  forall (extract_recipe_details : string -> Recipe.t)
         (generate_recipe : Z -> nat -> string)
         (evaluate_seed : Z -> nat -> Response.t)
         (evolve_function : nat -> Z -> nat -> list formatted -> result (option string))
         (evaluate_evolved : nat -> Z -> nat -> Response.t)
         (num_batches recipes_per_batch num_islands fuel : nat)
         (_programs : list Row.t) (k : nat),
    1 <= num_batches -> 1 <= num_islands -> k < recipes_per_batch ->
    (forall j top, exists e, evolve_function 0 0%Z j top = Ok e) ->
    (forall top, evolve_function 0 0%Z k top = Ok None) ->
    let out := fun_search_optimization extract_recipe_details generate_recipe
                 evaluate_seed evolve_function evaluate_evolved
                 num_batches recipes_per_batch num_islands fuel _programs in
    out = None \/ exists e, out = Some (Raise e).
Proof.
  intros extract gen ev evolve ev2 nb rpb ni fuel p0 k Hnb Hni Hk Hok Hnone out.
  unfold out, fun_search_optimization.
  destruct (ProgramsDatabase.initialize_islands _ _ _ _ _ _) as [[islands p1]|] eqn:E1;
    [|now left].
  right. exists TypeError. f_equal.
  unfold ProgramsDatabase.initialize_islands in E1.
  destruct (ProgramsDatabase.initialize_each _ _ _ _ _ _) as [[isls p]|] eqn:E0;
    [|discriminate].
  injection E1 as <- <-.
  apply initialize_each_counts in E0. destruct E0 as (Hids & _).
  destruct nb as [|nb]; [lia|]. destruct ni as [|ni]; [lia|].
  simpl in Hids. destruct isls as [|isl0 isls]; [discriminate|].
  injection Hids as Hid0 _.
  cbn [seq run_batches map batch_over_islands].
  assert (generate_recipes_for_island_batch extract evolve ev2 0 rpb
            (cluster_programs isl0 p) p = Raise TypeError) as ->.
  { unfold generate_recipes_for_island_batch.
    destruct (get_formatted_recipes_ok (cluster_programs isl0 p) p) as [recipes ->].
    cbn [bind]. change (Island.island_id (cluster_programs isl0 p))
      with (Island.island_id isl0). rewrite Hid0.
    destruct (@evolve_all_ok evolve ev2 0 0%Z (firstn 2 (sorted_desc recipes))
                (seq 0 rpb)) as (scored & -> & Hm); [intros j _; apply Hok|].
    cbn [bind]. apply register_all_raises. rewrite Hm.
    apply in_map_iff. exists k. split; [now rewrite Hnone|].
    apply in_seq. lia. }
  reflexivity.
Qed.

(** The theorem on a network whose evolution always returns the empty dict. *)
Lemma fun_search_optimization_raises_on_empty_evolution_run :
  let out := fun_search_optimization Evaluator.extract_recipe_details
               Samples.always_pie Samples.always_four MoreSamples.evolve_nothing
               Samples.always_four_and_half 1 2 1 5 [] in
  out = None \/ exists e, out = Some (Raise e).
Proof.
  apply (@fun_search_optimization_raises_on_empty_evolution
           Evaluator.extract_recipe_details Samples.always_pie Samples.always_four
           MoreSamples.evolve_nothing Samples.always_four_and_half 1 2 1 5 [] 0).
  - lia.
  - lia.
  - lia.
  - intros j top. exists None. reflexivity.
  - intros top. reflexivity.
Defined.

End BatchProperties.

(** ** More on clusters *)

Module ClusterMoreFacts.

Import PyFloat PyFloatFacts OrderFacts Island ClusterSpec ClusterFacts ClusterMoreSpec.

Lemma members_app (l1 l2 : list Cluster.t) :
  members (l1 ++ l2) = members l1 ++ members l2.
Proof. unfold members. apply flat_map_app. Qed.

Lemma cluster_row_members (clusters : list Cluster.t) (row : Row.t) :
  Permutation (members (cluster_row clusters row))
              (members clusters ++ [entry_of row]).
Proof.
  unfold cluster_row.
  destruct (add_to_first clusters row (Row.weighted_score row)) as [cs'|] eqn:E.
  - apply add_to_first_some in E.
    destruct E as (pre & c & post & -> & _ & _ & ->).
    rewrite !members_app.
    change (members (Cluster.add_program c row (Row.weighted_score row) :: post))
      with ((Cluster._programs c ++ [entry_of row]) ++ members post).
    change (members (c :: post)) with (Cluster._programs c ++ members post).
    rewrite <- !app_assoc. do 2 apply Permutation_app_head.
    apply Permutation_app_comm.
  - rewrite members_app. reflexivity.
Qed.

Lemma fold_cluster_row_members (rows : list Row.t) :
  forall clusters,
    Permutation (members (fold_left cluster_row rows clusters))
                (members clusters ++ map entry_of rows).
Proof.
  induction rows as [|row tl IH]; intros clusters; simpl.
  - now rewrite app_nil_r.
  - rewrite IH, cluster_row_members, <- app_assoc. reflexivity.
Qed.

Lemma admits_self (s : pyfloat) (row : Row.t) :
  isfinite s = true -> admits (Cluster.init s row) s = true.
Proof.
  destruct s; simpl; intros H; try discriminate.
  unfold admits. simpl. apply Rltb_true.
  replace (r + - r)%R with 0%R by lra. rewrite Rabs_R0. lra.
Qed.

Lemma cluster_row_tight (clusters : list Cluster.t) (row : Row.t) :
  isfinite (Row.weighted_score row) = true ->
  Forall tight clusters -> Forall tight (cluster_row clusters row).
Proof.
  intros Hfin Hs. unfold cluster_row.
  destruct (add_to_first clusters row (Row.weighted_score row)) as [cs'|] eqn:E.
  - apply add_to_first_some in E.
    destruct E as (pre & c & post & -> & _ & Hadm & ->).
    apply Forall_app in Hs. destruct Hs as [Hpre Hc].
    inversion Hc; subst. apply Forall_app. split; [assumption|].
    constructor; [|assumption].
    unfold tight in *. simpl. apply Forall_app. split; [assumption|].
    constructor; [exact Hadm | constructor].
  - apply Forall_app. split; [assumption|]. constructor; [|constructor].
    unfold tight. simpl. constructor; [now apply admits_self | constructor].
Qed.

Lemma fold_cluster_row_tight (rows : list Row.t) :
  forall clusters,
    Forall (fun r => isfinite (Row.weighted_score r) = true) rows ->
    Forall tight clusters -> Forall tight (fold_left cluster_row rows clusters).
Proof.
  induction rows as [|row tl IH]; intros clusters Hfin Ht; simpl; [exact Ht|].
  inversion Hfin; subst. apply IH; [assumption|]. now apply cluster_row_tight.
Qed.

Lemma ForallOrdPairs_snoc {A : Type} (R : A -> A -> Prop) (l : list A) (x : A) :
  ForallOrdPairs R l -> Forall (fun y => R y x) l -> ForallOrdPairs R (l ++ [x]).
Proof.
  induction 1 as [|y l Hy Hl IH]; intros Hx; simpl.
  - constructor; constructor.
  - inversion Hx; subst. constructor.
    + apply Forall_app. split; [assumption|]. constructor; [assumption | constructor].
    + now apply IH.
Qed.

Lemma cluster_row_apart (clusters : list Cluster.t) (row : Row.t) :
  apart (map Cluster.score clusters) ->
  apart (map Cluster.score (cluster_row clusters row)).
Proof.
  intros Ha. unfold cluster_row.
  destruct (add_to_first clusters row (Row.weighted_score row)) as [cs'|] eqn:E.
  - apply add_to_first_some in E.
    destruct E as (pre & c & post & -> & _ & _ & ->).
    rewrite map_app in *. exact Ha.
  - apply add_to_first_none in E. rewrite map_app. simpl.
    apply ForallOrdPairs_snoc; [exact Ha|].
    apply Forall_map. eapply Forall_impl; [|exact E]. intros c Hc. exact Hc.
Qed.

Lemma fold_cluster_row_apart (rows : list Row.t) :
  forall clusters,
    apart (map Cluster.score clusters) ->
    apart (map Cluster.score (fold_left cluster_row rows clusters)).
Proof.
  induction rows as [|row tl IH]; intros clusters Ha; simpl; [exact Ha|].
  apply IH. now apply cluster_row_apart.
Qed.

End ClusterMoreFacts.

Module ClusterMoreProperties.

Import PyFloat PyFloatFacts Island ClusterSpec ClusterFacts ClusterMoreSpec ClusterMoreFacts.

(** X6.  [cluster_programs] puts every row of the island, with its
    weighted score, into exactly one cluster and keeps every member that
    was there before.  Nothing is cleared first: a second call on an
    unchanged store adds every row of the island once more. *)
Theorem cluster_programs_places_each_row_once :
  forall (self : Island.t) (programs : list Row.t),
    Permutation (members (_clusters (cluster_programs self programs)))
                (members (_clusters self)
                 ++ map entry_of (island_programs self programs))
    /\ Permutation
         (members (_clusters (cluster_programs (cluster_programs self programs)
                                               programs)))
         (members (_clusters self)
          ++ map entry_of (island_programs self programs)
          ++ map entry_of (island_programs self programs)).
Proof.
  intros self programs. split.
  - unfold cluster_programs. simpl. apply fold_cluster_row_members.
  - unfold cluster_programs at 1. cbn [_clusters].
    change (island_programs (cluster_programs self programs) programs)
      with (island_programs self programs).
    rewrite fold_cluster_row_members. unfold cluster_programs. cbn [_clusters].
    rewrite fold_cluster_row_members, <- app_assoc. reflexivity.
Qed.

(** X7.  If every member of every cluster passes its cluster's
    membership test and the island's rows have finite weighted scores, the
    same holds after [cluster_programs]: each member's score is less than
    0.5 away from the representative of its cluster. *)
Theorem cluster_programs_keeps_members_within_threshold :
  forall (self : Island.t) (programs : list Row.t),
    Forall tight (_clusters self) ->
    Forall (fun r => isfinite (Row.weighted_score r) = true)
           (island_programs self programs) ->
    Forall tight (_clusters (cluster_programs self programs)).
Proof.
  intros self programs Ht Hfin. unfold cluster_programs. simpl.
  now apply fold_cluster_row_tight.
Qed.

(** The theorem on island 0 of [MoreSamples.mixed_store]. *)
Lemma cluster_programs_keeps_members_within_threshold_sample :
  Forall tight (_clusters MoreSamples.clustered_island).
Proof.
  apply (@cluster_programs_keeps_members_within_threshold (Island.init 0)
           MoreSamples.mixed_store).
  - constructor.
  - repeat constructor.
Defined.

(** X8.  If no representative passes the membership test of an earlier
    cluster, the same holds after [cluster_programs]: the representatives
    are pairwise at least 0.5 apart (or not comparable). *)
Theorem cluster_programs_keeps_representatives_apart :
  forall (self : Island.t) (programs : list Row.t),
    apart (map Cluster.score (_clusters self)) ->
    apart (map Cluster.score (_clusters (cluster_programs self programs))).
Proof.
  intros self programs Ha. unfold cluster_programs. simpl.
  now apply fold_cluster_row_apart.
Qed.

(** The theorem on island 0 of [MoreSamples.mixed_store]. *)
Lemma cluster_programs_keeps_representatives_apart_sample :
  apart (map Cluster.score (_clusters MoreSamples.clustered_island)).
Proof.
  apply (@cluster_programs_keeps_representatives_apart (Island.init 0)
           MoreSamples.mixed_store).
  constructor.
Defined.

End ClusterMoreProperties.

(** ** The best program across clusters, and the ranking of islands *)

Module AcrossClustersFacts.

Import PyFloat PyFloatFacts OrderFacts Exn Helper SoftmaxFacts Island.
Import ClusterSpec ClusterMoreSpec BestProgramFacts RankFacts IslandQueries.
Import ProgramsDatabaseQueries.

(** On a sound cluster [get_best_program] returns a member whose score is
    the highest of the cluster. *)
Lemma get_best_program_sound (c : Cluster.t) :
  sound c ->
  exists best,
    Cluster.get_best_program c = Ok best
    /\ In best (Cluster._programs c)
    /\ isfinite (Entry.score best) = true
    /\ Forall (fun e => leb (Entry.score e) (Entry.score best) = true)
              (Cluster._programs c).
Proof.
  intros [Hne Hfin].
  destruct (finite_scores Hfin) as [rs Hrs].
  destruct rs as [|a l].
  { destruct (Cluster._programs c); [contradiction | discriminate]. }
  destruct (softmax_Fin a l) as (m & total & Htot & Hsm & _).
  destruct (np_argmax_Fin a l) as (j & v & Hj & Hv & _ & Hall).
  assert (nth_error (map Entry.score (Cluster._programs c)) j = Some (Fin v)) as Hnth.
  { rewrite Hrs. now apply map_nth_error. }
  rewrite nth_error_map in Hnth.
  destruct (nth_error (Cluster._programs c) j) as [best|] eqn:Hbest; [|discriminate].
  simpl in Hnth. injection Hnth as Hscore.
  exists best. split.
  { unfold Cluster.get_best_program. rewrite Hrs, Hsm. cbn [bind].
    rewrite np_argmax_increasing; [|now apply softmax_increasing].
    rewrite Hj. cbn [bind]. now rewrite Hbest. }
  split; [eapply nth_error_In; exact Hbest|]. rewrite Hscore.
  split; [reflexivity|].
  apply (Forall_through_map Entry.score Fin (fun s => leb s (Fin v) = true) _ Hrs).
  eapply Forall_impl; [|exact Hall]. intros x Hx. now apply leb_Fin.
Qed.

Lemma Forall_leb_trans (l : list Entry.t) (x y : pyfloat) :
  Forall (fun e => leb (Entry.score e) x = true) l ->
  leb x y = true ->
  Forall (fun e => leb (Entry.score e) y = true) l.
Proof.
  intros H Hxy. eapply Forall_impl; [|exact H].
  intros e He. simpl in He. eapply leb_trans; eauto.
Qed.

(** The loop keeps the first of the highest cluster bests above the score
    it was entered with. *)
Lemma best_over_sound (clusters : list Cluster.t) :
  Forall sound clusters ->
  forall (best_program : option Entry.t) (best_score : pyfloat),
    isnan best_score = false ->
    exists r,
      best_over clusters best_program best_score = Ok r
      /\ ((r = best_program
           /\ Forall (fun e => leb (Entry.score e) best_score = true)
                     (members clusters))
          \/ (exists e, r = Some e /\ In e (members clusters)
                        /\ leb best_score (Entry.score e) = true
                        /\ Forall (fun x => leb (Entry.score x) (Entry.score e) = true)
                                  (members clusters))).
Proof.
  induction 1 as [|c tl Hc Htl IH]; intros bp bs Hbs; simpl.
  - exists bp. split; [reflexivity|]. left. split; [reflexivity | constructor].
  - destruct (get_best_program_sound Hc) as (cb & -> & Hin & Hfin & Hall).
    cbn [bind]. unfold gtb.
    assert (isnan (Entry.score cb) = false) as Hcb by now apply isfinite_not_nan.
    change (members (c :: tl)) with (Cluster._programs c ++ members tl).
    destruct (ltb bs (Entry.score cb)) eqn:E.
    + destruct (IH (Some cb) (Entry.score cb) Hcb) as (r & -> & [[-> Hle] | (e & -> & He & Hbe & Hle)]).
      * eexists. split; [reflexivity|]. right. exists cb.
        split; [reflexivity|]. split; [apply in_or_app; now left|].
        split; [now apply ltb_leb|]. apply Forall_app. now split.
      * eexists. split; [reflexivity|]. right. exists e.
        split; [reflexivity|]. split; [apply in_or_app; now right|].
        split; [eapply leb_trans; [apply ltb_leb; exact E | exact Hbe]|].
        apply Forall_app. split; [|exact Hle].
        eapply Forall_leb_trans; eauto.
    + assert (leb (Entry.score cb) bs = true) as Hcbs by now apply not_ltb_leb.
      destruct (IH bp bs Hbs) as (r & -> & [[-> Hle] | (e & -> & He & Hbe & Hle)]).
      * eexists. split; [reflexivity|]. left. split; [reflexivity|].
        apply Forall_app. split; [|exact Hle]. eapply Forall_leb_trans; eauto.
      * eexists. split; [reflexivity|]. right. exists e.
        split; [reflexivity|]. split; [apply in_or_app; now right|].
        split; [exact Hbe|]. apply Forall_app. split; [|exact Hle].
        eapply Forall_leb_trans; [exact Hall|]. eapply leb_trans; eauto.
Qed.

Lemma from_clusters_sound (self : Island.t) :
  Forall sound (_clusters self) ->
  (_clusters self = [] /\ get_best_program_from_clusters self = Ok None)
  \/ (exists e,
        get_best_program_from_clusters self = Ok (Some e)
        /\ In e (members (_clusters self))
        /\ isfinite (Entry.score e) = true
        /\ Forall (fun x => leb (Entry.score x) (Entry.score e) = true)
                  (members (_clusters self))).
Proof.
  intros Hs. unfold get_best_program_from_clusters.
  destruct (_clusters self) as [|c tl] eqn:Hc; [left; split; reflexivity|].
  right.
  destruct (best_over_sound Hs None NInf eq_refl)
    as (r & -> & [[-> Hle] | (e & -> & He & _ & Hle)]).
  - exfalso. inversion Hs as [|? ? [Hne Hfin] _]; subst.
    destruct (Cluster._programs c) as [|e es] eqn:Hp; [contradiction|].
    change (members (c :: tl)) with (Cluster._programs c ++ members tl) in Hle.
    rewrite Hp in Hle. inversion Hle as [|? ? Hbad _]; subst.
    inversion Hfin as [|? ? Hfe _]; subst.
    destruct (Entry.score e); simpl in *; discriminate.
  - exists e. split; [reflexivity|]. split; [exact He|]. split; [|exact Hle].
    unfold members in He. apply in_flat_map in He. destruct He as (c0 & Hc0 & Hin).
    rewrite Forall_forall in Hs. destruct (Hs c0 Hc0) as [_ Hfin].
    rewrite Forall_forall in Hfin. now apply Hfin.
Qed.

Lemma get_best_programs_sound (islands : list Island.t) :
  Forall (fun island => Forall sound (_clusters island)) islands ->
  exists bests,
    get_best_programs islands = Ok bests
    /\ List.length bests = List.length islands
    /\ Forall (fun b => isfinite (score_or_zero b) = true) bests.
Proof.
  induction 1 as [|island tl Hi Htl (bests & Hb & Hlen & Hfin)]; simpl.
  - exists []. repeat split; constructor.
  - destruct (@from_clusters_sound island Hi) as [[_ ->] | (e & -> & _ & Hfe & _)];
      cbn [bind]; rewrite Hb; cbn [bind]; eexists;
      (split; [reflexivity|]); simpl; (split; [now rewrite Hlen|]);
      constructor; auto.
Qed.

Lemma insert_island_perm (x : Island.t * pyfloat) (l : list (Island.t * pyfloat)) :
  Permutation (insert_island x l) (x :: l).
Proof.
  induction l as [|y tl IH]; simpl; [reflexivity|].
  destruct (ltb (snd x) (snd y)); [|reflexivity].
  rewrite IH. apply perm_swap.
Qed.

Lemma sorted_islands_perm (l : list (Island.t * pyfloat)) :
  Permutation (sorted_islands l) l.
Proof.
  induction l as [|x tl IH]; simpl; [reflexivity|].
  rewrite insert_island_perm. now constructor.
Qed.

Lemma finite_list (xs : list pyfloat) :
  Forall (fun x => isfinite x = true) xs -> exists rs, xs = map Fin rs.
Proof.
  induction 1 as [|x tl Hx _ [rs ->]].
  - exists []. reflexivity.
  - apply isfinite_Fin in Hx. destruct Hx as [r ->]. now exists (r :: rs).
Qed.

(** Clustering a store of finite scores on a new island gives clusters
    that each have a member and only finite scores. *)
Lemma clustered_island_sound (i : Z) (programs : list Row.t) :
  Forall (fun r => isfinite (Row.weighted_score r) = true) programs ->
  Forall sound (_clusters (cluster_programs (Island.init i) programs)).
Proof.
  intros Hfin. unfold cluster_programs. cbn [_clusters Island.init].
  set (rows := island_programs _ programs).
  assert (Forall seeded (fold_left cluster_row rows [])) as Hseed
    by (apply ClusterFacts.fold_cluster_row_seeded; constructor).
  assert (Permutation (members (fold_left cluster_row rows []))
                      (map entry_of rows)) as Hp
    by apply (ClusterMoreFacts.fold_cluster_row_members _ []).
  apply Forall_forall. intros c Hc. split.
  - rewrite Forall_forall in Hseed. specialize (Hseed c Hc).
    unfold seeded in Hseed.
    destruct (Cluster._programs c); [contradiction | discriminate].
  - apply Forall_forall. intros e He.
    assert (In e (members (fold_left cluster_row rows []))) as Hm
      by (apply in_flat_map; eauto).
    apply (Permutation_in _ Hp) in Hm. apply in_map_iff in Hm.
    destruct Hm as (row & <- & Hrow). unfold rows, island_programs in Hrow.
    apply filter_In in Hrow. destruct Hrow as [Hrow _].
    rewrite Forall_forall in Hfin. exact (Hfin row Hrow).
Qed.

Lemma clustered_island_has_a_cluster (i : Z) (programs : list Row.t) :
  island_programs (Island.init i) programs <> [] ->
  _clusters (cluster_programs (Island.init i) programs) <> [].
Proof.
  intros Hrows Hnil. unfold cluster_programs in Hnil. cbn [_clusters Island.init] in Hnil.
  pose proof (ClusterMoreFacts.fold_cluster_row_members
                (island_programs (Island.init i) programs) []) as Hp.
  rewrite Hnil in Hp. simpl in Hp. apply Permutation_nil in Hp.
  apply map_eq_nil in Hp. contradiction.
Qed.

End AcrossClustersFacts.

Module AcrossClustersProperties.

Import PyFloat PyFloatFacts OrderFacts Exn Helper SoftmaxFacts Island.
Import ClusterSpec ClusterMoreSpec RankFacts IslandQueries ProgramsDatabaseQueries.
Import AcrossClustersFacts.

(** X9.  On an island whose clusters each have a member and only finite
    scores, [get_best_program_from_clusters] returns [None] exactly when
    the island has no cluster; otherwise it returns a member of one of the
    clusters whose score is the highest of all members of all clusters. *)
Theorem get_best_program_from_clusters_is_the_overall_best :
  forall self : Island.t,
    Forall sound (_clusters self) ->
    (_clusters self = [] /\ get_best_program_from_clusters self = Ok None)
    \/ (exists e,
          get_best_program_from_clusters self = Ok (Some e)
          /\ In e (members (_clusters self))
          /\ Forall (fun x => leb (Entry.score x) (Entry.score e) = true)
                    (members (_clusters self))).
Proof.
  intros self Hs.
  destruct (@from_clusters_sound self Hs) as [H | (e & He & Hin & _ & Hall)];
    [now left | right; eauto].
Qed.

(** The theorem on island 0 of [MoreSamples.mixed_store], whose rows score
    3, 3.2 and 4: the row scoring 4 is returned. *)
Lemma get_best_program_from_clusters_sample :
  get_best_program_from_clusters MoreSamples.clustered_island
  = Ok (Some (entry_of (Samples.row_with 0 (Fin 4)))).
Proof.
  destruct (@get_best_program_from_clusters_is_the_overall_best
              MoreSamples.clustered_island)
    as [[Hnil _] | (e & -> & Hin & Hall)].
  - assert (Forall tight (_clusters MoreSamples.clustered_island)) as Ht.
    { apply (@ClusterMoreFacts.fold_cluster_row_tight
               (island_programs (Island.init 0) MoreSamples.mixed_store) []);
        repeat constructor. }
    assert (Permutation (members (_clusters MoreSamples.clustered_island))
              (map entry_of (island_programs (Island.init 0) MoreSamples.mixed_store)))
      as Hp by apply (ClusterMoreFacts.fold_cluster_row_members _ []).
    assert (forall c, In c (_clusters MoreSamples.clustered_island) ->
              Cluster._programs c <> []) as Hne.
    { assert (Forall ClusterSpec.seeded (_clusters MoreSamples.clustered_island)) as Hseed
        by (apply (@ClusterFacts.fold_cluster_row_seeded _ []); constructor).
      intros c Hc. rewrite Forall_forall in Hseed. specialize (Hseed c Hc).
      unfold ClusterSpec.seeded in Hseed.
      destruct (Cluster._programs c); [contradiction | discriminate]. }
    apply Forall_forall. intros c Hc. split; [now apply Hne|].
    apply Forall_forall. intros e He.
    assert (In e (members (_clusters MoreSamples.clustered_island))) as Hm
      by (apply in_flat_map; eauto).
    apply (Permutation_in _ Hp) in Hm. simpl in Hm.
    destruct Hm as [<- | [<- | [<- | []]]]; reflexivity.
  - exfalso.
    assert (Permutation (members (_clusters MoreSamples.clustered_island))
              (map entry_of (island_programs (Island.init 0) MoreSamples.mixed_store)))
      as Hp by apply (ClusterMoreFacts.fold_cluster_row_members _ []).
    rewrite Hnil in Hp. simpl in Hp. apply Permutation_nil in Hp. discriminate.
  - do 2 f_equal.
    assert (Permutation (members (_clusters MoreSamples.clustered_island))
              (map entry_of (island_programs (Island.init 0) MoreSamples.mixed_store)))
      as Hp by apply (ClusterMoreFacts.fold_cluster_row_members _ []).
    assert (In (entry_of (Samples.row_with 0 (Fin 4)))
               (members (_clusters MoreSamples.clustered_island))) as H4.
    { apply (Permutation_in _ (Permutation_sym Hp)). simpl. auto. }
    rewrite Forall_forall in Hall. specialize (Hall _ H4). simpl in Hall.
    apply (Permutation_in _ Hp) in Hin. simpl in Hin.
    destruct Hin as [<- | [<- | [<- | []]]]; simpl in Hall;
      try reflexivity; apply Rleb_true in Hall; exfalso; lra.
Defined.

(** X10.  [rank_islands] raises a [ValueError] when the database has no
    island (the softmax of an empty array).  With at least one island, all
    of whose clusters have a member and only finite scores, it returns the
    islands, each exactly once, with softmax values that add up to one. *)
Theorem rank_islands_ranks_every_island :
  forall islands : list Island.t,
    Forall (fun island => Forall sound (_clusters island)) islands ->
    (islands = [] /\ rank_islands islands = Raise ValueError)
    \/ (exists ranked,
          rank_islands islands = Ok ranked
          /\ Permutation (map fst ranked) islands
          /\ np_sum (map snd ranked) = Fin 1).
Proof.
  intros islands Hs. destruct islands as [|island tl].
  - left. split; reflexivity.
  - right. unfold rank_islands.
    destruct (get_best_programs_sound Hs) as (bests & -> & Hlen & Hfin).
    cbn [bind].
    assert (Forall (fun x => isfinite x = true) (map score_or_zero bests)) as Hfin'
      by (apply Forall_map; exact Hfin).
    destruct (finite_list Hfin') as [rs Hrs].
    destruct rs as [|a l].
    { destruct bests; simpl in *; discriminate. }
    destruct (softmax_Fin a l) as (m & total & Htot & Hsm & Hone).
    rewrite Hrs, Hsm. cbn [bind].
    set (sm := map (fun r => (Rtrigo_def.exp (r - m) / total)%R) (a :: l)) in *.
    assert (List.length (island :: tl) = List.length (map Fin sm)) as Hl.
    { unfold sm. rewrite !length_map. rewrite <- (length_map Fin (a :: l)), <- Hrs.
      now rewrite length_map, Hlen. }
    eexists. split; [reflexivity|]. split.
    + rewrite (Permutation_map fst (sorted_islands_perm _)).
      now rewrite map_fst_combine.
    + rewrite <- Hone. apply np_sum_perm_Fin.
      rewrite (Permutation_map snd (sorted_islands_perm _)).
      now rewrite map_snd_combine.
Qed.

(** The theorem on islands 0 and 1 of [MoreSamples.mixed_store], after
    clustering: island 0 has the clusters of its rows scoring 3 and 3.2,
    and 4; island 1 the cluster of its row scoring 2. *)
Lemma rank_islands_of_two_clustered_islands :
  let islands := [cluster_programs (Island.init 0) MoreSamples.mixed_store;
                  cluster_programs (Island.init 1) MoreSamples.mixed_store] in
  Forall (fun island => _clusters island <> []) islands
  /\ exists ranked,
       rank_islands islands = Ok ranked
       /\ Permutation (map fst ranked) islands
       /\ np_sum (map snd ranked) = Fin 1.
Proof.
  intros islands. split.
  { constructor; [|constructor; [|constructor]];
      apply clustered_island_has_a_cluster; discriminate. }
  destruct (@rank_islands_ranks_every_island islands) as [[Hnil _] | H].
  - constructor; [|constructor; [|constructor]];
      apply clustered_island_sound; repeat constructor.
  - discriminate Hnil.
  - exact H.
Defined.

End AcrossClustersProperties.

(** ** Softmax as a distribution *)

Module DistributionFacts.

Import PyFloat PyFloatFacts OrderFacts Exn Helper SoftmaxFacts.
Local Open Scope R_scope.

(** The value softmax gives to score [r], for maximum [m] and sum [total]. *)
Lemma softmax_explicit (a : R) (l : list R) :
  let m := fold_left Rmax l a in
  let total := fold_left Rplus (map (fun r => Rtrigo_def.exp (r - m)) (a :: l)) 0 in
  0 < total
  /\ softmax (map Fin (a :: l))
     = Ok (map (fun r => Fin (Rtrigo_def.exp (r - m) / total)) (a :: l)).
Proof.
  cbv zeta.
  set (m := fold_left Rmax l a).
  set (es := map (fun r => Rtrigo_def.exp (r - m)) (a :: l)).
  set (total := fold_left Rplus es 0).
  assert (Forall (fun x => 0 < x) es) as Hpos.
  { unfold es. apply Forall_forall. intros x Hx. apply in_map_iff in Hx.
    destruct Hx as [r [<- _]]. apply exp_pos. }
  assert (0 < total) as Htot.
  { unfold total, es. simpl. pose proof (exp_pos (a - m)) as Ha.
    inversion Hpos; subst.
    pose proof (@fold_Rplus_pos (map (fun r => Rtrigo_def.exp (r - m)) l)
                  (0 + Rtrigo_def.exp (a - m)) H2).
    lra. }
  split; [exact Htot|].
  unfold softmax. change (np_max (map Fin (a :: l)))
    with (Ok (fold_left max2 (map Fin l) (Fin a))).
  rewrite fold_max2_Fin. fold m. cbn [bind].
  assert (map (fun s => PyFloat.exp (sub s (Fin m))) (map Fin (a :: l)) = map Fin es) as ->.
  { unfold es. rewrite !map_map. apply map_ext. intros r. reflexivity. }
  unfold np_sum. rewrite fold_add_Fin. fold total.
  f_equal. unfold es. rewrite !map_map. apply map_ext. intros r.
  simpl. assert (Reqb total 0 = false) as -> by (apply Reqb_false; lra).
  reflexivity.
Qed.

Lemma fold_Rmax_shift (c : R) (l : list R) :
  forall a, fold_left Rmax (map (fun r => r + c) l) (a + c) = fold_left Rmax l a + c.
Proof.
  induction l as [|x tl IH]; intros a; simpl; [reflexivity|].
  rewrite <- IH. f_equal. unfold Rmax.
  destruct (Rle_dec (a + c) (x + c)), (Rle_dec a x); try reflexivity; lra.
Qed.

Lemma fold_Rplus_In (ys : list R) :
  Forall (fun y => 0 < y) ys ->
  forall y acc, In y ys -> 0 <= acc -> y <= fold_left Rplus ys acc.
Proof.
  induction 1 as [|x tl Hx Htl IH]; intros y acc Hin Hacc; simpl in *.
  - contradiction.
  - destruct Hin as [<- | Hin].
    + pose proof (@fold_Rplus_pos tl (acc + x) Htl). lra.
    + apply IH; [exact Hin | lra].
Qed.

Lemma fold_Rplus_div (t : R) (ys : list R) :
  t <> 0 ->
  forall acc,
    fold_left Rplus (map (fun y => y / t) ys) (acc / t)
    = fold_left Rplus ys acc / t.
Proof.
  intros Ht. induction ys as [|y ys IH]; simpl; intros acc; [reflexivity|].
  rewrite <- IH. f_equal. now field.
Qed.

End DistributionFacts.

Module DistributionProperties.

Import PyFloat PyFloatFacts OrderFacts Exn Helper SoftmaxFacts DistributionFacts.
Local Open Scope R_scope.

(** X11.  On a non-empty array of finite scores [softmax] returns one
    value per score, each greater than 0 and at most 1, adding up to one;
    on an empty array it raises a [ValueError]. *)
Theorem softmax_is_a_distribution :
  forall (a : R) (l : list R),
    softmax [] = Raise ValueError
    /\ exists values : list R,
         softmax (map Fin (a :: l)) = Ok (map Fin values)
         /\ List.length values = List.length (a :: l)
         /\ Forall (fun v => 0 < v <= 1) values
         /\ np_sum (map Fin values) = Fin 1.
Proof.
  intros a l. split; [reflexivity|].
  destruct (softmax_explicit a l) as (Htot & Hsm).
  set (m := fold_left Rmax l a) in *.
  set (es := map (fun r => Rtrigo_def.exp (r - m)) (a :: l)) in *.
  set (total := fold_left Rplus es 0) in *.
  exists (map (fun r => Rtrigo_def.exp (r - m) / total) (a :: l)).
  split; [rewrite Hsm; now rewrite map_map|].
  split; [now rewrite length_map|].
  assert (Forall (fun x => 0 < x) es) as Hpos.
  { unfold es. apply Forall_forall. intros x Hx. apply in_map_iff in Hx.
    destruct Hx as [r [<- _]]. apply exp_pos. }
  split.
  - apply Forall_forall. intros v Hv. apply in_map_iff in Hv.
    destruct Hv as (r & <- & Hr).
    assert (Rtrigo_def.exp (r - m) <= total) as Hle.
    { apply fold_Rplus_In; [exact Hpos | | lra].
      unfold es. apply in_map_iff. eauto. }
    pose proof (exp_pos (r - m)) as Hp. split.
    + apply Rdiv_lt_0_compat; assumption.
    + apply Rmult_le_reg_r with total; [exact Htot|]. field_simplify; lra.
  - unfold np_sum. rewrite fold_add_Fin. f_equal.
    change (map (fun r => Rtrigo_def.exp (r - m) / total) (a :: l))
      with (map (fun r => (fun y => y / total) ((fun r => Rtrigo_def.exp (r - m)) r))
                (a :: l)).
    rewrite <- (map_map (fun r => Rtrigo_def.exp (r - m)) (fun y => y / total)).
    fold es. replace 0 with (0 / total) by (field; lra).
    rewrite fold_Rplus_div by lra. fold total. field. lra.
Qed.

(** X12.  Adding one constant to every score does not change the result
    of [softmax] (finite scores). *)
Theorem softmax_is_shift_invariant :
  forall (c : R) (rs : list R),
    softmax (map (fun r => Fin (r + c)) rs) = softmax (map Fin rs).
Proof.
  intros c [|a l]; [reflexivity|].
  destruct (softmax_explicit a l) as (_ & ->).
  change (map (fun r => Fin (r + c)) (a :: l))
    with (map (fun r => Fin ((fun r => r + c) r)) (a :: l)).
  rewrite <- (map_map (fun r => r + c) Fin).
  change (map (fun r => r + c) (a :: l)) with ((a + c) :: map (fun r => r + c) l).
  destruct (softmax_explicit (a + c) (map (fun r => r + c) l)) as (_ & ->).
  rewrite fold_Rmax_shift. f_equal.
  set (m := fold_left Rmax l a).
  assert (map (fun r => Rtrigo_def.exp (r - (m + c))) ((a + c) :: map (fun r => r + c) l)
          = map (fun r => Rtrigo_def.exp (r - m)) (a :: l)) as ->.
  { change ((a + c) :: map (fun r => r + c) l) with (map (fun r => r + c) (a :: l)).
    rewrite map_map. apply map_ext. intros r. f_equal. lra. }
  change ((a + c) :: map (fun r => r + c) l) with (map (fun r => r + c) (a :: l)).
  rewrite map_map. apply map_ext. intros r. do 3 f_equal. lra.
Qed.

End DistributionProperties.

(** ** The order of a ranking, and the island score *)

Module RankingFacts.

Import PyFloat PyFloatFacts OrderFacts Exn Helper SoftmaxFacts Island RankFacts.
Import DistributionFacts IslandQueries RankingSpec.
Local Open Scope R_scope.

Lemma insert_desc_sorted (g : R -> R) (x : ranked_row) (l : list ranked_row) :
  tagged g x -> Forall (tagged g) l ->
  StronglySorted above l -> StronglySorted above (insert_desc x l).
Proof.
  intros (wx & Hwx & Hx) Hl Hs.
  induction Hs as [|y tl Htl IH Hy]; simpl.
  - constructor; constructor.
  - inversion Hl as [|? ? (wy & Hwy & Hy') Htag]; subst.
    unfold sorts_after. rewrite Hx, Hy'. simpl.
    destruct (Rltb (g wx) (g wy)) eqn:E.
    + constructor; [now apply IH|].
      assert (Permutation (insert_desc x tl) (x :: tl)) as Hp
        by apply insert_desc_perm.
      apply Forall_forall. intros z Hz. apply (Permutation_in _ Hp) in Hz.
      destruct Hz as [<- | Hz].
      * unfold above. rewrite Hx, Hy'. apply Rltb_true in E.
        apply leb_Fin. lra.
      * rewrite Forall_forall in Hy. now apply Hy.
    + constructor; [constructor; assumption|].
      apply Rltb_false in E. constructor.
      * unfold above. rewrite Hx, Hy'. now apply leb_Fin.
      * eapply Forall_impl; [|exact Hy]. intros z Hz. unfold above in *.
        rewrite Hx. rewrite Hy' in Hz.
        eapply leb_trans; [exact Hz | now apply leb_Fin].
Qed.

Lemma sort_values_desc_sorted (g : R -> R) (l : list ranked_row) :
  Forall (tagged g) l -> StronglySorted above (sort_values_desc l).
Proof.
  induction 1 as [|x tl Hx Htl IH]; simpl; [constructor|].
  apply (insert_desc_sorted Hx); [|exact IH].
  apply Forall_forall. intros z Hz.
  apply (Permutation_in _ (sort_values_desc_perm tl)) in Hz.
  rewrite Forall_forall in Htl. now apply Htl.
Qed.

Lemma combine_tagged (g : R -> R) (rows : list Row.t) :
  forall ws,
    map Row.weighted_score rows = map Fin ws ->
    Forall (tagged g) (combine rows (map (fun r => Fin (g r)) ws)).
Proof.
  induction rows as [|row rows IH]; intros [|w ws] H; simpl in *;
    try discriminate; constructor.
  - injection H as Hw _. exists w. split; [exact Hw | reflexivity].
  - injection H as _ Hrest. now apply IH.
Qed.

Lemma sorted_by_weight (g : R -> R) (l : list ranked_row) :
  (forall x y, x < y -> g x < g y) ->
  Forall (tagged g) l ->
  StronglySorted above l ->
  StronglySorted
    (fun a b => leb (Row.weighted_score (fst b)) (Row.weighted_score (fst a)) = true) l.
Proof.
  intros Hg Ht Hs. induction Hs as [|a tl Htl IH Ha]; [constructor|].
  inversion Ht as [|? ? (wa & Hwa & Hsa) Htag]; subst.
  constructor; [now apply IH|].
  rewrite Forall_forall in *. intros b Hb.
  destruct (Htag b Hb) as (wb & Hwb & Hsb).
  specialize (Ha b Hb). unfold above in Ha. rewrite Hsa, Hsb in Ha.
  rewrite Hwa, Hwb. simpl in *. now rewrite (increasing_le g Hg) in Ha.
Qed.

Lemma fold_Rplus_bounds (lo hi : R) (ws : list R) :
  Forall (fun w => lo <= w <= hi) ws ->
  forall acc,
    acc + INR (List.length ws) * lo <= fold_left Rplus ws acc
    <= acc + INR (List.length ws) * hi.
Proof.
  induction 1 as [|w tl Hw Htl IH]; intros acc.
  - simpl. lra.
  - cbn [fold_left]. specialize (IH (acc + w)).
    change (List.length (w :: tl)) with (S (List.length tl)). rewrite S_INR. lra.
Qed.

(** The mean of finite values: their sum over their number. *)
Lemma series_mean_Fin (w : R) (ws : list R) :
  series_mean (map Fin (w :: ws))
  = Fin (fold_left Rplus (w :: ws) 0 / INR (List.length (w :: ws))).
Proof.
  unfold series_mean.
  assert (forall l, filter (fun x => negb (isnan x)) (map Fin l) = map Fin l) as Hf.
  { induction l as [|x xs IH]; simpl; [reflexivity|]. now rewrite IH. }
  rewrite Hf. cbn [map].
  change (Fin w :: map Fin ws) with (map Fin (w :: ws)).
  unfold np_sum. rewrite fold_add_Fin, length_map.
  unfold of_Z. rewrite <- INR_IZR_INZ. cbn [div].
  assert (0 < INR (List.length (w :: ws))) as Hn
    by (apply lt_0_INR; simpl; lia).
  assert (Reqb (INR (List.length (w :: ws))) 0 = false) as ->
    by (apply Reqb_false; lra).
  reflexivity.
Qed.

End RankingFacts.

Module RankingProperties.

Import PyFloat PyFloatFacts OrderFacts Exn Helper SoftmaxFacts Island RankFacts.
Import DistributionFacts IslandQueries RankingSpec RankingFacts.
Local Open Scope R_scope.

(** X13.  When the weighted scores of the island's rows are finite,
    [rank_programs] returns the rows in non-increasing order of weighted
    score: the softmax value it sorts by grows with the score. *)
Theorem rank_programs_orders_by_weighted_score :
  forall (self : Island.t) (programs : list Row.t),
    Forall (fun r => isfinite (Row.weighted_score r) = true)
           (island_programs self programs) ->
    exists ranked,
      fst (rank_programs self programs) = Ok ranked
      /\ StronglySorted (fun a b => leb (snd b) (snd a) = true) ranked
      /\ StronglySorted
           (fun a b => leb (Row.weighted_score (fst b))
                           (Row.weighted_score (fst a)) = true) ranked.
Proof.
  intros self programs Hfin. unfold rank_programs.
  destruct (finite_weighted Hfin) as [rs Hrs].
  destruct (island_programs self programs) as [|row rows] eqn:Hrows.
  { exists []. split; [reflexivity|]. split; constructor. }
  destruct rs as [|a l]; [discriminate|].
  destruct (softmax_explicit a l) as (Htot & Hsm).
  set (m := fold_left Rmax l a) in *.
  set (total := fold_left Rplus _ 0) in *.
  rewrite Hrs, Hsm. cbn [bind fst].
  eexists. split; [reflexivity|].
  assert (Forall (tagged (fun r => Rtrigo_def.exp (r - m) / total))
                 (sort_values_desc
                    (combine (row :: rows)
                       (map (fun r => Fin (Rtrigo_def.exp (r - m) / total)) (a :: l)))))
    as Htag.
  { apply Forall_forall. intros z Hz.
    apply (Permutation_in _ (sort_values_desc_perm _)) in Hz.
    revert z Hz. apply Forall_forall.
    apply (@combine_tagged (fun r => Rtrigo_def.exp (r - m) / total) (row :: rows)
             (a :: l) Hrs). }
  assert (StronglySorted above
            (sort_values_desc
               (combine (row :: rows)
                  (map (fun r => Fin (Rtrigo_def.exp (r - m) / total)) (a :: l)))))
    as Hsorted.
  { apply (@sort_values_desc_sorted (fun r => Rtrigo_def.exp (r - m) / total)).
    apply (@combine_tagged (fun r => Rtrigo_def.exp (r - m) / total) (row :: rows)
             (a :: l) Hrs). }
  split; [exact Hsorted|].
  apply (@sorted_by_weight (fun r => Rtrigo_def.exp (r - m) / total));
    [now apply softmax_increasing | exact Htag | exact Hsorted].
Qed.

(** The theorem on island 0 of [MoreSamples.mixed_store]. *)
Lemma rank_programs_orders_sample :
  exists ranked,
    fst (rank_programs (Island.init 0) MoreSamples.mixed_store) = Ok ranked
    /\ StronglySorted (fun a b => leb (snd b) (snd a) = true) ranked
    /\ StronglySorted
         (fun a b => leb (Row.weighted_score (fst b))
                         (Row.weighted_score (fst a)) = true) ranked.
Proof.
  apply rank_programs_orders_by_weighted_score. repeat constructor.
Defined.



End RankingProperties.

(** ** What a successful match of the engine implies *)

Module RegexFacts.

Import PyStr Re RegexSpec.

(** Every success of the matcher is a derivation followed by a success of
    the continuation. *)
Lemma run_sound (r : regex) :
  forall (k : mstate -> option mstate) (st res : mstate),
    run r k st = Some res ->
    exists st', derives r st st' /\ k st' = Some res.
Proof.
  induction r as [|p|r1 IH1 r2 IH2|r1 IH1 r2 IH2|r1 IH1|r1 IH1|r1 IH1| |r1 IH1];
    intros k st res H; simpl in H.
  - exists st. split; [constructor | exact H].
  - destruct (rest st) as [|c tl] eqn:E; [discriminate|].
    destruct (p c) eqn:Ep; [|discriminate].
    eexists. split; [econstructor; eauto | exact H].
  - apply IH1 in H. destruct H as (st1 & H1 & H).
    apply IH2 in H. destruct H as (st2 & H2 & H).
    exists st2. split; [econstructor; eauto | exact H].
  - destruct (run r1 k st) as [x|] eqn:E.
    + injection H as <-. apply IH1 in E. destruct E as (st' & Hd & Hk).
      exists st'. split; [now apply d_alt_l | exact Hk].
    + apply IH2 in H. destruct H as (st' & Hd & Hk).
      exists st'. split; [now apply d_alt_r | exact Hk].
  - destruct (run r1 k st) as [x|] eqn:E.
    + injection H as <-. apply IH1 in E. destruct E as (st' & Hd & Hk).
      exists st'. split; [now apply d_opt_some | exact Hk].
    + exists st. split; [apply d_opt_none | exact H].
  - revert H. generalize (List.length (rest st)) as fuel. intros fuel. revert st.
    induction fuel as [|fuel IHf]; intros st H.
    + exists st. split; [apply d_star_stop | exact H].
    + match type of H with
      | match ?m with _ => _ end = _ => destruct m as [x|] eqn:E
      end.
      * injection H as <-. apply IH1 in E. destruct E as (st1 & Hd & Hk).
        destruct (progress st st1); [|discriminate].
        apply IHf in Hk. destruct Hk as (st2 & Hd2 & Hk2).
        exists st2. split; [eapply d_star_more; eauto | exact Hk2].
      * exists st. split; [apply d_star_stop | exact H].
  - revert H. generalize (List.length (rest st)) as fuel. intros fuel. revert st.
    induction fuel as [|fuel IHf]; intros st H.
    + destruct (k st) as [x|] eqn:E; [|discriminate].
      injection H as <-. exists st. split; [apply d_lazy_stop | exact E].
    + destruct (k st) as [x|] eqn:E.
      * injection H as <-. exists st. split; [apply d_lazy_stop | exact E].
      * apply IH1 in H. destruct H as (st1 & Hd & Hk).
        destruct (progress st st1); [|discriminate].
        apply IHf in Hk. destruct Hk as (st2 & Hd2 & Hk2).
        exists st2. split; [eapply d_lazy_more; eauto | exact Hk2].
  - destruct (at_boundary st) eqn:E; [|discriminate].
    exists st. split; [now constructor | exact H].
  - apply IH1 in H. destruct H as (st1 & Hd & Hk).
    eexists. split; [apply d_group; exact Hd | exact Hk].
Qed.

(** A match found by [search] is a derivation from some position of the
    text, with no group closed yet, and [group(1)] is what it captured. *)
Lemma search_from_sound (r : regex) (s : list ascii) :
  forall (p : option ascii) (i : nat) (m : match_obj),
    search_from r p s i = Some m ->
    exists st st', cap st = None /\ derives r st st' /\ group1 m = cap st'.
Proof.
  induction s as [|c tl IH]; intros p i m H; simpl in H.
  - destruct (run r _ _) as [st'|] eqn:E; [|discriminate].
    injection H as <-. apply run_sound in E. destruct E as (st1 & Hd & Hk).
    injection Hk as <-. eexists. exists st1. split; [|split; [exact Hd|]]; reflexivity.
  - destruct (run r _ _) as [st'|] eqn:E.
    + injection H as <-. apply run_sound in E. destruct E as (st1 & Hd & Hk).
      injection Hk as <-. eexists. exists st1. split; [|split; [exact Hd|]]; reflexivity.
    + eapply IH; exact H.
Qed.

Lemma search_sound (r : regex) (s : string) (m : match_obj) :
  search r s = Some m ->
  exists st st', cap st = None /\ derives r st st' /\ group1 m = cap st'.
Proof. unfold search. apply search_from_sound. Qed.

(** One character class, and a repetition of one. *)
Lemma derives_chr (p : ascii -> bool) (st st' : mstate) :
  derives (Chr p) st st' ->
  exists c, rest st = c :: rest st' /\ p c = true /\ cap st' = cap st.
Proof. intros H. inversion H; subst. exists c. simpl. auto. Qed.

Lemma derives_star_chr (p : ascii -> bool) (st st' : mstate) :
  derives (Star (Chr p)) st st' ->
  exists w, rest st = w ++ rest st' /\ forallb p w = true /\ cap st' = cap st.
Proof.
  intros H. remember (Star (Chr p)) as r eqn:Hr.
  induction H; try discriminate; injection Hr as ->.
  - exists []. simpl. auto.
  - apply derives_chr in H. destruct H as (c & Hc & Hp & Hcap).
    destruct (IHderives2 eq_refl) as (w & Hw & Hall & Hcap2).
    exists (c :: w). simpl. rewrite Hc, Hw, Hp, Hall. split; [reflexivity|].
    split; [reflexivity | congruence].
Qed.

Lemma derives_opt_chr (p : ascii -> bool) (st st' : mstate) :
  derives (Opt (Chr p)) st st' -> cap st' = cap st.
Proof.
  intros H. inversion H as [| | | | |r0 st0 st1 Hd| | | | | | |]; subst;
    [|reflexivity].
  apply derives_chr in Hd. destruct Hd as (c & _ & _ & Hc). exact Hc.
Qed.

Lemma consumed_app (w s : list ascii) : consumed (w ++ s) s = w.
Proof.
  unfold consumed. rewrite length_app.
  replace (List.length w + List.length s - List.length s) with (List.length w) by lia.
  rewrite firstn_app, Nat.sub_diag, firstn_all. simpl. apply app_nil_r.
Qed.

End RegexFacts.

(** ** What the patterns of the evaluator can capture *)

Module CaptureFacts.
Import PyFloat PyStr Re Py RegexSpec RegexFacts ExtractSpec.

Lemma derives_capture (Q : list ascii -> Prop) (r : regex) (st st' : mstate) :
  derives r st st' ->
  groups_satisfy Q r ->
  (forall g, cap st = Some g -> Q g) ->
  forall g, cap st' = Some g -> Q g.
Proof.
  intros H.
  induction H; simpl; intros HQ Hst g Hg; simpl in Hg;
    try match type of HQ with _ /\ _ => destruct HQ as [HQ1 HQ2] end;
    try solve [eauto 6].
  injection Hg as <-. apply HQ. assumption.
Qed.

Lemma search_capture (Q : list ascii -> Prop) (r : regex) (s : string)
  (m : match_obj) (g : list ascii) :
  groups_satisfy Q r -> search r s = Some m -> group1 m = Some g -> Q g.
Proof.
  intros HQ Hs Hg. apply search_sound in Hs.
  destruct Hs as (st & st' & Hc & Hd & Hm).
  eapply derives_capture; eauto.
  - intros g' Hg'. congruence.
  - congruence.
Qed.

Lemma groups_satisfy_seq_chr (Q : list ascii -> Prop) (ps : list (ascii -> bool)) :
  groups_satisfy Q (seq (map Chr ps)).
Proof. induction ps; simpl; auto. Qed.

Lemma groups_satisfy_lit_ci (Q : list ascii -> Prop) (s : string) :
  groups_satisfy Q (lit_ci s).
Proof.
  unfold lit_ci, char_ci.
  rewrite <- (map_map (fun c x => Ascii.eqb (lower x) (lower c)) Chr).
  apply groups_satisfy_seq_chr.
Qed.

Lemma groups_satisfy_lit (Q : list ascii -> Prop) (s : string) :
  groups_satisfy Q (lit s).
Proof.
  unfold lit, char.
  rewrite <- (map_map Ascii.eqb Chr).
  apply groups_satisfy_seq_chr.
Qed.

Lemma derives_cat (r1 r2 : regex) (st st' : mstate) :
  derives (Cat r1 r2) st st' ->
  exists mid, derives r1 st mid /\ derives r2 mid st'.
Proof. intros H. inversion H; subst. eauto. Qed.

Lemma derives_eps (st st' : mstate) : derives Eps st st' -> st' = st.
Proof. intros H. inversion H; subst. reflexivity. Qed.

Lemma derives_opt (r : regex) (st st' : mstate) :
  derives (Opt r) st st' -> derives r st st' \/ st' = st.
Proof. intros H. inversion H; subst; auto. Qed.

Lemma derives_alt (r1 r2 : regex) (st st' : mstate) :
  derives (Alt r1 r2) st st' -> derives r1 st st' \/ derives r2 st st'.
Proof. intros H. inversion H; subst; auto. Qed.


(** *** The numbers the score patterns capture *)

Lemma digit_value (c : ascii) :
  is_digit c = true ->
  (0 <= Z.of_nat (nat_of_ascii c - 48) <= 9)%Z.
Proof.
  unfold is_digit, in_range. cbv zeta. rewrite andb_true_iff.
  intros [H1 H2]. apply Nat.leb_le in H1, H2. lia.
Qed.

Lemma digits_value_digits (w : list ascii) :
  forall acc : Z,
    forallb is_digit w = true ->
    exists v : Z,
      digits_value acc w = Some (acc * 10 ^ Z.of_nat (List.length w) + v)%Z
      /\ (0 <= v < 10 ^ Z.of_nat (List.length w))%Z.
Proof.
  induction w as [|c w IH]; intros acc Hw.
  - exists 0%Z. simpl. split; [f_equal; lia | lia].
  - simpl in Hw. apply andb_true_iff in Hw. destruct Hw as [Hc Hw].
    cbn [digits_value]. rewrite Hc.
    destruct (IH (10 * acc + Z.of_nat (nat_of_ascii c - 48))%Z Hw) as (v & Hv & Hr).
    pose proof (digit_value c Hc) as Hd.
    cbn [List.length]. rewrite Nat2Z.inj_succ, Z.pow_succ_r by lia.
    exists (Z.of_nat (nat_of_ascii c - 48) * 10 ^ Z.of_nat (List.length w) + v)%Z.
    rewrite Hv. split; [f_equal; ring | nia].
Qed.

Lemma one_to_five (c : ascii) :
  existsb (Ascii.eqb c) (chars "12345") = true ->
  is_digit c = true
  /\ Ascii.eqb c "."%char = false
  /\ (1 <= Z.of_nat (nat_of_ascii c - 48) <= 5)%Z.
Proof.
  cbn [chars list_ascii_of_string existsb].
  rewrite !orb_true_iff.
  intros [H|[H|[H|[H|[H|H]]]]]; try discriminate;
    apply Ascii.eqb_eq in H; subst c; repeat split; simpl; lia.
Qed.

Lemma float_score (c : ascii) (tail : list ascii) :
  existsb (Ascii.eqb c) (chars "12345") = true ->
  tail = [] \/ (exists fp, tail = "."%char :: fp /\ forallb is_digit fp = true) ->
  exists x, float (c :: tail) = Some x /\ score_range x.
Proof.
  intros Hc Ht. apply one_to_five in Hc. destruct Hc as (Hd & Hp & Hr).
  unfold float, decimal_of. cbn [split_at_point]. rewrite Hp.
  destruct Ht as [->|(fp & -> & Hfp)].
  - cbn [split_at_point rev app digits_value]. rewrite Hd.
    eexists. split; [reflexivity|].
    eexists. split; [reflexivity|].
    change (10 ^ Z.of_nat 0)%Z with 1%Z.
    replace (10 * 0 + Z.of_nat (nat_of_ascii c - 48))%Z
      with (Z.of_nat (nat_of_ascii c - 48)) by lia.
    destruct Hr as [H1 H5]. apply IZR_le in H1, H5.
    unfold Rdiv. rewrite Rinv_1, Rmult_1_r. lra.
  - cbn [split_at_point]. change (Ascii.eqb "." ".") with true.
    cbn [rev app digits_value]. rewrite Hd.
    destruct (digits_value_digits fp (10 * 0 + Z.of_nat (nat_of_ascii c - 48)) Hfp)
      as (v & Hv & Hb).
    rewrite Hv.
    eexists. split; [reflexivity|].
    eexists. split; [reflexivity|].
    set (P := (10 ^ Z.of_nat (List.length fp))%Z) in *.
    set (d := Z.of_nat (nat_of_ascii c - 48)) in *.
    assert (0 < P)%Z as HP by (apply Z.pow_pos_nonneg; lia).
    assert (0 < IZR P)%R as HPr by (apply IZR_lt; exact HP).
    assert (IZR P <= IZR ((10 * 0 + d) * P + v))%R as Hlo by (apply IZR_le; nia).
    assert (IZR ((10 * 0 + d) * P + v) < 6 * IZR P)%R as Hhi
      by (rewrite <- mult_IZR; apply IZR_lt; nia).
    split.
    + apply Rmult_le_reg_r with (IZR P); [exact HPr|].
      unfold Rdiv. rewrite Rmult_assoc, Rinv_l by lra. lra.
    + apply Rmult_lt_reg_r with (IZR P); [exact HPr|].
      unfold Rdiv. rewrite Rmult_assoc, Rinv_l by lra. lra.
Qed.


Lemma char_eq (c : ascii) (st st' : mstate) :
  derives (char c) st st' -> rest st = c :: rest st'.
Proof.
  intros H. apply derives_chr in H. destruct H as (x & Hx & Hp & _).
  apply Ascii.eqb_eq in Hp. congruence.
Qed.

Lemma strict_group_captures_score (st st' : mstate) :
  derives (Cat (one_of "12345") (Opt (Cat (char ".") (plus digit)))) st st' ->
  captures_score (consumed (rest st) (rest st')).
Proof.
  intros H. apply derives_cat in H. destruct H as (mid & H1 & H2).
  apply derives_chr in H1. destruct H1 as (c & Hc & Hp & _).
  apply derives_opt in H2. destruct H2 as [H2| ->].
  - apply derives_cat in H2. destruct H2 as (m2 & Hpt & Hds).
    apply char_eq in Hpt.
    apply derives_cat in Hds. destruct Hds as (m3 & Hd1 & Hdw).
    apply derives_chr in Hd1. destruct Hd1 as (d1 & Hd1 & Hd1p & _).
    apply derives_star_chr in Hdw. destruct Hdw as (w & Hw & Hwp & _).
    rewrite Hc, Hpt, Hd1, Hw.
    change (c :: "."%char :: d1 :: w ++ rest st')
      with ((c :: "."%char :: d1 :: w) ++ rest st').
    rewrite consumed_app. apply float_score; [exact Hp|].
    right. exists (d1 :: w). split; [reflexivity|].
    simpl. now rewrite Hd1p, Hwp.
  - rewrite Hc. change (c :: rest mid) with ([c] ++ rest mid).
    rewrite consumed_app. apply float_score; [exact Hp | now left].
Qed.

Lemma loose_group_captures_score (st st' : mstate) :
  derives (one_of "12345") st st' ->
  captures_score (consumed (rest st) (rest st')).
Proof.
  intros H. apply derives_chr in H. destruct H as (c & Hc & Hp & _).
  rewrite Hc. change (c :: rest st') with ([c] ++ rest st').
  rewrite consumed_app. apply float_score; [exact Hp | now left].
Qed.

Lemma strict_re_captures_score (key : string) :
  groups_satisfy captures_score (Evaluator.strict_re key).
Proof.
  unfold Evaluator.strict_re. cbn [seq fold_right groups_satisfy].
  repeat split; try exact I; try apply groups_satisfy_lit_ci.
  exact strict_group_captures_score.
Qed.

Lemma loose_re_captures_score (key : string) :
  groups_satisfy captures_score (Evaluator.loose_re key).
Proof.
  unfold Evaluator.loose_re. cbn [seq fold_right groups_satisfy].
  repeat split; try exact I; try apply groups_satisfy_lit_ci.
  exact loose_group_captures_score.
Qed.

End CaptureFacts.

Module ExtractFacts.

Import PyFloat PyStr Re Py Evaluator RegexSpec RegexFacts ExtractSpec CaptureFacts.

Lemma dict_get_set_same (V : Type) (key : string) (v : V) (d : dict V) :
  dict_get key (dict_set key v d) = Some v.
Proof.
  induction d as [|[k x] tl IH]; simpl.
  - now rewrite String.eqb_refl.
  - destruct (String.eqb k key) eqn:E; simpl; rewrite E; auto.
Qed.

Lemma dict_get_set_other (V : Type) (key key' : string) (v : V) (d : dict V) :
  key' <> key -> dict_get key (dict_set key' v d) = dict_get key d.
Proof.
  intros Hne. induction d as [|[k x] tl IH]; simpl.
  - destruct (String.eqb_spec key' key); [contradiction | reflexivity].
  - destruct (String.eqb_spec k key'); simpl.
    + subst k. destruct (String.eqb_spec key' key); [contradiction | reflexivity].
    + now rewrite IH.
Qed.

Lemma dict_get_set_inv (V : Type) (k key : string) (x v : V) (d : dict V) :
  dict_get k (dict_set key x d) = Some v ->
  (k = key /\ v = x) \/ dict_get k d = Some v.
Proof.
  destruct (String.eqb_spec key k) as [->|Hne].
  - rewrite dict_get_set_same. intros H. injection H as <-. auto.
  - rewrite dict_get_set_other by exact Hne. auto.
Qed.

Lemma scores_in_range_set (key : string) (x : pyfloat) (d : dict pyfloat) :
  score_range x -> scores_in_range d -> scores_in_range (dict_set key x d).
Proof.
  intros Hx Hd k v H. apply dict_get_set_inv in H.
  destruct H as [[_ ->]|H]; [exact Hx | eapply Hd; exact H].
Qed.

Lemma as_score_range (v : jval) (x : pyfloat) :
  as_score v = Some x -> exists r, x = Fin r /\ (1 <= r <= 5)%R.
Proof.
  destruct v as [z|y|b|]; simpl; try discriminate.
  - destruct (_ && _)%bool eqn:E; [|discriminate].
    intros H. injection H as <-. apply andb_true_iff in E. destruct E as [E1 E2].
    apply Z.leb_le in E1, E2. apply IZR_le in E1, E2.
    exists (IZR z). split; [reflexivity | lra].
  - destruct (_ && _)%bool eqn:E; [|discriminate].
    intros H. injection H as <-. apply andb_true_iff in E. destruct E as [E1 E2].
    destruct y as [r| | |]; simpl in E1, E2; try discriminate.
    unfold Rleb in E1, E2.
    destruct (Rle_dec 1 r); [|discriminate]. destruct (Rle_dec r 5); [|discriminate].
    exists r. split; [reflexivity | lra].
  - destruct b; [|discriminate]. intros H. injection H as <-.
    exists 1%R. split; [reflexivity | lra].
Qed.

Section Tiers.

Variable json_loads : string -> option (dict jval).

Lemma regex_tier_range (pat : string -> regex) (text : string) (sc : dict pyfloat) :
  (forall key, groups_satisfy captures_score (pat key)) ->
  scores_in_range sc -> scores_in_range (regex_tier pat text sc).
Proof.
  intros Hpat. unfold regex_tier. revert sc.
  induction score_keys as [|key keys IH]; intros sc Hsc; simpl; [exact Hsc|].
  apply IH.
  destruct (search (pat key) text) as [m|] eqn:Hm; [|exact Hsc].
  destruct (dict_mem key sc); [exact Hsc|].
  destruct (group1 m) as [g|] eqn:Hg; [|exact Hsc].
  destruct (@search_capture _ _ _ _ _ (Hpat key) Hm Hg) as (x & Hx & Hr).
  rewrite Hx. now apply scores_in_range_set.
Qed.

Lemma json_tier_range (text : string) : scores_in_range (json_tier json_loads text).
Proof.
  unfold json_tier.
  destruct (search json_block_re text) as [m|]; [|intros k v H; discriminate].
  destruct (json_loads _) as [js|]; [|intros k v H; discriminate].
  assert (scores_in_range []) as H0 by (intros k v H; discriminate).
  revert H0. generalize (@nil (string * pyfloat)).
  induction score_keys as [|key keys IH]; intros sc Hsc; simpl; [exact Hsc|].
  apply IH.
  destruct (dict_get key js) as [v|]; [|exact Hsc].
  destruct (as_score v) as [x|] eqn:Hx; [|exact Hsc].
  apply scores_in_range_set; [|exact Hsc].
  apply as_score_range in Hx. destruct Hx as (r & -> & Hr).
  exists r. split; [reflexivity | lra].
Qed.

Lemma all_scores_range (text : string) : scores_in_range (all_scores json_loads text).
Proof.
  unfold all_scores. cbv zeta.
  pose proof (json_tier_range text) as H1.
  assert (scores_in_range
            (if Nat.ltb (dict_len (json_tier json_loads text)) 7
             then regex_tier strict_re text (json_tier json_loads text)
             else json_tier json_loads text)) as H2.
  { destruct (Nat.ltb _ 7); [|exact H1].
    apply regex_tier_range; [exact strict_re_captures_score | exact H1]. }
  match goal with |- context [if ?b then regex_tier loose_re _ _ else _] => destruct b end;
    [|exact H2].
  apply regex_tier_range; [exact loose_re_captures_score | exact H2].
Qed.

(** A regex tier only adds keys: what an earlier tier stored stays. *)
Lemma regex_tier_keeps (pat : string -> regex) (text : string) (sc : dict pyfloat)
  (key : string) (v : pyfloat) :
  dict_get key sc = Some v -> dict_get key (regex_tier pat text sc) = Some v.
Proof.
  unfold regex_tier. revert sc.
  induction score_keys as [|k keys IH]; intros sc Hsc; simpl; [exact Hsc|].
  apply IH.
  destruct (search (pat k) text) as [m|]; [|exact Hsc].
  destruct (dict_mem k sc) eqn:Hk; [exact Hsc|].
  destruct (group1 m) as [g|]; [|exact Hsc].
  destruct (float g) as [x|]; [|exact Hsc].
  rewrite dict_get_set_other; [exact Hsc|].
  intros ->. unfold dict_mem in Hk. now rewrite Hsc in Hk.
Qed.

Lemma all_scores_keeps (text key : string) (v : pyfloat) :
  dict_get key (json_tier json_loads text) = Some v ->
  dict_get key (all_scores json_loads text) = Some v.
Proof.
  intros H. unfold all_scores. cbv zeta.
  assert (dict_get key
            (if Nat.ltb (dict_len (json_tier json_loads text)) 7
             then regex_tier strict_re text (json_tier json_loads text)
             else json_tier json_loads text) = Some v) as H2.
  { destruct (Nat.ltb _ 7); [|exact H]. now apply regex_tier_keeps. }
  match goal with |- context [if ?b then regex_tier loose_re _ _ else _] => destruct b end;
    [|exact H2].
  now apply regex_tier_keeps.
Qed.

End Tiers.

Lemma round_half_even_bounds (lo hi : Z) (r : R) :
  (IZR lo <= r <= IZR hi)%R -> (lo <= round_half_even r <= hi)%Z.
Proof.
  intros [Hlo Hhi]. unfold round_half_even. cbv zeta.
  destruct (base_Int_part r) as [Hn1 Hn2].
  set (n := Int_part r) in *.
  assert (lo <= n)%Z as Hln.
  { assert (IZR lo < IZR (n + 1))%R as H by (rewrite plus_IZR; lra).
    apply lt_IZR in H. lia. }
  assert (n <= hi)%Z as Hnh by (apply le_IZR; lra).
  assert ((1 / 2 <= r - IZR n)%R -> (n + 1 <= hi)%Z) as Hup.
  { intros Hf. assert (IZR n < IZR hi)%R as H by lra. apply lt_IZR in H. lia. }
  unfold Rltb.
  destruct (Rlt_dec (r - IZR n) (1 / 2)); [lia|].
  assert (n + 1 <= hi)%Z by (apply Hup; lra).
  destruct (Rlt_dec (1 / 2) (r - IZR n)); [lia|].
  destruct (Z.even n); lia.
Qed.

Lemma scores_per_test_range (sc : dict pyfloat) (key : string) :
  scores_in_range sc ->
  exists s, scores_per_test sc key = Fin s /\ (0 <= s < 6)%R
            /\ (dict_mem key sc = true -> (1 <= s)%R).
Proof.
  intros Hsc. unfold scores_per_test, dict_mem.
  destruct (dict_get key sc) as [v|] eqn:E.
  - destruct (Hsc _ _ E) as (r & -> & Hr).
    exists r. split; [reflexivity|]. split; [lra | intros _; lra].
  - exists 0%R. split; [reflexivity|]. split; [lra | discriminate].
Qed.

Lemma weighted_range (sc : dict pyfloat) :
  scores_in_range sc ->
  exists w, weighted sc = Fin w /\ (0 <= w <= 6)%R
            /\ (Forall (fun key => dict_mem key sc = true) score_keys -> (1 <= w)%R).
Proof.
  intros Hsc. unfold weighted, weights, PyFloat.sum.
  cbn [map fst snd fold_left].
  destruct (scores_per_test_range "taste" Hsc) as (s1 & -> & B1 & L1).
  destruct (scores_per_test_range "appearance" Hsc) as (s2 & -> & B2 & L2).
  destruct (scores_per_test_range "creativity" Hsc) as (s3 & -> & B3 & L3).
  destruct (scores_per_test_range "crowd_appeal" Hsc) as (s4 & -> & B4 & L4).
  destruct (scores_per_test_range "recipe_ties_story" Hsc) as (s5 & -> & B5 & L5).
  destruct (scores_per_test_range "story_brings_to_life" Hsc) as (s6 & -> & B6 & L6).
  destruct (scores_per_test_range "passion" Hsc) as (s7 & -> & B7 & L7).
  cbn [mul add round2].
  eexists. split; [reflexivity|].
  match goal with |- context [round_half_even ?a] => set (x := a) end.
  split.
  - assert (IZR 0 <= x <= IZR 600)%R as Hx by (unfold x; lra).
    apply round_half_even_bounds in Hx. destruct Hx as [Hlo Hhi].
    apply IZR_le in Hlo, Hhi. lra.
  - intros Hall. unfold score_keys in Hall.
    repeat match goal with
           | H : Forall _ (_ :: _) |- _ => inversion H; clear H; subst
           end.
    assert (IZR 100 <= x <= IZR 600)%R as Hx.
    { unfold x. specialize (L1 ltac:(assumption)). specialize (L2 ltac:(assumption)).
      specialize (L3 ltac:(assumption)). specialize (L4 ltac:(assumption)).
      specialize (L5 ltac:(assumption)). specialize (L6 ltac:(assumption)).
      specialize (L7 ltac:(assumption)). lra. }
    apply round_half_even_bounds in Hx. destruct Hx as [Hlo Hhi].
    apply IZR_le in Hlo, Hhi. lra.
Qed.

End ExtractFacts.

Module PipelineFacts.

Import PyFloat PyStr Re Py Evaluator Island RegisterSpec RegisterFacts.
Import ExtractSpec CaptureFacts ExtractFacts.

Lemma format_recipe_island (recipe : Recipe.t) (island_id : Z)
  (response : Response.t) (row : Row.t) :
  format_recipe recipe island_id response = Some row ->
  Row.island_id row =
    match Response.island_id response with Some i => i | None => island_id end.
Proof.
  unfold format_recipe.
  destruct (missing_fields _ _ _); [|discriminate].
  destruct (checked_scores response) as [l|]; [|discriminate].
  destruct (checked_weighted response) as [w|];
    [|do 8 (destruct l as [|? l]; try discriminate)].
  destruct (stripped_name _); do 8 (destruct l as [|? l]; try discriminate).
  intros H. inversion H; subst; reflexivity.
Qed.

Lemma resolved_of_map_Some (sc : dict pyfloat) (keys : list string) :
  forall l, map (fun key => dict_get key sc) keys = map Some l ->
            Forall (fun key => dict_mem key sc = true) keys.
Proof.
  induction keys as [|k keys IH]; intros [|x l] H; simpl in H; try discriminate.
  - constructor.
  - injection H as Hk Hl. constructor; [|eapply IH; exact Hl].
    unfold dict_mem. now rewrite Hk.
Qed.

Lemma map_Some_of_resolved (sc : dict pyfloat) (keys : list string) :
  scores_in_range sc ->
  Forall (fun key => dict_mem key sc = true) keys ->
  exists l, map (fun key => dict_get key sc) keys = map Some l
            /\ Forall (fun x => isnan x = false) l.
Proof.
  intros Hsc. induction 1 as [|k keys Hk _ IH].
  - exists []. split; constructor.
  - destruct IH as (l & Hl & Hn). unfold dict_mem in Hk.
    destruct (dict_get k sc) as [x|] eqn:E; [|discriminate].
    destruct (Hsc _ _ E) as (r & -> & _).
    exists (Fin r :: l). simpl. rewrite E, Hl. split; [reflexivity|].
    constructor; [reflexivity | exact Hn].
Qed.

End PipelineFacts.

Module PipelineProperties.

Import PyFloat PyStr Re Py Evaluator Island RegisterSpec RegisterFacts.
Import ExtractSpec CaptureFacts ExtractFacts PipelineFacts.
Local Open Scope string_scope.

(** X15.  In [extract_scores_from_response] a later tier never overwrites
    an earlier one: a score the JSON tier stored for a key, and a score
    the strict pattern stored when the JSON tier left keys missing, is
    the score of that key in the final dictionary, whatever the later
    patterns match in the text. *)
Theorem earlier_tier_is_never_overwritten :
  forall (json_loads : string -> option (dict jval)) (text key : string) (v : pyfloat),
    dict_get key (json_tier json_loads text) = Some v
    \/ (dict_len (json_tier json_loads text) < 7
        /\ dict_get key (regex_tier strict_re text (json_tier json_loads text)) = Some v) ->
    dict_get key (all_scores json_loads text) = Some v.
Proof.
  intros jl text key v [H|[Hlen H]].
  - now apply all_scores_keeps.
  - unfold all_scores. cbv zeta.
    apply Nat.ltb_lt in Hlen. rewrite Hlen.
    match goal with |- context [if ?b then regex_tier loose_re _ _ else _] => destruct b end;
      [|exact H].
    now apply regex_tier_keeps.
Qed.

Lemma json_taste_beats_inline_taste :
  dict_get "taste"
    (json_tier MoreSamples.taste_four_loader MoreSamples.inline_then_json_text)
  = Some (of_Z 4)
  /\ dict_get "taste"
       (all_scores MoreSamples.taste_four_loader MoreSamples.inline_then_json_text)
     = Some (of_Z 4).
Proof.
  split; [vm_compute; reflexivity|].
  apply (@earlier_tier_is_never_overwritten
           MoreSamples.taste_four_loader MoreSamples.inline_then_json_text
           "taste" (of_Z 4)).
  left. vm_compute. reflexivity.
Defined.

(** X16.  [extract_scores_from_response] followed by
    [register_and_evaluate_program], with the evaluator's own
    [extract_recipe_details]: the evaluated recipe is appended to the
    store exactly when its three required fields are present and the
    evaluator resolved every one of the seven score keys; the appended
    row is filed under the island the evaluation was made for and its
    weighted score is a finite number between 1 and 6; otherwise the
    island and the store are unchanged. *)
Theorem evaluated_recipe_registers_iff_fields_and_seven_scores :
  forall (json_loads : string -> option (dict jval)) (self : Island.t)
         (program text recipe : string) (island_id evaluated_for : Z)
         (programs : list Row.t),
    let response :=
      extract_scores_from_response json_loads text recipe evaluated_for in
    let out := register_and_evaluate_program extract_recipe_details
                 self program island_id response programs in
    ((exists row, snd out = (programs ++ [row])%list) <->
       fields_present (extract_recipe_details program)
       /\ Forall (fun key => dict_mem key (all_scores json_loads text) = true) score_keys)
    /\ (forall row, snd out = (programs ++ [row])%list ->
          Row.island_id row = evaluated_for
          /\ exists w, Row.weighted_score row = Fin w /\ (1 <= w <= 6)%R)
    /\ ((forall row, snd out <> (programs ++ [row])%list) -> out = (self, programs)).
Proof.
  intros jl self program text recipe iid isl programs response out.
  pose proof (all_scores_range jl text) as Hsc.
  destruct (weighted_range Hsc) as (w & Hw & Hb & Hone).
  pose proof (formatted_data_some extract_recipe_details program iid response) as Hreg.
  pose proof (@formatted_data_weighted extract_recipe_details program iid response) as Hwt.
  pose proof (@format_recipe_island (extract_recipe_details program) iid response) as Hisl.
  unfold formatted_data in Hreg, Hwt.
  subst out. unfold register_and_evaluate_program, register_extracted.
  destruct (format_recipe (extract_recipe_details program) iid response) as [row|] eqn:E;
    cbn [snd].
  - assert (registrable (extract_recipe_details program) response) as Hr
      by (apply Hreg; eauto).
    destruct Hr as (Hf & (l & Hl & _) & _).
    assert (Forall (fun key => dict_mem key (all_scores jl text) = true) score_keys)
      as Hall.
    { subst response. unfold extract_scores_from_response in Hl. cbv zeta in Hl.
      cbn [Response.scores] in Hl. injection Hl as Hl.
      eapply resolved_of_map_Some; exact Hl. }
    split; [split; [auto | eauto]|]. split.
    + intros row' Hrow'. apply app_inv_head in Hrow'. injection Hrow' as <-.
      split.
      * rewrite (Hisl row eq_refl). reflexivity.
      * destruct (Hwt row eq_refl) as (Hrw & _).
        subst response. unfold extract_scores_from_response in Hrw. cbv zeta in Hrw.
        cbn [Response.weighted_score] in Hrw. injection Hrw as Hrw.
        exists w. split; [congruence|]. split; [auto | lra].
    + intros Hno. exfalso. apply (Hno row). reflexivity.
  - split; [split|split].
    + intros [row Hrow]. apply (f_equal (@List.length Row.t)) in Hrow.
      rewrite length_app in Hrow. simpl in Hrow. lia.
    + intros [Hf Hall]. exfalso.
      assert (exists row : Row.t, @None Row.t = Some row) as [row Hrow]; [|discriminate].
      apply Hreg. split; [exact Hf|]. split.
      * destruct (map_Some_of_resolved Hsc Hall) as (l & Hl & Hn).
        exists l. split; [|split].
        -- subst response. unfold extract_scores_from_response. cbv zeta.
           cbn [Response.scores]. now rewrite Hl.
        -- apply (f_equal (@List.length _)) in Hl. rewrite !length_map in Hl.
           rewrite <- Hl. reflexivity.
        -- exact Hn.
      * exists (Fin w). split; [|reflexivity].
        subst response. unfold extract_scores_from_response. cbv zeta.
        cbn [Response.weighted_score]. now rewrite Hw.
    + intros row Hrow. apply (f_equal (@List.length Row.t)) in Hrow.
      rewrite length_app in Hrow. simpl in Hrow. lia.
    + reflexivity.
Qed.

End PipelineProperties.

(** ** The evaluator on binary64 scores *)

Module PipelineFacts64.

Import PyStr Re Py Exn Binary64 Binary64Facts Evaluator64 ScoreSpec64 ScoreFacts.
Import RegexSpec RegexFacts CaptureFacts.
Local Open Scope Q_scope.

(** *** The floats the patterns capture *)

Lemma float_reads_score (c : ascii) (tail : list ascii) :
  existsb (Ascii.eqb c) (chars "12345") = true ->
  tail = [] \/ (exists fp, tail = "."%char :: fp /\ forallb is_digit fp = true) ->
  captures_score (c :: tail).
Proof.
  intros Hc Ht. apply one_to_five in Hc. destruct Hc as (Hd & Hp & Hr).
  unfold captures_score, float, decimal_of. cbn [split_at_point]. rewrite Hp.
  set (d := Z.of_nat (nat_of_ascii c - 48)) in *.
  assert (forall (n : Z) (k : nat),
            (10 ^ Z.of_nat k <= n < 6 * 10 ^ Z.of_nat k)%Z ->
            score_range (of_decimal n k)) as Hrange.
  { intros n k [Hn1 Hn2]. unfold of_decimal.
    set (P := (10 ^ Z.of_nat k)%Z) in *.
    assert (0 < P)%Z as HP by (apply Z.pow_pos_nonneg; lia).
    assert (0 < inject_Z P) as HPq
      by (change 0 with (inject_Z 0); now rewrite <- Zlt_Qlt).
    assert (1 <= inject_Z n / inject_Z P) as Q1.
    { apply Qle_shift_div_l; [exact HPq|]. rewrite Qmult_1_l.
      now rewrite <- Zle_Qle. }
    assert (inject_Z n / inject_Z P <= 6) as Q6.
    { apply Qle_shift_div_r; [exact HPq|].
      change 6 with (inject_Z 6). rewrite <- inject_Z_mult, <- Zle_Qle. lia. }
    destruct (@rnd_small (inject_Z n / inject_Z P) 1 6) as (r & Hr' & Hb & _).
    - Lqa.lra.
    - Lqa.lra.
    - lia.
    - change (inject_Z 1) with 1. change (inject_Z 6) with 6. split; assumption.
    - exists r. split; [exact Hr'|]. exact Hb. }
  destruct Ht as [->|(fp & -> & Hfp)].
  - cbn [split_at_point rev app digits_value]. rewrite Hd.
    eexists. split; [reflexivity|]. apply Hrange.
    change (10 ^ Z.of_nat 0)%Z with 1%Z. fold d. lia.
  - cbn [split_at_point]. change (Ascii.eqb "." ".") with true.
    cbn [rev app digits_value]. rewrite Hd.
    destruct (digits_value_digits fp (10 * 0 + Z.of_nat (nat_of_ascii c - 48)) Hfp)
      as (v & Hv & Hb).
    rewrite Hv. eexists. split; [reflexivity|]. apply Hrange.
    fold d in Hv |- *.
    assert (0 < 10 ^ Z.of_nat (List.length fp))%Z by (apply Z.pow_pos_nonneg; lia).
    nia.
Qed.

Lemma strict_group_reads_score (st st' : mstate) :
  derives (Cat (one_of "12345") (Opt (Cat (char ".") (plus digit)))) st st' ->
  captures_score (consumed (rest st) (rest st')).
Proof.
  intros H. apply derives_cat in H. destruct H as (mid & H1 & H2).
  apply derives_chr in H1. destruct H1 as (c & Hc & Hp & _).
  apply derives_opt in H2. destruct H2 as [H2| ->].
  - apply derives_cat in H2. destruct H2 as (m2 & Hpt & Hds).
    apply char_eq in Hpt.
    apply derives_cat in Hds. destruct Hds as (m3 & Hd1 & Hdw).
    apply derives_chr in Hd1. destruct Hd1 as (d1 & Hd1 & Hd1p & _).
    apply derives_star_chr in Hdw. destruct Hdw as (w & Hw & Hwp & _).
    rewrite Hc, Hpt, Hd1, Hw.
    change (c :: "."%char :: d1 :: w ++ rest st')
      with ((c :: "."%char :: d1 :: w) ++ rest st').
    rewrite consumed_app. apply float_reads_score; [exact Hp|].
    right. exists (d1 :: w). split; [reflexivity|].
    simpl. now rewrite Hd1p, Hwp.
  - rewrite Hc. change (c :: rest mid) with ([c] ++ rest mid).
    rewrite consumed_app. apply float_reads_score; [exact Hp | now left].
Qed.

Lemma loose_group_reads_score (st st' : mstate) :
  derives (one_of "12345") st st' ->
  captures_score (consumed (rest st) (rest st')).
Proof.
  intros H. apply derives_chr in H. destruct H as (c & Hc & Hp & _).
  rewrite Hc. change (c :: rest st') with ([c] ++ rest st').
  rewrite consumed_app. apply float_reads_score; [exact Hp | now left].
Qed.

Lemma strict_re_reads_score (key : string) :
  groups_satisfy captures_score (Evaluator.strict_re key).
Proof.
  unfold Evaluator.strict_re. cbn [seq fold_right groups_satisfy].
  repeat split; try exact I; try apply groups_satisfy_lit_ci.
  exact strict_group_reads_score.
Qed.

Lemma loose_re_reads_score (key : string) :
  groups_satisfy captures_score (Evaluator.loose_re key).
Proof.
  unfold Evaluator.loose_re. cbn [seq fold_right groups_satisfy].
  repeat split; try exact I; try apply groups_satisfy_lit_ci.
  exact loose_group_reads_score.
Qed.

(** *** The dictionary of scores *)

Lemma dict_set_in_range (key : string) (x : Binary64.t) (d : dict Binary64.t) :
  score_range x -> scores_in_range d -> scores_in_range (dict_set key x d).
Proof.
  intros Hx Hd k v H. apply ExtractFacts.dict_get_set_inv in H.
  destruct H as [[_ ->]|H]; [exact Hx | eapply Hd; exact H].
Qed.

Lemma regex_tier_in_range (pat : string -> regex) (text : string) (sc : dict Binary64.t) :
  (forall key, groups_satisfy captures_score (pat key)) ->
  scores_in_range sc -> scores_in_range (regex_tier pat text sc).
Proof.
  intros Hpat. unfold regex_tier. revert sc.
  induction Evaluator.score_keys as [|key keys IH]; intros sc Hsc; simpl; [exact Hsc|].
  apply IH.
  destruct (search (pat key) text) as [m|] eqn:Hm; [|exact Hsc].
  destruct (dict_mem key sc); [exact Hsc|].
  destruct (group1 m) as [g|] eqn:Hg; [|exact Hsc].
  destruct (@search_capture _ _ _ _ _ (Hpat key) Hm Hg) as (x & Hx & Hr).
  rewrite Hx. now apply dict_set_in_range.
Qed.

Section Tiers.

Variable json_loads : string -> loaded.

Lemma json_fold_range (js : dict jval) (keys : list string) (sc : dict Binary64.t) :
  scores_in_range sc ->
  scores_in_range
    (fold_left
       (fun sc key =>
          match dict_get key js with
          | Some v =>
              match as_score v with
              | Some x => dict_set key x sc
              | None => sc
              end
          | None => sc
          end) keys sc).
Proof.
  revert sc. induction keys as [|key keys IH]; intros sc Hsc; simpl; [exact Hsc|].
  apply IH.
  destruct (dict_get key js) as [v|]; [|exact Hsc].
  destruct (as_score v) as [x|] eqn:Hx; [|exact Hsc].
  apply dict_set_in_range; [|exact Hsc].
  eapply as_score_stays_in_range; exact Hx.
Qed.

Lemma json_tier_in_range (text : string) (d : dict Binary64.t) :
  json_tier json_loads text = Ok d -> scores_in_range d.
Proof.
  assert (scores_in_range []) as H0 by (intros k v H; discriminate).
  unfold json_tier.
  destruct (search Evaluator.json_block_re text) as [m|];
    [|intros H; injection H as <-; exact H0].
  destruct (json_loads _) as [js| |e];
    [|intros H; injection H as <-; exact H0 | discriminate].
  intros H. apply (f_equal (fun r => match r with Ok x => x | Raise _ => d end)) in H.
  rewrite <- H. apply json_fold_range. exact H0.
Qed.

Lemma all_scores_in_range (text : string) (d : dict Binary64.t) :
  all_scores json_loads text = Ok d -> scores_in_range d.
Proof.
  unfold all_scores.
  destruct (json_tier json_loads text) as [d0|e] eqn:E; [|discriminate].
  cbn [bind]. intros H. injection H as <-.
  pose proof (json_tier_in_range _ E) as H1.
  assert (scores_in_range
            (if Nat.ltb (dict_len d0) 7
             then regex_tier Evaluator.strict_re text d0 else d0)) as H2.
  { destruct (Nat.ltb _ 7); [|exact H1].
    apply regex_tier_in_range; [exact strict_re_reads_score | exact H1]. }
  match goal with
  | |- context [if ?b then regex_tier Evaluator.loose_re _ _ else _] => destruct b
  end; [|exact H2].
  apply regex_tier_in_range; [exact loose_re_reads_score | exact H2].
Qed.

(** The function raises exactly when [json.loads] lets an exception
    escape. *)
Lemma all_scores_raises (text : string) (e : exn) :
  all_scores json_loads text = Raise e <->
  exists m, search Evaluator.json_block_re text = Some m
            /\ json_loads (strip (str (group0 m))) = Escapes e.
Proof.
  unfold all_scores, json_tier.
  destruct (search Evaluator.json_block_re text) as [m|].
  - destruct (json_loads (strip (str (group0 m)))) as [js| |e'] eqn:E; cbn [bind].
    + split; [discriminate | intros (m' & Hm & He); injection Hm as <-; congruence].
    + split; [discriminate | intros (m' & Hm & He); injection Hm as <-; congruence].
    + split.
      * intros H. injection H as <-. eauto.
      * intros (m' & Hm & He). injection Hm as <-. congruence.
  - cbn [bind]. split; [discriminate | intros (m' & Hm & _); discriminate].
Qed.

End Tiers.

Lemma scores_per_test_value (d : dict Binary64.t) (key : string) :
  scores_in_range d ->
  scores_per_test d key = Fin (value_of d key) /\ 0 <= value_of d key <= 6.
Proof.
  intros Hd. unfold scores_per_test, value_of.
  destruct (dict_get key d) as [x|] eqn:E.
  - destruct (Hd _ _ E) as (q & -> & Hq). split; [reflexivity | split; Lqa.lra].
  - rewrite of_Z_0. split; [reflexivity | split; Lqa.lra].
Qed.

Lemma weighted_in_range (d : dict Binary64.t) :
  scores_in_range d ->
  exists w, weighted d = Fin w /\ 0 <= w <= 6.
Proof.
  intros Hd. unfold weighted.
  rewrite (@weighted_sum_as_float d (value_of d))
    by (intros key _; apply scores_per_test_value; exact Hd).
  destruct (@float_weighted_sum_close (value_of d)) as (s & -> & S0 & S1 & S2).
  { intros key _. apply scores_per_test_value; exact Hd. }
  assert (0 <= exact_weighted_sum (value_of d) <= 6) as [X0 X6].
  { unfold exact_weighted_sum.
    pose proof (fun key => proj2 (scores_per_test_value key Hd)) as Hk.
    pose proof (Hk "taste"%string). pose proof (Hk "appearance"%string).
    pose proof (Hk "creativity"%string). pose proof (Hk "crowd_appeal"%string).
    pose proof (Hk "recipe_ties_story"%string).
    pose proof (Hk "story_brings_to_life"%string). pose proof (Hk "passion"%string).
    split; Lqa.lra. }
  destruct (@weighted_rounding s 0 6) as (w & _ & Hw & Hb & _); [lia | lia | |].
  - change (inject_Z 0) with 0. change (inject_Z 6) with 6.
    unfold tolerance in *. split; Lqa.lra.
  - exists w. split; [exact Hw|]. exact Hb.
Qed.

End PipelineFacts64.

Module PipelineProperties64.

Import PyStr Re Py Exn Binary64 Binary64Facts Evaluator64 ScoreSpec64 ScoreFacts PipelineFacts64.
Local Open Scope string_scope.
Local Open Scope Q_scope.

(** X17.  Whatever the reply text and whatever [json.loads] does,
    [extract_scores_from_response] either raises the exception that
    [json.loads] let escape on the first brace-delimited block (a
    [ValueError] or a [RecursionError], which [except
    json.JSONDecodeError] does not catch), and only then, or returns a
    list of exactly seven entries, each [None] or a finite float from 1 to
    6 (both included: a literal just below 6 reads as 6.0), a weighted
    score that is a finite float between 0 and 6, and the island id it was
    given; it never produces nan or an infinity. *)
Theorem extract_scores_from_response_stays_in_range :
  forall (json_loads : string -> loaded) (response_text recipe : string)
         (island_id : Z),
    (exists e m,
        extract_scores_from_response json_loads response_text recipe island_id
          = Raise e
        /\ search Evaluator.json_block_re response_text = Some m
        /\ json_loads (strip (str (group0 m))) = Escapes e)
    \/ (exists l w,
          extract_scores_from_response json_loads response_text recipe island_id
            = Ok (Evaluation l (Fin w) island_id)
          /\ (forall m, search Evaluator.json_block_re response_text = Some m ->
                forall e, json_loads (strip (str (group0 m))) <> Escapes e)
          /\ List.length l = 7%nat
          /\ (forall x, In x l ->
                x = None \/ exists q, x = Some (Fin q) /\ 1 <= q <= 6)
          /\ 0 <= w <= 6).
Proof.
  intros json_loads text recipe iid.
  unfold extract_scores_from_response.
  destruct (all_scores json_loads text) as [d|e] eqn:E; cbn [bind].
  - right. pose proof (all_scores_in_range _ _ E) as Hd.
    destruct (weighted_in_range Hd) as (w & Hw & Hb).
    exists (map (fun key => dict_get key d) Evaluator.score_keys), w.
    split; [now rewrite Hw|]. split; [|split; [reflexivity|split; [|exact Hb]]].
    + intros m Hm e He.
      assert (all_scores json_loads text = Raise e) as Hr
        by (apply all_scores_raises; eauto).
      congruence.
    + intros x Hx. apply in_map_iff in Hx. destruct Hx as (key & <- & _).
      destruct (dict_get key d) as [y|] eqn:Hy; [|now left].
      right. destruct (Hd _ _ Hy) as (q & -> & Hq). eauto.
  - left. apply all_scores_raises in E. destruct E as (m & Hm & He).
    exists e, m. auto.
Qed.

(** A literal just below 6 is stored as 6.0, and a [json.loads] that
    fails on deep nesting makes the function raise. *)
Lemma extract_scores_from_response_edges :
  extract_scores_from_response Samples64.tie_loads
    "taste: 5.99999999999999999999, Passion=3.25" Samples.pie_program 0
  = Ok (Evaluation [Some (Fin 6); None; None; None; None; None; Some (Fin (13 # 4))]
                   (of_decimal 124 2) 0%Z)
  /\ of_decimal 599999999999999999999 20 = of_prim HardwareFloats.f_6
  /\ extract_scores_from_response Samples64.deep_loads Samples64.tie_text
       Samples.pie_program 0
     = Raise RecursionError.
Proof.
  split; [vm_compute; reflexivity|]. split; vm_compute; reflexivity.
Qed.

End PipelineProperties64.

Module FieldFacts.

Import PyFloat PyStr Re Py Evaluator RegexSpec RegexFacts CaptureFacts FieldSpec.

Lemma forallb_pointwise (p q : ascii -> bool) (l : list ascii) :
  (forall x, p x = q x) -> forallb p l = forallb q l.
Proof. intros H. induction l as [|c l IH]; simpl; [reflexivity | now rewrite H, IH]. Qed.

Lemma field_group_delimited (st st' : mstate) :
  derives (Alt (seq [char "["; Star (none_of "]"); char "]"])
               (seq [quote; Star (Chr (fun x => negb (Ascii.eqb x dquote))); quote]))
          st st' ->
  delimited (consumed (rest st) (rest st')).
Proof.
  intros H. apply derives_alt in H. destruct H as [H|H];
    cbn [seq fold_right] in H;
    apply derives_cat in H; destruct H as (m1 & Ho & H);
    apply derives_cat in H; destruct H as (m2 & Hb & H);
    apply derives_cat in H; destruct H as (m3 & Hc & He);
    apply derives_eps in He; subst m3;
    apply char_eq in Ho, Hc;
    apply derives_star_chr in Hb; destruct Hb as (body & Hb & Hall & _);
    rewrite Ho, Hb, Hc.
  - change ("["%char :: body ++ "]"%char :: rest st')
      with (("["%char :: body) ++ ["]"%char] ++ rest st').
    rewrite app_assoc, consumed_app. exists body. left. split; [reflexivity|].
    erewrite forallb_pointwise; [exact Hall|].
    intros x. unfold chars. cbn [list_ascii_of_string existsb].
    now rewrite orb_false_r.
  - change (dquote :: body ++ dquote :: rest st')
      with ((dquote :: body) ++ [dquote] ++ rest st').
    rewrite app_assoc, consumed_app. exists body. right. split; [reflexivity|].
    exact Hall.
Qed.

Lemma field_re_delimited (field : string) :
  groups_satisfy delimited (field_re field).
Proof.
  unfold field_re. cbn [seq fold_right groups_satisfy].
  repeat split; try exact I; try apply groups_satisfy_lit.
  exact field_group_delimited.
Qed.

Lemma strip_by_bounded (p : ascii -> bool) (a b : ascii) (body : list ascii) :
  p a = false -> p b = false ->
  strip_by p (a :: body ++ [b]) = a :: body ++ [b].
Proof.
  intros Ha Hb. unfold strip_by. cbn [drop_while]. rewrite Ha.
  change (a :: body ++ [b]) with ((a :: body) ++ [b]).
  rewrite rev_app_distr. cbn [rev app drop_while]. rewrite Hb.
  change (b :: rev body ++ [a]) with ([b] ++ rev (a :: body)).
  rewrite rev_app_distr, rev_involutive. reflexivity.
Qed.

Lemma strip_delimited (g : list ascii) :
  delimited g -> strip (str g) = str g /\ nonempty (str g) = true.
Proof.
  intros (body & [[-> _]|[-> _]]); unfold strip, str, chars;
    rewrite list_ascii_of_string_of_list_ascii;
    (split; [f_equal; apply strip_by_bounded; reflexivity | reflexivity]).
Qed.

Lemma field_value_delimited (field text v : string) :
  field_value field text = Some v ->
  exists g, v = str g /\ delimited g.
Proof.
  unfold field_value.
  destruct (search (field_re field) text) as [m|] eqn:Hm; [|discriminate].
  destruct (group1 m) as [g|] eqn:Hg; [|discriminate].
  intros H. injection H as <-.
  pose proof (@search_capture _ _ _ _ _ (field_re_delimited field) Hm Hg) as Hd.
  exists g. split; [apply strip_delimited; exact Hd | exact Hd].
Qed.

End FieldFacts.

Module FieldProperties.

Import PyFloat PyStr Re Py Evaluator Island FieldSpec FieldFacts.
Local Open Scope string_scope.

(** X18.  A field value that [extract_recipe_details] extracts keeps its
    delimiters: it is a text between square brackets or between double
    quotes, so it is never empty and stripping it changes nothing. *)
Theorem extract_recipe_details_keeps_the_delimiters :
  forall (field text v : string),
    field_value field text = Some v ->
    delimited (chars v) /\ strip v = v.
Proof.
  intros field text v H. apply field_value_delimited in H.
  destruct H as (g & -> & Hd).
  unfold chars, str. rewrite list_ascii_of_string_of_list_ascii.
  split; [exact Hd | apply strip_delimited; exact Hd].
Qed.

Lemma extract_recipe_details_empty_name :
  field_value "recipe_name" MoreSamples.unnamed_program = Some (Samples.quoted "")
  /\ delimited (chars (Samples.quoted ""))
  /\ strip (Samples.quoted "") = Samples.quoted "".
Proof.
  split; [vm_compute; reflexivity|].
  apply (@extract_recipe_details_keeps_the_delimiters
           "recipe_name" MoreSamples.unnamed_program (Samples.quoted "")).
  vm_compute. reflexivity.
Defined.

(** X19.  The recipe-name check of [register_and_evaluate_program] passes
    exactly when [extract_recipe_details] matched a [recipe_name] field,
    and the name it registers is the matched text with its quotes or
    brackets: a name with nothing between its quotes passes the check. *)
Theorem recipe_name_check_passes_iff_the_field_is_matched :
  forall text : string,
    stripped_name (extract_recipe_details text) = field_value "recipe_name" text.
Proof.
  intros text. unfold stripped_name, extract_recipe_details. cbn [Recipe.recipe_name].
  destruct (field_value "recipe_name" text) as [v|] eqn:E; [|reflexivity].
  apply field_value_delimited in E. destruct E as (g & -> & Hd).
  cbn [option_map]. destruct (strip_delimited Hd) as [-> ->]. reflexivity.
Qed.

End FieldProperties.

(** ** The parents of a batch and the best recipe of a run *)

Module SelectionFacts.

Import PyFloat PyFloatFacts OrderFacts Exn Helper SoftmaxFacts Island RankFacts.
Import DistributionFacts RankingSpec RankingFacts FunSearch ParentsSpec.
Import RegisterSpec RegisterFacts DriverSpec DriverFacts.

Lemma leb_not_ltb (x y : pyfloat) : leb y x = true -> ltb x y = false.
Proof.
  destruct x, y; simpl; intros H; try reflexivity; try discriminate.
  apply Rleb_true in H. apply Rltb_false. exact H.
Qed.

Lemma tagged_not_nan (g : R -> R) (p : ranked_row) :
  tagged g p -> isnan (snd p) = false.
Proof. intros (w & _ & ->). reflexivity. Qed.

(** With finite weighted scores the ranking is a descending list of rows
    tagged with an increasing function of their score. *)
Lemma rank_programs_sorted (self : Island.t) (programs : list Row.t) :
  Forall (fun r => isfinite (Row.weighted_score r) = true)
         (island_programs self programs) ->
  exists (g : R -> R) (ranked : list ranked_row),
    (forall x y, (x < y)%R -> (g x < g y)%R)
    /\ fst (rank_programs self programs) = Ok ranked
    /\ Forall (tagged g) ranked
    /\ StronglySorted above ranked
    /\ List.length ranked = List.length (island_programs self programs).
Proof.
  intros Hfin. unfold rank_programs.
  destruct (finite_weighted Hfin) as [rs Hrs].
  destruct (island_programs self programs) as [|row rows] eqn:Hrows.
  { exists (fun x => x), []. repeat split; try constructor. intros x y H; exact H. }
  destruct rs as [|a l]; [discriminate|].
  destruct (softmax_explicit a l) as (Htot & Hsm).
  set (m := fold_left Rmax l a) in *.
  set (total := fold_left Rplus _ 0%R) in *.
  rewrite Hrs, Hsm. cbn [bind fst].
  exists (fun r => (Rtrigo_def.exp (r - m) / total)%R). eexists.
  split; [now apply softmax_increasing|].
  split; [reflexivity|].
  pose proof (@combine_tagged (fun r => (Rtrigo_def.exp (r - m) / total)%R)
                (row :: rows) (a :: l) Hrs) as Hc.
  split; [|split].
  - apply Forall_forall. intros z Hz.
    apply (Permutation_in _ (sort_values_desc_perm _)) in Hz.
    revert z Hz. apply Forall_forall. exact Hc.
  - apply (@sort_values_desc_sorted (fun r => (Rtrigo_def.exp (r - m) / total)%R)).
    exact Hc.
  - rewrite (Permutation_length (sort_values_desc_perm _)).
    apply (f_equal (@List.length _)) in Hrs. rewrite !length_map in Hrs.
    etransitivity; [apply length_combine|].
    rewrite length_map, <- Hrs. apply Nat.min_id.
Qed.

Lemma sorted_desc_sorted (l : list formatted) :
  Forall (fun r => isnan (softmax_score r) = false) l ->
  StronglySorted (fun a b => leb (softmax_score b) (softmax_score a) = true) l ->
  sorted_desc l = l.
Proof.
  intros Hn Hs. induction Hs as [|a tl Htl IH Ha]; [reflexivity|].
  inversion Hn as [|? ? Hna Hntl]; subst.
  change (sorted_desc (a :: tl)) with (insert_formatted a (sorted_desc tl)).
  rewrite (IH Hntl). destruct tl as [|y tl']; [reflexivity|].
  cbn [insert_formatted]. unfold sorts_after.
  inversion Ha as [|? ? Hy _]; subst.
  rewrite Hna, (leb_not_ltb _ _ Hy). reflexivity.
Qed.

Lemma sorted_split (A : Type) (R : A -> A -> Prop) (l : list A) :
  StronglySorted R l ->
  forall (n : nat) (a b : A), In a (firstn n l) -> In b (skipn n l) -> R a b.
Proof.
  induction 1 as [|x tl Htl IH Hx]; intros n a b Ha Hb.
  - rewrite firstn_nil in Ha. contradiction.
  - destruct n as [|n]; [contradiction|].
    cbn [firstn skipn] in Ha, Hb. destruct Ha as [<-|Ha].
    + rewrite Forall_forall in Hx. apply Hx.
      rewrite <- (firstn_skipn n tl). apply in_or_app. now right.
    + eapply IH; eauto.
Qed.

Lemma insert_by_score_perm (x : Row.t) (l : list Row.t) :
  Permutation (Main.insert_by_score x l) (x :: l).
Proof.
  induction l as [|y tl IH]; simpl; [reflexivity|].
  destruct (sorts_after _ _); [|reflexivity].
  rewrite IH. apply perm_swap.
Qed.

Lemma sort_by_weighted_score_perm (l : list Row.t) :
  Permutation (Main.sort_by_weighted_score l) l.
Proof.
  induction l as [|x tl IH]; simpl; [reflexivity|].
  rewrite insert_by_score_perm. now constructor.
Qed.

(** The head of the sorted frame is a row with the highest score. *)
Lemma sort_by_weighted_score_head (l : list Row.t) :
  Forall (fun r => isnan (Row.weighted_score r) = false) l ->
  match Main.sort_by_weighted_score l with
  | [] => l = []
  | best :: _ =>
      Forall (fun r => leb (Row.weighted_score r) (Row.weighted_score best) = true) l
  end.
Proof.
  induction 1 as [|x tl Hx Htl IH]; [reflexivity|].
  change (Main.sort_by_weighted_score (x :: tl))
    with (Main.insert_by_score x (Main.sort_by_weighted_score tl)).
  destruct (Main.sort_by_weighted_score tl) as [|b rest] eqn:E.
  - subst tl. simpl. constructor; [now apply leb_refl | constructor].
  - assert (isnan (Row.weighted_score b) = false) as Hb.
    { rewrite Forall_forall in Htl. apply Htl.
      apply (Permutation_in _ (sort_by_weighted_score_perm tl)).
      rewrite E. now left. }
    cbn [Main.insert_by_score]. unfold sorts_after. rewrite Hx. cbn [andb orb].
    destruct (ltb (Row.weighted_score x) (Row.weighted_score b)) eqn:Hlt.
    + constructor; [now apply ltb_leb | exact IH].
    + pose proof (not_ltb_leb _ _ Hx Hb Hlt) as Hle.
      constructor; [now apply leb_refl|].
      eapply Forall_impl; [|exact IH]. intros r Hr. simpl in Hr.
      eapply leb_trans; eauto.
Qed.

Section Driver.

Variable extract_recipe_details : string -> Recipe.t.

Lemma produced_not_nan (row : Row.t) :
  produced extract_recipe_details row -> isnan (Row.weighted_score row) = false.
Proof.
  intros (program & iid & response & H).
  destruct (formatted_data_weighted extract_recipe_details _ _ _ H) as (Hw & _).
  assert (registrable (extract_recipe_details program) response) as Hr
    by (apply (formatted_data_some extract_recipe_details program iid response); eauto).
  destruct Hr as (_ & _ & (w & Hw' & Hn)). congruence.
Qed.

End Driver.

End SelectionFacts.

Module SelectionProperties.

Import PyFloat PyFloatFacts OrderFacts Exn Helper SoftmaxFacts Island RankFacts.
Import DistributionFacts RankingSpec RankingFacts FunSearch ParentsSpec.
Import RegisterSpec RegisterFacts DriverSpec DriverFacts SelectionFacts.
Import SeedFacts BatchFacts.

(** X20.  When the weighted scores of the island's rows are finite, the
    parents [generate_recipes_for_island_batch] hands to [evolve_function]
    are the first two recipes of the island's ranking (all of them when the
    island has fewer): sorting the formatted recipes again changes nothing,
    and no other row of the island has a higher weighted score than a
    selected one. *)
Theorem top_candidates_are_the_two_best_ranked :
  forall (island : Island.t) (programs : list Row.t),
    Forall (fun r => isfinite (Row.weighted_score r) = true)
           (island_programs island programs) ->
    exists ranked recipes,
      fst (rank_programs island programs) = Ok ranked
      /\ get_formatted_recipes_for_island island programs = Ok recipes
      /\ firstn 2 (sorted_desc recipes) = map formatted_of (firstn 2 ranked)
      /\ List.length (firstn 2 (sorted_desc recipes))
         = Nat.min 2 (List.length (island_programs island programs))
      /\ forall a b,
           In a (firstn 2 ranked) -> In b (skipn 2 ranked) ->
           leb (Row.weighted_score (fst b)) (Row.weighted_score (fst a)) = true.
Proof.
  intros island programs Hfin.
  destruct (rank_programs_sorted island programs Hfin)
    as (g & ranked & Hg & Hrank & Htag & Hsorted & Hlen).
  exists ranked, (map formatted_of ranked).
  split; [exact Hrank|].
  split; [unfold get_formatted_recipes_for_island; now rewrite Hrank|].
  assert (sorted_desc (map formatted_of ranked) = map formatted_of ranked) as ->.
  { apply sorted_desc_sorted.
    - apply Forall_forall. intros r Hr. apply in_map_iff in Hr.
      destruct Hr as (p & <- & Hp). rewrite Forall_forall in Htag.
      apply (tagged_not_nan (Htag p Hp)).
    - clear - Hsorted. induction Hsorted as [|a tl Htl IH Ha]; [constructor|].
      cbn [map]. constructor; [exact IH|].
      apply Forall_forall. intros r Hr. apply in_map_iff in Hr.
      destruct Hr as (p & <- & Hp). rewrite Forall_forall in Ha.
      exact (Ha p Hp). }
  split; [apply firstn_map|].
  split; [now rewrite length_firstn, length_map, Hlen|].
  apply sorted_split. now apply (sorted_by_weight Hg).
Qed.

(** The theorem on island 0 of [MoreSamples.mixed_store]. *)
Lemma top_candidates_of_the_mixed_store :
  exists ranked recipes,
    fst (rank_programs (Island.init 0) MoreSamples.mixed_store) = Ok ranked
    /\ get_formatted_recipes_for_island (Island.init 0) MoreSamples.mixed_store
       = Ok recipes
    /\ firstn 2 (sorted_desc recipes) = map formatted_of (firstn 2 ranked)
    /\ List.length (firstn 2 (sorted_desc recipes))
       = Nat.min 2 (List.length (island_programs (Island.init 0) MoreSamples.mixed_store))
    /\ forall a b,
         In a (firstn 2 ranked) -> In b (skipn 2 ranked) ->
         leb (Row.weighted_score (fst b)) (Row.weighted_score (fst a)) = true.
Proof.
  apply top_candidates_are_the_two_best_ranked. repeat constructor.
Defined.

(** X21.  On the DataFrame a run of [fun_search_optimization] with at
    least one island returns, the selection of [main] never fails: the
    frame has a row, so [iloc[0]] of the sorted frame exists, and it is a
    row of the frame whose weighted score is at least that of every
    other row. *)
Theorem best_recipe_of_a_run_has_the_highest_score :
  forall (extract_recipe_details : string -> Recipe.t)
         (generate_recipe : Z -> nat -> string)
         (evaluate_seed : Z -> nat -> Response.t)
         (evolve_function : nat -> Z -> nat -> list formatted -> result (option string))
         (evaluate_evolved : nat -> Z -> nat -> Response.t)
         (num_batches recipes_per_batch num_islands fuel : nat)
         (_programs results : list Row.t),
    1 <= num_islands ->
    fun_search_optimization extract_recipe_details generate_recipe
      evaluate_seed evolve_function evaluate_evolved
      num_batches recipes_per_batch num_islands fuel _programs = Some (Ok results) ->
    exists best,
      Main.best_recipe results = Ok best
      /\ In best results
      /\ Forall (fun r => leb (Row.weighted_score r) (Row.weighted_score best) = true)
                results.
Proof.
  intros extract gen ev evolve ev2 nb rpb ni fuel p0 results Hni H.
  unfold fun_search_optimization in H.
  destruct (ProgramsDatabase.initialize_islands _ _ _ _ _ _) as [[islands p1]|] eqn:E1;
    [|discriminate].
  injection H as H.
  destruct (run_batches _ _ _ _ _ _ _) as [r|] eqn:E2; [|discriminate].
  cbn [bind] in H. injection H as <-.
  unfold ProgramsDatabase.initialize_islands in E1.
  destruct (ProgramsDatabase.initialize_each _ _ _ _ _ _) as [[isls p]|] eqn:E0;
    [|discriminate].
  injection E1 as <- <-.
  pose proof (initialize_each_counts _ _ _ _ _ _ E0) as (_ & Hlen).
  pose proof (initialize_each_extends _ _ _ _ _ _ E0) as Hx1.
  pose proof (run_batches_extends _ _ _ _ _ _ _ E2) as Hx2.
  pose proof (run_batches_bounds _ _ _ _ _ _ _ E2) as (Hlo & _).
  pose proof (extends_trans Hx1 Hx2) as (new & Hnew & Hprod).
  rewrite length_map, length_seq in Hlen. simpl in Hlen, Hnew.
  assert (Forall (fun r0 => isnan (Row.weighted_score r0) = false) (snd r)) as Hnn.
  { rewrite Hnew. eapply Forall_impl; [|exact Hprod].
    intros row Hrow. eapply produced_not_nan; exact Hrow. }
  pose proof (sort_by_weighted_score_head Hnn) as Hhead.
  pose proof (sort_by_weighted_score_perm (snd r)) as Hperm.
  unfold Main.best_recipe.
  destruct (Main.sort_by_weighted_score (snd r)) as [|best rest].
  - rewrite Hhead in Hlo. simpl in Hlo. lia.
  - exists best. split; [reflexivity|]. split; [|exact Hhead].
    apply (Permutation_in _ Hperm). now left.
Qed.

(** The theorem on the run of one island and one batch of two. *)
Lemma best_recipe_of_the_sample_run :
  exists best,
    Main.best_recipe [Samples.pie_row (Fin 4); Samples.pie_row (Fin 4.5);
                      Samples.pie_row (Fin 4.5)] = Ok best
    /\ In best [Samples.pie_row (Fin 4); Samples.pie_row (Fin 4.5);
                Samples.pie_row (Fin 4.5)]
    /\ Forall (fun r => leb (Row.weighted_score r) (Row.weighted_score best) = true)
              [Samples.pie_row (Fin 4); Samples.pie_row (Fin 4.5);
               Samples.pie_row (Fin 4.5)].
Proof.
  apply (@best_recipe_of_a_run_has_the_highest_score
           Evaluator.extract_recipe_details Samples.always_pie Samples.always_four
           Samples.evolve_pie Samples.always_four_and_half 1 2 1 5 []).
  - lia.
  - vm_compute. reflexivity.
Defined.

End SelectionProperties.
